(** * RDF values of GRR: a model of [grr_response_core/lib/rdfvalue.py]

    The development has two parts.  The first embeds the Python module: the
    builtins it calls ([int], [str], string methods, the [re] engine, UTF-8,
    binary64 floats), the helper [utils.NormalizePath], and then the value
    classes themselves, one definition per method, named as in the source.
    The second part states and proves the properties of the classes.

    Conventions of the embedding:
    - a Python [str] (a byte string) is a [string]; a [unicode] text is a list
      of code points; a Python [int]/[long] is a [Z]; a [float] is a binary64
      [float] of the kernel;
    - a method that may raise returns a [result]: [Ok v] or [Raise e] with the
      class of the exception;
    - a method that mutates [self] is a function from the old payload to the
      new one; objects that need an identity live in a [heap]. *)

From Stdlib Require Import ZArith Lia List Ascii String.
From Stdlib Require Import DecimalString DecimalPos DecimalZ Floats.
From stdpp Require Import base option gmap strings.
Import ListNotations.

Local Open Scope string_scope.
Local Open Scope Z_scope.

(** ** Python builtins *)

Module Py.

(** Exception classes: the three of the module ([Error], [InitializeError],
    [DecodeError]) and the builtin ones its code can raise. *)
Inductive exn : Set :=
| Error
| InitializeError
| DecodeError
| ValueError
| TypeError
| RuntimeError
| KeyError
| OverflowError
| UnicodeDecodeError
| AttributeError.

#[global] Instance exn_eq_dec : EqDecision exn.
Proof. solve_decision. Defined.

(** [bases e]: the direct base classes written in the [class] statement
    ([class DecodeError(InitializeError, ValueError)]); builtin classes derive
    from [Exception], which is not modelled, apart from [UnicodeDecodeError],
    a [ValueError]. *)
Definition bases (e : exn) : list exn :=
  match e with
  | InitializeError => [Error]
  | DecodeError => [InitializeError; ValueError]
  | UnicodeDecodeError => [ValueError]
  | _ => []
  end.

(** [isinstance_exn e c]: an exception of class [e] is caught by
    [except c]. The hierarchy has depth two. *)
Definition isinstance_exn (e c : exn) : bool :=
  bool_decide (e = c)
  || existsb (fun b => bool_decide (b = c)
                       || existsb (fun b' => bool_decide (b' = c)) (bases b))
             (bases e).

(** The error taxonomy of the module's documentation: the typed errors a
    caller is told to expect. *)
Definition typed_error (e : exn) : bool :=
  isinstance_exn e Error || isinstance_exn e ValueError
  || isinstance_exn e TypeError.

Inductive result (A : Type) : Type :=
| Ok (a : A)
| Raise (e : exn).
Arguments Ok {A} a.
Arguments Raise {A} e.

Definition bind {A B} (r : result A) (k : A -> result B) : result B :=
  match r with
  | Ok a => k a
  | Raise e => Raise e
  end.

(** The statement [x = c] followed by [k], where the call [c] may raise. *)
Notation "x <- c ;; k" := (bind c (fun x => k))
  (at level 100, c at next level, right associativity).

(** [try r except c: h]. *)
Definition try_except {A} (r : result A) (c : exn) (h : exn -> result A)
  : result A :=
  match r with
  | Ok a => Ok a
  | Raise e => if isinstance_exn e c then h e else Raise e
  end.

Definition is_ok {A} (r : result A) : bool :=
  match r with Ok _ => true | Raise _ => false end.

(** *** Characters and strings *)

Definition code (c : ascii) : Z := Z.of_N (N_of_ascii c).

Definition chr (n : Z) : ascii := ascii_of_N (Z.to_N n).

Definition in_range (lo hi c : ascii) : bool :=
  (code lo <=? code c) && (code c <=? code hi).

(** [c.isdigit()] on a byte string. *)
Definition isdigit (c : ascii) : bool := in_range "0" "9" c.

(** [c.isspace()]: tab, line feed, vertical tab, form feed, carriage return
    and space. *)
Definition isspace (c : ascii) : bool :=
  ((9 <=? code c) && (code c <=? 13)) || (code c =? 32).

Definition isupper (c : ascii) : bool := in_range "A" "Z" c.
Definition islower (c : ascii) : bool := in_range "a" "z" c.
Definition isalnum (c : ascii) : bool := isdigit c || isupper c || islower c.

Definition lower_char (c : ascii) : ascii :=
  if isupper c then chr (code c + 32) else c.

(** [s.lower()]. *)
Fixpoint lower (s : string) : string :=
  match s with
  | EmptyString => EmptyString
  | String c r => String (lower_char c) (lower r)
  end.

Definition is_empty (s : string) : bool :=
  match s with EmptyString => true | String _ _ => false end.

(** [s.lstrip()], [s.rstrip()], [s.strip()]. *)
Fixpoint lstrip (s : string) : string :=
  match s with
  | EmptyString => EmptyString
  | String c r => if isspace c then lstrip r else s
  end.

Fixpoint rstrip (s : string) : string :=
  match s with
  | EmptyString => EmptyString
  | String c r =>
      let r' := rstrip r in
      if is_empty r' && isspace c then EmptyString else String c r'
  end.

Definition strip (s : string) : string := rstrip (lstrip s).

(** [s.lstrip(c)] for a one-character set. *)
Fixpoint lstrip_char (c : ascii) (s : string) : string :=
  match s with
  | EmptyString => EmptyString
  | String a r => if bool_decide (a = c) then lstrip_char c r else s
  end.

(** [s[-1]]; [None] stands for the [IndexError] of the empty string. *)
Fixpoint last_char (s : string) : option ascii :=
  match s with
  | EmptyString => None
  | String c EmptyString => Some c
  | String _ r => last_char r
  end.

(** [s[:-1]]. *)
Fixpoint drop_last (s : string) : string :=
  match s with
  | EmptyString => EmptyString
  | String _ EmptyString => EmptyString
  | String c r => String c (drop_last r)
  end.

(** [s[n:]]. *)
Fixpoint drop (n : nat) (s : string) : string :=
  match n, s with
  | O, _ => s
  | S n', String _ r => drop n' r
  | S _, EmptyString => EmptyString
  end.

(** [s[:n]]. *)
Fixpoint take (n : nat) (s : string) : string :=
  match n, s with
  | S n', String c r => String c (take n' r)
  | _, _ => EmptyString
  end.

(** [s.startswith(p)]. *)
Fixpoint startswith (s p : string) {struct p} : bool :=
  match p with
  | EmptyString => true
  | String b p' =>
      match s with
      | String a s' => bool_decide (a = b) && startswith s' p'
      | EmptyString => false
      end
  end.

(** [c in s]. *)
Fixpoint contains (c : ascii) (s : string) : bool :=
  match s with
  | EmptyString => false
  | String a r => bool_decide (a = c) || contains c r
  end.

(** [s.split(sep)] for a one-character separator: always at least one
    field. *)
Fixpoint split (sep : ascii) (s : string) : list string :=
  match s with
  | EmptyString => [EmptyString]
  | String c r =>
      if bool_decide (c = sep) then EmptyString :: split sep r
      else match split sep r with
           | f :: fs => String c f :: fs
           | [] => [String c EmptyString]
           end
  end.

(** [sep.join(fields)]. *)
Fixpoint join (sep : string) (fields : list string) : string :=
  match fields with
  | [] => EmptyString
  | [f] => f
  | f :: fs => f +:+ sep +:+ join sep fs
  end.

(** The longest prefix of [s] in the set [p], and what follows it. *)
Fixpoint take_while (p : ascii -> bool) (s : string) : string :=
  match s with
  | String a r => if p a then String a (take_while p r) else EmptyString
  | EmptyString => EmptyString
  end.

Fixpoint drop_while (p : ascii -> bool) (s : string) : string :=
  match s with
  | String a r => if p a then drop_while p r else s
  | EmptyString => EmptyString
  end.

(** [posixpath.basename(p)]: what follows the last slash. *)
Definition basename (p : string) : string :=
  List.last (split "/" p) EmptyString.

(** *** [str(n)] and [int(s)] on integers *)

(** [str(n)], also the format [%d]: decimal digits, a minus sign for a negative
    number, no leading zero. *)
Definition str_int (n : Z) : string := NilEmpty.string_of_int (Z.to_int n).

(** The digits of [int(s)]: one decimal digit at least, nothing else. *)
Definition int_digits (s : string) : option Z :=
  if is_empty s then None
  else Z.of_uint <$> NilEmpty.uint_of_string s.

(** [int(s)] for a byte string, as Python 2.7 reads it: blanks around the
    literal are skipped, then an optional sign, blanks again, and the digits.
    [None] stands for the [ValueError] of a malformed literal. *)
Definition int_of_str (s : string) : option Z :=
  match strip s with
  | String c r =>
      if bool_decide (c = "+"%char) then int_digits (lstrip r)
      else if bool_decide (c = "-"%char) then Z.opp <$> int_digits (lstrip r)
      else int_digits (String c r)
  | EmptyString => None
  end.

Definition int_str (s : string) : result Z :=
  match int_of_str s with
  | Some n => Ok n
  | None => Raise ValueError
  end.

(** *** Floats and mixed arithmetic

    A Python [float] is an IEEE 754 binary64 number: the kernel's [float].
    The conversions below are the correctly rounded ones of CPython. *)

Definition prec : Z := 53.
Definition emax : Z := 1024.

(** [float(n)] for an integer, also the implicit conversion of an [int]
    operand next to a [float]: round to nearest even, [OverflowError] when the
    integer is too large. *)
Definition float_of_int (n : Z) : result float :=
  let f := SF2Prim (binary_normalize prec emax n 0 false) in
  if PrimFloat.is_infinity f then Raise OverflowError else Ok f.

(** An exact integer as a numerator or denominator of [SFdiv]. *)
Definition exact (n : Z) : spec_float :=
  match n with
  | Z.pos p => S754_finite false p 0
  | Z.neg p => S754_finite true p 0
  | Z0 => S754_zero false
  end.

(** [float(s)] for a text of digits and dots (what [ByteSize.REGEX] lets
    through as a coefficient): exactly one dot and one digit at least, the
    decimal fraction rounded to the nearest float. [None] stands for the
    [ValueError] of a malformed literal. *)
Definition float_of_decimal (s : string) : option float :=
  match split "." s with
  | [ip; fp] =>
      n ← int_digits (ip +:+ fp);
      Some (SF2Prim (SFdiv prec emax (exact n)
                       (exact (10 ^ Z.of_nat (String.length fp)))))
  | _ => None
  end.

(** [int(f)]: truncation towards zero. *)
Definition int_of_float (f : float) : result Z :=
  match Prim2SF f with
  | S754_zero _ => Ok 0
  | S754_finite s m e =>
      let a := if 0 <=? e then Z.pos m * 2 ^ e else Z.pos m / 2 ^ (- e) in
      Ok (if s then - a else a)
  | S754_infinity _ => Raise OverflowError
  | S754_nan => Raise ValueError
  end.


(** A Python number: [int] (or [long]) and [float]. *)
Inductive num : Type :=
| Int (n : Z)
| Float (f : float).

Definition to_float (x : num) : result float :=
  match x with
  | Int n => float_of_int n
  | Float f => Ok f
  end.

(** A binary operator on numbers: exact on two integers, otherwise both
    operands are converted to [float]. *)
Definition arith (zop : Z -> Z -> Z) (fop : float -> float -> float)
    (x y : num) : result num :=
  match x, y with
  | Int a, Int b => Ok (Int (zop a b))
  | _, _ =>
      a <- to_float x ;;
      b <- to_float y ;;
      Ok (Float (fop a b))
  end.

Definition add : num -> num -> result num := arith Z.add PrimFloat.add.
Definition sub : num -> num -> result num := arith Z.sub PrimFloat.sub.
Definition mul : num -> num -> result num := arith Z.mul PrimFloat.mul.


(** [int(x)]. *)
Definition int (x : num) : result Z :=
  match x with
  | Int n => Ok n
  | Float f => int_of_float f
  end.


(** *** UTF-8

    A [unicode] text is a list of code points; [encode] and [decode] are
    the methods [encode] and [decode] of Python for the codec utf-8. *)

Definition unicode : Type := list Z.

(** A Unicode scalar value: a code point that is not a surrogate. *)
Definition scalar_value (cp : Z) : Prop :=
  (0 <= cp < 55296) \/ (57344 <= cp < 1114112).

Definition cont_byte (n : Z) : ascii := chr (128 + n mod 64).

Definition encode_cp (cp : Z) (k : string) : string :=
  if cp <? 128 then String (chr cp) k
  else if cp <? 2048 then
    String (chr (192 + cp / 64)) (String (cont_byte cp) k)
  else if cp <? 65536 then
    String (chr (224 + cp / 4096))
      (String (cont_byte (cp / 64)) (String (cont_byte cp) k))
  else
    String (chr (240 + cp / 262144))
      (String (cont_byte (cp / 4096))
         (String (cont_byte (cp / 64)) (String (cont_byte cp) k))).

Definition encode (u : unicode) : string :=
  fold_right encode_cp EmptyString u.

Definition is_cont (c : ascii) : bool := (128 <=? code c) && (code c <? 192).

Definition low_bits (c : ascii) : Z := code c - 128.

(** The decoder refuses a stray continuation byte, a truncated sequence, an
    overlong form and a code point above U+10FFFF. *)
Fixpoint decode (s : string) : result unicode :=
  match s with
  | EmptyString => Ok []
  | String c0 r0 =>
      let b0 := code c0 in
      if b0 <? 128 then (u <- decode r0 ;; Ok (b0 :: u))
      else if b0 <? 194 then Raise UnicodeDecodeError
      else if b0 <? 224 then
        match r0 with
        | String c1 r1 =>
            if is_cont c1 then
              (u <- decode r1 ;; Ok ((b0 - 192) * 64 + low_bits c1 :: u))
            else Raise UnicodeDecodeError
        | _ => Raise UnicodeDecodeError
        end
      else if b0 <? 240 then
        match r0 with
        | String c1 (String c2 r2) =>
            let cp := (b0 - 224) * 4096 + low_bits c1 * 64 + low_bits c2 in
            if is_cont c1 && is_cont c2 && (2048 <=? cp) then
              (u <- decode r2 ;; Ok (cp :: u))
            else Raise UnicodeDecodeError
        | _ => Raise UnicodeDecodeError
        end
      else if b0 <? 245 then
        match r0 with
        | String c1 (String c2 (String c3 r3)) =>
            let cp := (b0 - 240) * 262144 + low_bits c1 * 4096
                      + low_bits c2 * 64 + low_bits c3 in
            if is_cont c1 && is_cont c2 && is_cont c3
               && (65536 <=? cp) && (cp <? 1114112) then
              (u <- decode r3 ;; Ok (cp :: u))
            else Raise UnicodeDecodeError
        | _ => Raise UnicodeDecodeError
        end
      else Raise UnicodeDecodeError
  end.

(** *** Division, indexing and slicing *)

(** Two builtin classes outside [exn]: what a division by zero and an index
    out of range raise. *)
Inductive builtin_exn : Set :=
| ZeroDivisionError
| IndexError.

(** The outcome of a method that can raise one of them besides the classes
    of [exn]. *)
Inductive outcome (A : Type) : Type :=
| Returned (a : A)
| Raised (e : exn)
| RaisedBuiltin (b : builtin_exn).
Arguments Returned {A} a.
Arguments Raised {A} e.
Arguments RaisedBuiltin {A} b.

Definition of_result {A} (r : result A) : outcome A :=
  match r with
  | Ok a => Returned a
  | Raise e => Raised e
  end.

(** [a // b] on integers: the quotient rounded towards minus infinity;
    [None] stands for [ZeroDivisionError]. *)
Definition floordiv (a b : Z) : option Z :=
  if b =? 0 then None else Some (a / b).

(** [s.split(sep, maxsplit)] for a one-character separator and
    [maxsplit >= 0]: at most [maxsplit] cuts, the rest of the text is the
    last field. *)
Fixpoint split_max (sep : ascii) (s : string) (maxsplit : nat)
  : list string :=
  match s with
  | EmptyString => [EmptyString]
  | String c r =>
      match maxsplit with
      | O => [s]
      | S m =>
          if bool_decide (c = sep) then EmptyString :: split_max sep r m
          else match split_max sep r maxsplit with
               | f :: fs => String c f :: fs
               | [] => [String c EmptyString]
               end
      end
  end.

(** [list(filter(None, fields))]: the fields that are not empty. *)
Definition filter_None (fields : list string) : list string :=
  List.filter (fun f => negb (is_empty f)) fields.

(** [c * n]. *)
Fixpoint repeat_char (c : ascii) (n : nat) : string :=
  match n with
  | O => EmptyString
  | S n' => String c (repeat_char c n')
  end.

(** [s.rstrip(c)] for a one-character set. *)
Fixpoint rstrip_char (c : ascii) (s : string) : string :=
  match s with
  | EmptyString => EmptyString
  | String a r =>
      let r' := rstrip_char c r in
      if is_empty r' && bool_decide (a = c) then EmptyString
      else String a r'
  end.

(** [p[:p.rfind(c) + 1]]: the text up to the last [c], which it includes;
    empty when there is none. *)
Fixpoint upto_last (c : ascii) (p : string) : string :=
  match p with
  | EmptyString => EmptyString
  | String a r =>
      if contains c p then String a (upto_last c r) else EmptyString
  end.

(** [posixpath.dirname(p)]: the head up to the last slash, without its
    trailing slashes unless it is made of slashes only. *)
Definition dirname (p : string) : string :=
  let head := upto_last "/" p in
  if negb (is_empty head)
     && negb (bool_decide (head = repeat_char "/" (String.length head)))
  then rstrip_char "/" head
  else head.

(** [s.encode("hex")]: two lower-case hexadecimal digits for each byte. *)
Definition hex_digit (n : Z) : ascii :=
  if n <? 10 then chr (48 + n) else chr (87 + n).

Fixpoint hex (s : string) : string :=
  match s with
  | EmptyString => EmptyString
  | String c r =>
      String (hex_digit (code c / 16))
        (String (hex_digit (code c mod 16)) (hex r))
  end.

(** [a < b] on byte strings and on [unicode] texts: the order of the first
    position where they differ, a proper prefix coming first. *)
Fixpoint lt_str (a b : string) : bool :=
  match a, b with
  | _, EmptyString => false
  | EmptyString, String _ _ => true
  | String x a', String y b' =>
      (code x <? code y) || (bool_decide (x = y) && lt_str a' b')
  end.

Fixpoint lt_unicode (a b : unicode) : bool :=
  match a, b with
  | _, [] => false
  | [], _ :: _ => true
  | x :: a', y :: b' => (x <? y) || ((x =? y) && lt_unicode a' b')
  end.

(** A [unicode] literal written with ASCII characters, and [unicode(n)] for
    an integer: the characters of [str(n)] as code points. *)
Definition unicode_literal (s : string) : unicode :=
  List.map code (list_ascii_of_string s).

Definition unicode_int (n : Z) : unicode := unicode_literal (str_int n).

(** *** True division and the format [%.1f] *)

(** [a / b] on two integers under [from __future__ import division], for a
    positive [b]: the quotient, correctly rounded to a float;
    [OverflowError] when it is too large for one. *)
Definition truediv (a b : Z) : result float :=
  let f := SF2Prim (SFdiv prec emax (exact a) (exact b)) in
  if PrimFloat.is_infinity f then Raise OverflowError else Ok f.

(** [round_half_even (n / d)] for a positive [d]. *)
Definition round_half_even (n d : Z) : Z :=
  let q := n / d in
  let r := n mod d in
  if (d <? 2 * r) || ((d =? 2 * r) && Z.odd q) then q + 1 else q.

(** ["%.1f" % f]: the decimal text with one digit after the point which is
    nearest to the exact value of the float, ties going to the even
    digit. *)
Definition format_1f (f : float) : string :=
  match Prim2SF f with
  | S754_finite s m e =>
      let tenths :=
        if 0 <=? e then Z.pos m * 2 ^ e * 10
        else round_half_even (Z.pos m * 10) (2 ^ (- e)) in
      (if s then "-" else EmptyString)
      +:+ str_int (tenths / 10) +:+ "." +:+ str_int (tenths mod 10)
  | S754_zero s => if s then "-0.0" else "0.0"
  | S754_infinity s => if s then "-inf" else "inf"
  | S754_nan => "nan"
  end.

End Py.

(** ** The [re] engine

    Python's [re] is a backtracking matcher: a quantifier is greedy and gives
    back what it took, one repetition at a time, when what follows fails.
    [exec r s g k] matches [r] at the front of [s] and hands the rest of the
    text and the groups captured so far to the continuation [k]; the first
    success is the result. *)

Module Re.

Inductive regex : Type :=
| Class (p : ascii -> bool)        (* one character of a set *)
| Seq (r1 r2 : regex)
| Star (r : regex)                 (* r* *)
| Opt (r : regex)                  (* r? *)
| Group (n : nat) (r : regex)      (* the n-th parenthesis *)
| Eol.                             (* $ without MULTILINE *)

Definition Plus (r : regex) : regex := Seq r (Star r).

Definition Lit (c : ascii) : regex := Class (fun a => bool_decide (a = c)).

(** A character set under [re.I]. *)
Definition ignorecase (p : ascii -> bool) : ascii -> bool :=
  fun a => p (Py.lower_char a).

Abbreviation groups := (gmap nat string).

Definition cont : Type := string -> groups -> option groups.

(** What a match that started at [s] and stopped at [rest] has consumed. *)
Definition consumed (s rest : string) : string :=
  Py.take (String.length s - String.length rest) s.

Definition newline : ascii := "010"%char.

(** [$] matches at the end of the text and just before a newline that ends
    it. *)
Definition at_eol (s : string) : bool :=
  match s with
  | EmptyString => true
  | String c EmptyString => bool_decide (c = newline)
  | _ => false
  end.

(** The loop of a greedy star: one more repetition (which must consume
    something), then the loop again; when that fails, what follows the star.
    [fuel] bounds the repetitions by the length of the text. *)
Fixpoint star_loop (step : string -> groups -> cont -> option groups)
    (k : cont) (fuel : nat) (s : string) (g : groups) : option groups :=
  match fuel with
  | O => k s g
  | S fuel' =>
      match
        step s g (fun s' g' =>
          if (String.length s' <? String.length s)%nat
          then star_loop step k fuel' s' g' else None)
      with
      | Some g' => Some g'
      | None => k s g
      end
  end.

Fixpoint exec (r : regex) (s : string) (g : groups) (k : cont)
  : option groups :=
  match r with
  | Class p =>
      match s with
      | String a rest => if p a then k rest g else None
      | EmptyString => None
      end
  | Seq r1 r2 => exec r1 s g (fun s' g' => exec r2 s' g' k)
  | Star r1 => star_loop (exec r1) k (String.length s) s g
  | Opt r1 =>
      match exec r1 s g k with
      | Some g' => Some g'
      | None => k s g
      end
  | Group n r1 =>
      exec r1 s g (fun s' g' => k s' (<[n := consumed s s']> g'))
  | Eol => if at_eol s then k s g else None
  end.

(** The star of a character set, unfolded: take the character if it is in
    the set and go on, and fall back on what follows the star. *)
Fixpoint star_class (p : ascii -> bool) (k : cont) (s : string) (g : groups)
  : option groups :=
  match s with
  | String a rest =>
      if p a then
        match star_class p k rest g with
        | Some g' => Some g'
        | None => k s g
        end
      else k s g
  | EmptyString => k s g
  end.

(** A continuation that fails on every text that starts in the set [p]. *)
Definition rejects (p : ascii -> bool) (k : cont) : Prop :=
  forall a r g, p a = true -> k (String a r) g = None.

(** [re.compile(r).match(s)]: a match anchored at the start of the text;
    the result holds the groups. *)
Definition match_ (r : regex) (s : string) : option groups :=
  exec r s ∅ (fun _ g => Some g).

(** [m.group(n)] for a group that took part in the match. *)
Definition group (m : groups) (n : nat) : string := default EmptyString (m !! n).

End Re.

(** ** [grr_response_core.lib.utils] *)

Module utils.

(** One pass over the segments of a path: an empty segment and [.] are
    dropped, [..] drops the segment before it, if there is one. [kept] holds
    the segments kept so far, last first. *)
Fixpoint collapse (segments kept : list string) : list string :=
  match segments with
  | [] => rev kept
  | seg :: rest =>
      if bool_decide (seg = EmptyString) || bool_decide (seg = ".")
      then collapse rest kept
      else if bool_decide (seg = "..") then collapse rest (tail kept)
      else collapse rest (seg :: kept)
  end.

(** Modelled from the spec: [utils.NormalizePath] is called by
    [RDFURN.ParseFromString] but its module is not among the sources. The
    spec asks for a normalized absolute path string with no empty path
    segments and no ./.. collapsing ambiguity, and for normalization to be a
    no-op on a normalized path: the result is a slash followed by the
    segments that remain, joined by slashes. *)
Definition NormalizePath (path : string) : string :=
  String "/" (Py.join "/" (collapse (Py.split "/" path) [])).

End utils.

(** ** [grr_response_core.lib.rdfvalue] *)

Module rdfvalue.
Import Py.

(** Factor to convert from seconds to microseconds. *)
Definition MICROSECONDS : Z := 1000000.

(** The value classes. *)
Inductive kind : Set :=
| RDFBytes
| RDFString
| RDFInteger
| RDFBool
| RDFDatetime
| RDFDatetimeSeconds
| Duration
| ByteSize
| RDFURN
| SessionID.

#[global] Instance kind_eq_dec : EqDecision kind.
Proof. solve_decision. Defined.

(** [isinstance(o, RDFInteger)], [isinstance(o, RDFDatetime)] and
    [isinstance(o, RDFURN)] from the class of [o]. *)
Definition is_RDFInteger (k : kind) : bool :=
  match k with
  | RDFInteger | RDFBool | RDFDatetime | RDFDatetimeSeconds | Duration
  | ByteSize => true
  | _ => false
  end.

Definition is_RDFDatetime (k : kind) : bool :=
  match k with
  | RDFDatetime | RDFDatetimeSeconds => true
  | _ => false
  end.

Definition is_RDFURN (k : kind) : bool :=
  match k with
  | RDFURN | SessionID => true
  | _ => false
  end.

(** The payload: [_value] of the byte, text and integer classes,
    [_string_urn] of the path classes. Integer payloads are modelled in the
    integers, the domain the classes document. *)
Inductive payload : Type :=
| Bytes (s : string)
| Text (u : unicode)
| Number (n : Z)
| Path (p : string).

#[global] Instance payload_eq_dec : EqDecision payload.
Proof. solve_decision. Defined.

(** What [_age] holds: a raw number (the class attribute [_age = 0], or an
    integer given as [age]) or an instance of a class with an integer
    payload. *)
Inductive age_t : Type :=
| RawAge (n : Z)
| InstanceAge (k : kind) (n : Z).

Record value : Type := Value {
  kind_of : kind;
  payload_of : payload;
  _age : age_t;
  dirty : bool
}.

(** An instance of an integer class. *)
Definition number (k : kind) (n : Z) (a : age_t) (d : bool) : value :=
  {| kind_of := k; payload_of := Number n; _age := a; dirty := d |}.

Definition set_payload (self : value) (p : payload) : value :=
  {| kind_of := kind_of self; payload_of := p; _age := _age self;
     dirty := dirty self |}.

Definition set_age (self : value) (a : age_t) : value :=
  {| kind_of := kind_of self; payload_of := payload_of self; _age := a;
     dirty := dirty self |}.

(** The integer payload [self._value] and the path [self._string_urn]. *)
Definition _value (self : value) : Z :=
  match payload_of self with Number n => n | _ => 0 end.

Definition _string_urn (self : value) : string :=
  match payload_of self with Path p => p | _ => EmptyString end.

(** What the process supplies: [time.time()], and the path of the identifier
    that [SessionID()] builds from scratch with [utils.PRNG] and
    [utils.JoinPath], neither of which is among the sources. *)
Record env : Type := Env {
  time_time : float;
  scratch_session : string
}.

(** A Python object given as an argument: a number, a byte string, or a
    value of this module. *)
Inductive pyobj : Type :=
| ONum (x : num)
| OStr (s : string)
| OValue (o : value).

(** *** [RDFValue] *)

(** [RDFValue.__init__] as the constructors of the classes reach it, for
    the class [k] and the payload [p] the constructor of the class ends with:
    [if age is None: age = RDFDatetime(age=0)], then [self._age = age].
    [RDFDatetime(age=0)] has no initializer, so its payload is 0. (The
    re-parsing of an initializer of the very class of [self] is reached by
    none of the constructor calls below.) *)
Definition RDFValue___init__ (k : kind) (p : payload) (age : option age_t)
  : value :=
  {| kind_of := k; payload_of := p;
     _age := match age with
             | None => InstanceAge RDFDatetime 0
             | Some a => a
             end;
     dirty := false |}.

(** The property [age]: an [_age] that is not an [RDFDatetime] is replaced
    by [RDFDatetime(self._age, age=0)], whose payload is [int(self._age)];
    the result is the instance and what it returns, the payload of the
    [RDFDatetime]. *)
Definition age (self : value) : value * Z :=
  match _age self with
  | InstanceAge RDFDatetime n => (self, n)
  | InstanceAge _ n | RawAge n => (set_age self (InstanceAge RDFDatetime n), n)
  end.

(** *** Wire form of the byte, text and integer classes

    A record whose payload has not the shape of its class stands for no
    object of the program; the serializers answer [TypeError] on it. *)

Definition RDFBytes_ParseFromString (s : string) : result payload :=
  Ok (Bytes s).

Definition RDFBytes_SerializeToString (self : value) : result string :=
  match payload_of self with
  | Bytes s => Ok s
  | _ => Raise TypeError
  end.

Definition RDFString_ParseFromString (s : string) : result payload :=
  u <- decode s ;; Ok (Text u).

Definition RDFString_SerializeToString (self : value) : result string :=
  match payload_of self with
  | Text u => Ok (encode u)
  | _ => Raise TypeError
  end.

Definition RDFInteger_SerializeToString (self : value) : result string :=
  Ok (str_int (_value self)).

(** [self._value = 0], then [int(string)] for a non-empty text; the handler
    is for [TypeError]. *)
Definition RDFInteger_ParseFromString (s : string) : result payload :=
  if is_empty s then Ok (Number 0)
  else
    n <- try_except (int_str s) TypeError (fun _ => Raise DecodeError) ;;
    Ok (Number n).

(** *** [Duration] *)

Definition Duration_DIVIDERS : list (string * Z) :=
  [("w", 60 * 60 * 24 * 7);
   ("d", 60 * 60 * 24);
   ("h", 60 * 60);
   ("m", 60);
   ("s", 1)].

(** [DIVIDERS[key]]; [None] stands for [KeyError]. *)
Fixpoint lookup_divider (key : string) (items : list (string * Z))
  : option Z :=
  match items with
  | [] => None
  | (label, divider) :: rest =>
      if bool_decide (label = key) then Some divider
      else lookup_divider key rest
  end.

(** The loop of [Duration.__str__] over the items still to visit; [None] is
    the [None] the method returns when the loop ends. *)
Fixpoint Duration_scan (time_secs : Z) (items : list (string * Z))
  : option string :=
  match items with
  | [] => None
  | (label, divider) :: rest =>
      if time_secs mod divider =? 0
      then Some (str_int (time_secs / divider) +:+ label)
      else Duration_scan time_secs rest
  end.

Definition Duration___str__ (self : value) : option string :=
  Duration_scan (_value self) Duration_DIVIDERS.

(** [str(self)] raises [TypeError] when [__str__] returns [None]. *)
Definition Duration_SerializeToString (self : value) : result string :=
  match Duration___str__ self with
  | Some s => Ok s
  | None => Raise TypeError
  end.

Definition Duration_ParseFromHumanReadable (self : value)
    (timestring : string) : result payload :=
  match last_char timestring with
  | None => Ok (payload_of self)
  | Some c =>
      suffix <-
        (if isdigit c then Ok (1, timestring)
         else
           match lookup_divider (String c EmptyString) Duration_DIVIDERS with
           | Some multiplicator => Ok (multiplicator, drop_last timestring)
           | None => Raise RuntimeError
           end) ;;
      let '(multiplicator, timestring) := suffix in
      n <- try_except (int_str timestring) ValueError
             (fun _ => Raise InitializeError) ;;
      Ok (Number (n * multiplicator))
  end.

Definition Duration_ParseFromString (self : value) (s : string)
  : result payload :=
  Duration_ParseFromHumanReadable self s.

(** *** [ByteSize] *)

Definition ByteSize_DIVIDERS : gmap string Z :=
  {[ EmptyString := 1;
     "k" := 1000;
     "m" := 1000 ^ 2;
     "g" := 1000 ^ 3;
     "ki" := 1024;
     "mi" := 1024 ^ 2;
     "gi" := 1024 ^ 3 ]}.

Definition coefficient_char (c : ascii) : bool :=
  isdigit c || bool_decide (c = "."%char).

Definition multiplier_char (c : ascii) : bool :=
  bool_decide (c = "k"%char) || bool_decide (c = "m"%char)
  || bool_decide (c = "g"%char) || bool_decide (c = "i"%char).

(** [ByteSize.REGEX], compiled with [re.I]: group 1 is one or more of
    [0-9.], group 2 is any number of [kmgi], then an optional [b] and the
    end of the text. *)
Definition ByteSize_REGEX : Re.regex :=
  Re.Seq (Re.Group 1 (Re.Plus (Re.Class (Re.ignorecase coefficient_char))))
    (Re.Seq (Re.Group 2 (Re.Star (Re.Class (Re.ignorecase multiplier_char))))
       (Re.Seq (Re.Opt (Re.Class (Re.ignorecase (fun c => bool_decide (c = "b"%char)))))
          Re.Eol)).

Definition ByteSize_ParseFromHumanReadable (self : value) (s : string)
  : result payload :=
  if is_empty s then Ok (payload_of self)
  else
    match Re.match_ ByteSize_REGEX (lower (strip s)) with
    | None => Raise DecodeError
    | Some m =>
        match ByteSize_DIVIDERS !! Re.group m 2 with
        | None => Raise DecodeError
        | Some multiplier =>
            if multiplier =? 0 then Raise DecodeError
            else
              let value := Re.group m 1 in
              value <-
                (if contains "." value then
                   match float_of_decimal value with
                   | Some f => Ok (Float f)
                   | None => Raise ValueError
                   end
                 else (n <- int_str value ;; Ok (Int n))) ;;
              product <- mul value (Int multiplier) ;;
              n <- int product ;;
              Ok (Number n)
        end
    end.

(** *** [RDFURN] *)

Definition RDFURN_ParseFromString (initializer : string) : result payload :=
  let initializer :=
    if startswith initializer "aff4:/" then drop 5 initializer
    else initializer in
  Ok (Path (utils.NormalizePath initializer)).

Definition RDFURN___str__ (self : value) : string :=
  "aff4:" +:+ _string_urn self.

Definition RDFURN_SerializeToString (self : value) : result string :=
  Ok (RDFURN___str__ self).

Definition RDFURN_Path (self : value) : string := _string_urn self.

Definition RDFURN_Basename (self : value) : string :=
  basename (RDFURN_Path self).

(** [RDFURN.__init__] for the class [k] (the class itself or [SessionID]):
    another path value is copied as it is; any other initializer goes
    through [ParseFromString], which calls [startswith] on it. *)
Definition RDFURN___init__ (k : kind) (initializer : option pyobj)
    (age : option age_t) : result value :=
  match initializer with
  | Some (OValue o) =>
      if is_RDFURN (kind_of o)
      then Ok (RDFValue___init__ k (Path (RDFURN_Path o)) age)
      else Raise AttributeError
  | Some (OStr s) =>
      p <- RDFURN_ParseFromString s ;; Ok (RDFValue___init__ k p age)
  | Some (ONum _) => Raise AttributeError
  | None => Ok (RDFValue___init__ k (Path EmptyString) age)
  end.

(** *** [SessionID] *)

Definition dash_alnum (c : ascii) : bool :=
  bool_decide (c = "-"%char) || isalnum c.

(** [allowed_re] of [ValidateID]: one or more of [-0-9a-zA-Z], a colon, one
    or more of [0-9a-zA-Z], then an optional group of a colon and one or
    more of [0-9a-zA-Z], and the end of the text. *)
Definition allowed_re : Re.regex :=
  Re.Seq (Re.Plus (Re.Class dash_alnum))
    (Re.Seq (Re.Lit ":")
       (Re.Seq (Re.Plus (Re.Class isalnum))
          (Re.Seq
             (Re.Opt (Re.Group 1
                (Re.Seq (Re.Lit ":") (Re.Plus (Re.Class isalnum)))))
             Re.Eol))).

Definition SessionID_ValidateID (id_str : string) : result unit :=
  match Re.match_ allowed_re id_str with
  | Some _ => Ok tt
  | None => Raise ValueError
  end.

(** [SessionID.__init__] with an initializer: only an initializer that is a
    path value is validated. Without one the identifier is built from
    scratch; the environment gives its path. *)
Definition SessionID___init__ (e : env) (initializer : option pyobj)
    (age : option age_t) : result value :=
  initializer <-
    match initializer with
    | None =>
        Ok (Some (OValue (RDFValue___init__ RDFURN
                            (Path (scratch_session e)) None)))
    | Some (OValue o) =>
        if is_RDFURN (kind_of o) then
          (_ <- try_except (SessionID_ValidateID (RDFURN_Basename o))
                  ValueError (fun _ => Raise InitializeError) ;;
           Ok initializer)
        else Ok initializer
    | _ => Ok initializer
    end ;;
  RDFURN___init__ SessionID initializer age.

(** *** [RDFDatetime] and [RDFDatetimeSeconds] *)

Definition converter (k : kind) : Z :=
  match k with
  | RDFDatetimeSeconds => 1
  | _ => MICROSECONDS
  end.

(** [RDFDatetime.__init__] for the class [k]: the payload is 0 without an
    initializer and [int(initializer)] for a number or an integer value. *)
Definition RDFDatetime___init__ (k : kind) (initializer : option pyobj)
    (age : option age_t) : result value :=
  match initializer with
  | None => Ok (RDFValue___init__ k (Number 0) age)
  | Some (ONum x) =>
      n <- int x ;; Ok (RDFValue___init__ k (Number n) age)
  | Some (OValue o) =>
      if is_RDFInteger (kind_of o)
      then Ok (RDFValue___init__ k (Number (_value o)) age)
      else Raise InitializeError
  | Some (OStr _) => Raise InitializeError
  end.

(** [cls(int(time.time() * cls.converter))]. *)
Definition RDFDatetime_Now (k : kind) (e : env) : result value :=
  x <- mul (Float (time_time e)) (Int (converter k)) ;;
  n <- int x ;;
  RDFDatetime___init__ k (Some (ONum (Int n))) None.

Definition AsSecondsSinceEpoch (self : value) : Z :=
  _value self / converter (kind_of self).

(** [Duration.__init__] on an integer or without initializer. *)
Definition Duration___init__ (initializer : option Z) (age : option age_t)
  : value :=
  RDFValue___init__ Duration (Number (default 0 initializer)) age.

(** [Duration.__mul__]: [self.__class__(int(self._value * other))] for a
    number; [None] is [NotImplemented]. *)
Definition Duration___mul__ (self : value) (other : pyobj)
  : result (option value) :=
  match other with
  | ONum x =>
      product <- mul (Int (_value self)) x ;;
      n <- int product ;;
      Ok (Some (Duration___init__ (Some n) None))
  | _ => Ok None
  end.

(** [Duration.__rmul__]: [self.__mul__(other)]. *)
Definition Duration___rmul__ (self : value) (other : pyobj)
  : result (option value) :=
  Duration___mul__ self other.

(** The reflected operators [Duration] inherits from [RDFInteger], reached
    when the left operand is a plain number: [self._value + other] and
    [other - self._value]. *)
Definition RDFInteger___radd__ (self : value) (other : num) : result num :=
  add (Int (_value self)) other.

Definition RDFInteger___rsub__ (self : value) (other : num) : result num :=
  sub other (Int (_value self)).

(** [self._value (op) other * self.converter] for an operand that is a
    number or a [Duration]: the product is a number in the first case and a
    [Duration] in the second, which answers the operator through its
    reflected method. *)
Definition scaled (self : value) (other : pyobj)
    (op : num -> num -> result num) (rop : value -> num -> result num)
  : result num :=
  match other with
  | ONum x =>
      y <- mul x (Int (converter (kind_of self))) ;;
      op (Int (_value self)) y
  | OValue d =>
      y <- Duration___mul__ d (ONum (Int (converter (kind_of self)))) ;;
      match y with
      | Some y => rop y (Int (_value self))
      | None => Raise TypeError
      end
  | OStr _ => Raise TypeError
  end.

(** [isinstance(other, (int, long, float, Duration))]. *)
Definition number_or_duration (other : pyobj) : bool :=
  match other with
  | ONum _ => true
  | OValue o => bool_decide (kind_of o = Duration)
  | OStr _ => false
  end.


(** The arithmetic methods; [Ok None] is [NotImplemented]. *)
Definition RDFDatetime___add__ (self : value) (other : pyobj)
  : result (option value) :=
  if number_or_duration other then
    (x <- scaled self other add RDFInteger___radd__ ;;
     r <- RDFDatetime___init__ (kind_of self) (Some (ONum x)) None ;;
     Ok (Some r))
  else Ok None.

(** In [self._value * other] a [Duration] answers through its own
    [__rmul__], with a [Duration], which the constructor then reads with
    [int]. *)
Definition RDFDatetime___mul__ (self : value) (other : pyobj)
  : result (option value) :=
  if number_or_duration other then
    (product <-
       match other with
       | ONum x => (y <- mul (Int (_value self)) x ;; Ok (ONum y))
       | OValue d =>
           y <- Duration___rmul__ d (ONum (Int (_value self))) ;;
           match y with
           | Some y => Ok (OValue y)
           | None => Raise TypeError
           end
       | OStr _ => Raise TypeError
       end ;;
     r <- RDFDatetime___init__ (kind_of self) (Some product) None ;;
     Ok (Some r))
  else Ok None.

Definition RDFDatetime___sub__ (self : value) (other : pyobj)
  : result (option value) :=
  if number_or_duration other then
    (x <- scaled self other sub RDFInteger___rsub__ ;;
     r <- RDFDatetime___init__ (kind_of self) (Some (ONum x)) None ;;
     Ok (Some r))
  else
    match other with
    | OValue o =>
        if is_RDFDatetime (kind_of o) then
          Ok (Some (Duration___init__
                      (Some (AsSecondsSinceEpoch self - AsSecondsSinceEpoch o))
                      None))
        else Ok None
    | _ => Ok None
    end.


(** *** Dispatch of the wire form

    [SerializeToString] and [ParseFromString] as each class inherits or
    defines them. [Duration] parses and prints its human-readable form;
    [ByteSize], [RDFBool] and the two instants inherit [RDFInteger]'s. *)

Definition SerializeToString (self : value) : result string :=
  match kind_of self with
  | RDFBytes => RDFBytes_SerializeToString self
  | RDFString => RDFString_SerializeToString self
  | RDFInteger | RDFBool | RDFDatetime | RDFDatetimeSeconds | ByteSize =>
      RDFInteger_SerializeToString self
  | Duration => Duration_SerializeToString self
  | RDFURN | SessionID => RDFURN_SerializeToString self
  end.

Definition ParseFromString (self : value) (s : string) : result value :=
  p <- match kind_of self with
       | RDFBytes => RDFBytes_ParseFromString s
       | RDFString => RDFString_ParseFromString s
       | RDFInteger | RDFBool | RDFDatetime | RDFDatetimeSeconds | ByteSize =>
           RDFInteger_ParseFromString s
       | Duration => Duration_ParseFromString self s
       | RDFURN | SessionID => RDFURN_ParseFromString s
       end ;;
  Ok (set_payload self p).

(** [cls()]: the constructor without arguments. *)
Definition construct (e : env) (k : kind) : result value :=
  match k with
  | RDFBytes => Ok (RDFValue___init__ k (Bytes EmptyString) None)
  | RDFString => Ok (RDFValue___init__ k (Text []) None)
  | RDFInteger | RDFBool | ByteSize => Ok (RDFValue___init__ k (Number 0) None)
  | RDFDatetime | RDFDatetimeSeconds => RDFDatetime___init__ k None None
  | Duration => Ok (Duration___init__ None None)
  | RDFURN => RDFURN___init__ k None None
  | SessionID => SessionID___init__ e None None
  end.

(** [cls.FromSerializedString(value)]. *)
Definition FromSerializedString (e : env) (k : kind) (s : string)
  : result value :=
  res <- construct e k ;; ParseFromString res s.

(** [__eq__] between two values of one class compares the payloads. *)
Definition eq_value (a b : value) : bool :=
  bool_decide (payload_of a = payload_of b).

(** *** [Copy]

    Objects have an identity: a heap maps the locations in use to the
    objects, and a constructor call allocates a location. *)

Definition loc : Set := positive.

Definition alloc (h : gmap loc value) (o : value) : gmap loc value * loc :=
  let l := fresh (dom h) in (<[l := o]> h, l).

(** [RDFValue.Copy]: a new instance of the class, parsed from the wire form
    of [self]. *)
Definition RDFValue_Copy (e : env) (self : value) : result value :=
  res <- construct e (kind_of self) ;;
  s <- SerializeToString self ;;
  ParseFromString res s.

(** [int(time.time() * MICROSECONDS)]. *)
Definition now_microseconds (e : env) : result Z :=
  x <- mul (Float (time_time e)) (Int MICROSECONDS) ;; int x.

(** [RDFURN.Copy]: [self.__class__(self, age=age)] with the current time for
    a missing [age]. *)
Definition RDFURN_Copy (e : env) (self : value) (age : option age_t)
  : result value :=
  age <- match age with
         | None => (n <- now_microseconds e ;; Ok (RawAge n))
         | Some a => Ok a
         end ;;
  match kind_of self with
  | SessionID => SessionID___init__ e (Some (OValue self)) (Some age)
  | k => RDFURN___init__ k (Some (OValue self)) (Some age)
  end.

(** [self.Copy()] for the object at [l]: the method of the class of the
    object, and the copy placed at a new location. (A location that is not in
    use stands for no object; the model answers [AttributeError].) *)
Definition Copy (e : env) (h : gmap loc value) (l : loc)
  : result (gmap loc value * loc) :=
  match h !! l with
  | None => Raise AttributeError
  | Some self =>
      res <- (if is_RDFURN (kind_of self) then RDFURN_Copy e self None
              else RDFValue_Copy e self) ;;
      Ok (alloc h res)
  end.

(** *** The late-binding store

    [_LATE_BINDING_STORE] maps the name of a class that is not declared yet
    to the callbacks waiting for it. A callback and its keyword arguments are
    opaque; [invoke] is the call [callback(target=cls, **kwargs)] for the
    class named [target]: it may change the store (a callback may register
    others) and the rest of the process, [world]. *)

Section LateBinding.

Context {callback kwargs world : Type}.

Local Abbreviation late_store := (gmap string (list (callback * kwargs))).

Variable invoke :
  callback -> string -> kwargs -> late_store * world -> late_store * world.

(** [_LATE_BINDING_STORE.setdefault(target_name, []).append((callback,
    kwargs))]. *)
Definition RegisterLateBindingCallback (store : late_store)
    (target_name : string) (cb : callback) (kw : kwargs) : late_store :=
  <[target_name := (default [] (store !! target_name) ++ [(cb, kw)])%list]>
    store.

(** The loop of [RDFValueMetaclass.__init__] for the class [name]: the entry
    of the name is popped, then its callbacks are called in turn. (The base
    metaclass, which runs before the loop, belongs to another module.) *)
Definition RDFValueMetaclass___init__ (name : string)
    (state : late_store * world) : late_store * world :=
  let popped := default [] (state.1 !! name) in
  fold_left (fun st '(cb, kw) => invoke cb name kw st) popped
    (delete name state.1, state.2).

End LateBinding.

(** *** [RDFInteger] and [RDFBool]: construction and text *)

(** [RDFInteger.__init__] for the class [k] ([RDFInteger] or [RDFBool], which
    inherits it). [RDFValue.__init__] re-parses the wire form of an
    initializer of the very class of [self]; any other initializer goes
    through [int], which a value answers with [__int__] when it is of an
    integer class. *)
Definition RDFInteger___init__ (k : kind) (initializer : option pyobj)
    (age : option age_t) : result value :=
  match initializer with
  | None => Ok (RDFValue___init__ k (Number 0) age)
  | Some (OValue o) =>
      if bool_decide (kind_of o = k) then
        (s <- SerializeToString o ;;
         p <- RDFInteger_ParseFromString s ;;
         Ok (RDFValue___init__ k p age))
      else if is_RDFInteger (kind_of o)
      then Ok (RDFValue___init__ k (Number (_value o)) age)
      else Raise TypeError
  | Some (ONum x) => (n <- int x ;; Ok (RDFValue___init__ k (Number n) age))
  | Some (OStr s) =>
      (n <- int_str s ;; Ok (RDFValue___init__ k (Number n) age))
  end.

(** [RDFInteger.__unicode__]. *)
Definition RDFInteger___unicode__ (self : value) : unicode :=
  unicode_int (_value self).

Section CaseMapping.

(** [toupper] is the upper-case mapping of the Unicode database of the
    interpreter, one code point at a time, which [unicode.upper] applies. *)
Variable toupper : Z -> Z.

Definition RDFBool_ParseFromHumanReadable (string : unicode)
  : result payload :=
  let upper_string := List.map toupper string in
  if bool_decide (upper_string = unicode_literal "TRUE")
     || bool_decide (string = unicode_literal "1")
  then Ok (Number 1)
  else if bool_decide (upper_string = unicode_literal "FALSE")
          || bool_decide (string = unicode_literal "0")
  then Ok (Number 0)
  else Raise ValueError.

End CaseMapping.

(** *** [RDFString] and [HashDigest] *)

(** An argument that may also be a [unicode] text. *)
Inductive pyarg : Type :=
| Obj (o : pyobj)
| OUnicode (u : unicode).

(** The payload [self._value] of a text value and of a bytes value. *)
Definition _text (self : value) : unicode :=
  match payload_of self with Text u => u | _ => [] end.

Definition _bytes (self : value) : string :=
  match payload_of self with Bytes s => s | _ => EmptyString end.


(** [RDFString.__eq__] and [RDFString.__lt__]: the texts are compared for
    another [RDFString] and for a [unicode] text, the UTF-8 encoding of
    [self] for a byte string; [TypeError] otherwise, [None] included. *)
Definition RDFString___eq__ (self : value) (other : option pyarg)
  : result bool :=
  match other with
  | Some (Obj (OValue o)) =>
      if bool_decide (kind_of o = RDFString)
      then Ok (bool_decide (_text self = _text o))
      else Raise TypeError
  | Some (OUnicode u) => Ok (bool_decide (_text self = u))
  | Some (Obj (OStr s)) => Ok (bool_decide (encode (_text self) = s))
  | _ => Raise TypeError
  end.

Definition RDFString___lt__ (self : value) (other : option pyarg)
  : result bool :=
  match other with
  | Some (Obj (OValue o)) =>
      if bool_decide (kind_of o = RDFString)
      then Ok (lt_unicode (_text self) (_text o))
      else Raise TypeError
  | Some (OUnicode u) => Ok (lt_unicode (_text self) u)
  | Some (Obj (OStr s)) => Ok (lt_str (encode (_text self)) s)
  | _ => Raise TypeError
  end.

(** [HashDigest.HexDigest], also its [__str__]. *)
Definition HashDigest_HexDigest (self : value) : string :=
  hex (_bytes self).

Section Utils.

(** [utils.SmartStr], a function of another module, on the objects the
    methods below give it: a byte string or an integer. *)
Variable SmartStr : pyobj -> string.

(** [HashDigest.__eq__] with a byte string: the digest itself or its
    hexadecimal text. *)
Definition HashDigest___eq__ (self : value) (other : string) : bool :=
  bool_decide (_bytes self = SmartStr (OStr other))
  || bool_decide (hex (_bytes self) = other).

(** [FlowSessionID.ParseFromString]: a text that does not start with [aff4]
    is taken for a bare flow identifier and put under [aff4:/flows/]. *)
Definition FlowSessionID_ParseFromString (initializer : string)
  : result payload :=
  let initializer :=
    if negb (startswith (SmartStr (OStr initializer)) "aff4")
    then "aff4:/flows/" +:+ initializer
    else initializer in
  RDFURN_ParseFromString initializer.

(** [ByteSize.__str__]: above 1024 bytes the size in the largest binary
    unit below it, with one digit after the point; otherwise the bytes. *)
Definition ByteSize___str__ (self : value) : result string :=
  if 1024 ^ 3 <? _value self then
    (val <- truediv (_value self) (1024 ^ 3) ;;
     Ok (format_1f val +:+ "GiB"))
  else if 1024 ^ 2 <? _value self then
    (val <- truediv (_value self) (1024 ^ 2) ;;
     Ok (format_1f val +:+ "MiB"))
  else if 1024 <? _value self then
    (val <- truediv (_value self) 1024 ;;
     Ok (format_1f val +:+ "KiB"))
  else Ok (SmartStr (ONum (Int (_value self))) +:+ "B").

End Utils.

(** *** [RDFDatetime] and [Duration]: seconds, [Floor] and [Expiry] *)

(** [cls(int(val * cls.converter))] for a number [val] of seconds. *)
Definition RDFDatetime_FromSecondsSinceEpoch (k : kind) (val : num)
  : result value :=
  x <- mul val (Int (converter k)) ;;
  n <- int x ;;
  RDFDatetime___init__ k (Some (ONum (Int n))) None.

(** The property [seconds] of a [Duration]. *)
Definition Duration_seconds (self : value) : Z := _value self.

(** [RDFDatetime.Floor]: [TypeError] unless the interval is a [Duration],
    then the seconds since the epoch, divided by the seconds of the interval
    and multiplied by them again, as an instant of the class of [self]. *)
Definition RDFDatetime_Floor (self : value) (interval : pyobj)
  : outcome value :=
  match interval with
  | OValue i =>
      if bool_decide (kind_of i = Duration) then
        match floordiv (AsSecondsSinceEpoch self) (Duration_seconds i) with
        | None => RaisedBuiltin ZeroDivisionError
        | Some q =>
            let seconds := q * Duration_seconds i in
            of_result
              (RDFDatetime_FromSecondsSinceEpoch (kind_of self) (Int seconds))
        end
      else Raised TypeError
  | _ => Raised TypeError
  end.

(** [Duration.Expiry]: the base time is the current time or a copy of the
    argument; the result is an [RDFDatetime] whatever the class of the
    base. An argument without [Copy] or whose copy has no
    [AsSecondsSinceEpoch] raises [AttributeError]. *)
Definition Duration_Expiry (e : env) (self : value)
    (base_time : option pyobj) : result value :=
  base_time <-
    match base_time with
    | None => RDFDatetime_Now RDFDatetime e
    | Some (OValue b) =>
        if is_RDFURN (kind_of b) then RDFURN_Copy e b None
        else RDFValue_Copy e b
    | Some _ => Raise AttributeError
    end ;;
  if is_RDFDatetime (kind_of base_time) then
    RDFDatetime_FromSecondsSinceEpoch RDFDatetime
      (Int (AsSecondsSinceEpoch base_time + _value self))
  else Raise AttributeError.

(** *** [RDFURN] and [SessionID]: components of the path *)

Definition RDFURN_Dirname (self : value) : string :=
  dirname (_string_urn self).

(** [RDFURN.Split]: without a count (or with 0, which [if count] takes for
    none) the fields between the slashes that are not empty; with a count,
    at most that many cuts (no limit for a negative one) and empty texts
    added while the fields are fewer than the count. *)
Definition RDFURN_Split (self : value) (count : option Z) : list string :=
  match count with
  | Some c =>
      if c =? 0 then filter_None (split "/" (_string_urn self))
      else
        let result :=
          filter_None
            (if c <? 0 then split "/" (_string_urn self)
             else split_max "/" (_string_urn self) (Z.to_nat c)) in
        (result
         ++ List.repeat EmptyString
              (Z.to_nat (c - Z.of_nat (List.length result))))%list
  | None => filter_None (split "/" (_string_urn self))
  end.

(** [SessionID.Queue] and [SessionID.FlowName]: the part of the last segment
    before its first colon, as a path value, and the part after it, which
    an index reads. *)
Definition SessionID_Queue (self : value) : result value :=
  RDFURN___init__ RDFURN
    (Some (OStr (List.hd EmptyString (split ":" (RDFURN_Basename self)))))
    None.

Definition SessionID_FlowName (self : value) : outcome string :=
  match List.nth_error (split_max ":" (RDFURN_Basename self) 1) 1 with
  | Some name => Returned name
  | None => RaisedBuiltin IndexError
  end.

(** *** [age] given to [FromSerializedString] *)

(** [bool(o)], the test of [if age:]: a number that is not zero, a text or
    a value whose payload is not empty or zero. *)
Definition truthy (o : pyobj) : bool :=
  match o with
  | ONum (Int n) => negb (n =? 0)
  | ONum (Float f) => negb (PrimFloat.eqb f 0)
  | OStr s => negb (is_empty s)
  | OValue v =>
      match payload_of v with
      | Bytes s | Path s => negb (is_empty s)
      | Text u => negb (bool_decide (u = []))
      | Number n => negb (n =? 0)
      end
  end.

(** The setter of the property [age]:
    [self._age = RDFDatetime(val, age=0)] for the assigned [val]. *)
Definition age_setter (self : value) (val : pyobj) : result value :=
  a <- RDFDatetime___init__ RDFDatetime (Some val) (Some (RawAge 0)) ;;
  Ok (set_age self (InstanceAge RDFDatetime (_value a))).

(** [cls.FromSerializedString(val, age)]. *)
Definition RDFValue_FromSerializedString (e : env) (k : kind)
    (val : string) (age : option pyobj) : result value :=
  res <- construct e k ;;
  res <- ParseFromString res val ;;
  match age with
  | Some a => if truthy a then age_setter res a else Ok res
  | None => Ok res
  end.

(** *** Vocabulary of the statements *)

(** Every character of [s] is in the set [p]. *)
Fixpoint all (p : ascii -> bool) (s : string) : bool :=
  match s with
  | EmptyString => true
  | String a r => p a && all p r
  end.

(** A text of the grammar of [ByteSize.REGEX], read on a lower-case text: a
    coefficient of digits and dots, a multiplier of letters k, m, g, i, and
    an optional b. *)
Definition size_text (s coefficient multiplier : string) : Prop :=
  exists b,
    s = coefficient +:+ multiplier +:+ b
    /\ coefficient <> EmptyString
    /\ all coefficient_char coefficient = true
    /\ all multiplier_char multiplier = true
    /\ (b = EmptyString \/ b = "b").

(** The end of [ByteSize.REGEX] on what the two groups leave: an optional
    [b], taken first and given back if the end does not follow, then [$]. *)
Definition optional_b (r : string) : bool :=
  match r with
  | String a t =>
      if Re.ignorecase (fun c => bool_decide (c = "b"%char)) a
      then Re.at_eol t || Re.at_eol r
      else Re.at_eol r
  | EmptyString => true
  end.

(** The multiplier table of [ByteSize]. *)
Definition size_multipliers : list (string * Z) :=
  [(EmptyString, 1); ("k", 1000); ("m", 1000000); ("g", 1000000000);
   ("ki", 1024); ("mi", 1048576); ("gi", 1073741824)].

(** An identifier of the grammar [allowed_re] accepts: a queue of letters,
    digits and dashes, a colon, a flow name of letters and digits, and
    possibly a colon and a suffix of letters and digits. *)
Definition session_id (id : string) : Prop :=
  exists queue flow rest,
    id = queue +:+ ":" +:+ flow +:+ rest
    /\ queue <> EmptyString /\ all dash_alnum queue = true
    /\ flow <> EmptyString /\ all isalnum flow = true
    /\ (rest = EmptyString
        \/ exists suffix,
             rest = ":" +:+ suffix
             /\ suffix <> EmptyString /\ all isalnum suffix = true).

(** What [ValidateID] accepts: an identifier of the grammar, possibly
    followed by one newline ([$] matches before a final newline). *)
Definition accepted_id (id : string) : Prop :=
  session_id id
  \/ exists id', id = id' +:+ String Re.newline EmptyString /\ session_id id'.

(** The optional group of [allowed_re] on what is left of the text: a colon,
    at least one letter or digit, and after the letters and digits the
    end. *)
Definition suffix_ok (s : string) : bool :=
  match s with
  | String a (String b t) =>
      bool_decide (a = ":"%char) && isalnum b
      && Re.at_eol (drop_while isalnum t)
  | _ => false
  end.

(** [allowed_re] without backtracking. *)
Definition scan_id (id : string) : bool :=
  match id with
  | String a r =>
      dash_alnum a
      && match drop_while dash_alnum r with
         | String c (String b t) =>
             bool_decide (c = ":"%char) && isalnum b
             && (let rest := drop_while isalnum t in
                 suffix_ok rest || Re.at_eol rest)
         | _ => false
         end
  | EmptyString => false
  end.

(** The grammar as the spec words it: the dash is allowed in every
    component. *)
Definition session_id_of_spec (id : string) : Prop :=
  exists queue flow rest,
    id = queue +:+ ":" +:+ flow +:+ rest
    /\ queue <> EmptyString /\ all dash_alnum queue = true
    /\ flow <> EmptyString /\ all dash_alnum flow = true
    /\ (rest = EmptyString
        \/ exists suffix,
             rest = ":" +:+ suffix
             /\ suffix <> EmptyString /\ all dash_alnum suffix = true).

(** A segment of a normalized path: not empty, neither [.] nor [..], and
    without slash. *)
Definition normal_segment (seg : string) : Prop :=
  seg <> EmptyString /\ seg <> "." /\ seg <> ".."
  /\ contains "/" seg = false.

(** The payload has the shape of the class, and a text holds Unicode scalar
    values. *)
Definition shaped (v : value) : Prop :=
  match kind_of v, payload_of v with
  | RDFBytes, Bytes _ => True
  | RDFString, Text u => Forall scalar_value u
  | (RDFInteger | RDFBool | RDFDatetime | RDFDatetimeSeconds | Duration
     | ByteSize), Number _ => True
  | (RDFURN | SessionID), Path _ => True
  | _, _ => False
  end.

(** The path of a path value is a normalized one: so it is after a
    construction from a text and after [ParseFromString]. *)
Definition normalized (v : value) : Prop :=
  is_RDFURN (kind_of v) = true ->
  exists path, _string_urn v = utils.NormalizePath path.

(** The unit suffixes of a duration text: the keys of [Duration.DIVIDERS]. *)
Definition unit_suffixes : list ascii := ["w"; "d"; "h"; "m"; "s"]%char.

(** What a constructor of class [k] returns for the integer [n] and no
    [age]. *)
Definition built (k : kind) (n : Z) : value :=
  RDFValue___init__ k (Number n) None.


(** The process of the examples: the clock reads 1700000000.5 seconds. *)
Definition example_env : env :=
  {| time_time := 1700000000.5%float; scratch_session := "/flows/F:1A2B3C4D" |}.

End rdfvalue.

(** * Properties *)

Import Py rdfvalue.

(** Case analysis on the 256 characters, and linear arithmetic with
    divisions by constants. *)
Ltac each_ascii a := destruct a as [[] [] [] [] [] [] [] []].

Ltac dlia := Z.to_euclidean_division_equations; lia.

(** ** Exceptions *)

Lemma bind_Ok {A B} (a : A) (k : A -> result B) : bind (Ok a) k = k a.
Proof. reflexivity. Qed.

Lemma bind_Raise {A B} (e : exn) (k : A -> result B) :
  bind (Raise e) k = Raise e.
Proof. reflexivity. Qed.

(** [RuntimeError] is outside the taxonomy of typed errors, and the handler
    of [RDFInteger.ParseFromString] does not catch a [ValueError]. *)
Lemma RuntimeError_untyped :
  typed_error RuntimeError = false
  /\ isinstance_exn RuntimeError DecodeError = false
  /\ isinstance_exn RuntimeError InitializeError = false.
Proof. repeat split. Qed.

Lemma ValueError_not_TypeError : isinstance_exn ValueError TypeError = false.
Proof. reflexivity. Qed.

(** ** [Duration]: the canonical text *)

Section DurationText.

(** The scan stops at the first divider of the rest of the table that
    divides the payload, provided there is one. *)
Lemma Duration_scan_first (n : Z) (items : list (string * Z)) :
  (exists label divider, In (label, divider) items /\ n mod divider = 0) ->
  exists before label divider after,
    items = (before ++ (label, divider) :: after)%list
    /\ Forall (fun item => n mod item.2 <> 0) before
    /\ n mod divider = 0
    /\ Duration_scan n items = Some (str_int (n / divider) +:+ label).
Proof.
  induction items as [| [l d] rest IH]; intros (label & divider & Hin & Hmod).
  - destruct Hin.
  - simpl. destruct (Z.eqb_spec (n mod d) 0) as [Hd | Hd].
    + exists [], l, d, rest. repeat split; auto.
    + destruct Hin as [Heq | Hin]; [inversion Heq; subst; contradiction |].
      destruct IH as (before & l' & d' & after & -> & Hall & Hmod' & Hscan);
        [eauto |].
      exists ((l, d) :: before), l', d', after. repeat split; auto.
Qed.

(** The dividers are listed from the largest to the smallest. *)
Lemma Duration_DIVIDERS_sorted before label divider after :
  Duration_DIVIDERS = (before ++ (label, divider) :: after)%list ->
  Forall (fun item => item.2 <= divider) after
  /\ Forall (fun item => divider <= item.2) before.
Proof.
  unfold Duration_DIVIDERS. intros H.
  repeat (destruct before as [| ? before];
          [ inversion H; subst; split; repeat constructor; simpl; lia
          | simpl in H; injection H as <- H ]).
  destruct before; discriminate.
Qed.

End DurationText.

(** C10. For every integer payload, zero and negatives included, the
    canonical text of a [Duration] is defined: the scan of the dividers, in
    the order w, d, h, m, s, stops at the largest unit that divides the
    payload (at the latest at s = 1, which divides every integer) and the
    text is the quotient followed by the unit; the wire form is that text. *)
Theorem Duration_str_defined (n : Z) (a : age_t) (d : bool) :
  exists label divider,
    In (label, divider) Duration_DIVIDERS
    /\ n mod divider = 0
    /\ (forall label' divider',
          In (label', divider') Duration_DIVIDERS ->
          n mod divider' = 0 -> divider' <= divider)
    /\ Duration___str__ (number Duration n a d)
       = Some (str_int (n / divider) +:+ label)
    /\ Duration_SerializeToString (number Duration n a d)
       = Ok (str_int (n / divider) +:+ label).
Proof.
  destruct (Duration_scan_first n Duration_DIVIDERS)
    as (before & label & divider & after & Hsplit & Hbefore & Hmod & Hscan).
  { exists "s", 1. split; [simpl; tauto | apply Z.mod_1_r]. }
  destruct (Duration_DIVIDERS_sorted _ _ _ _ Hsplit) as [Hafter _].
  exists label, divider.
  assert (Hstr : Duration___str__ (number Duration n a d)
                 = Some (str_int (n / divider) +:+ label)) by exact Hscan.
  repeat split; auto.
  - rewrite Hsplit. apply in_or_app. right. left. reflexivity.
  - intros l' d' Hin Hd'. rewrite Hsplit in Hin.
    apply in_app_or in Hin. destruct Hin as [Hin | [Heq | Hin]].
    + rewrite List.Forall_forall in Hbefore. apply Hbefore in Hin. contradiction.
    + inversion Heq. lia.
    + rewrite List.Forall_forall in Hafter. apply Hafter in Hin. exact Hin.
  - unfold Duration_SerializeToString. rewrite Hstr. reflexivity.
Qed.

(** The table of the spec: 3600 seconds print as one hour. *)
Example Duration_str_3600 :
  Duration___str__ (number Duration 3600 (RawAge 0) false) = Some "1h".
Proof. reflexivity. Qed.

Example Duration_str_zero :
  Duration___str__ (number Duration 0 (RawAge 0) false) = Some "0w".
Proof. reflexivity. Qed.

Example Duration_str_negative :
  Duration___str__ (number Duration (-90) (RawAge 0) false) = Some "-90s".
Proof. reflexivity. Qed.

(** ** [Duration]: faults of the human-readable parser *)

Lemma lookup_divider_None (c : ascii) :
  ~ In c unit_suffixes ->
  lookup_divider (String c EmptyString) Duration_DIVIDERS = None.
Proof.
  intros Hc. unfold Duration_DIVIDERS. simpl.
  repeat (case_bool_decide as Heq;
          [ exfalso; apply Hc; injection Heq as <-; simpl; tauto | clear Heq ]).
  reflexivity.
Qed.

Lemma lookup_divider_Some (c : ascii) :
  In c unit_suffixes ->
  isdigit c = false
  /\ exists m, lookup_divider (String c EmptyString) Duration_DIVIDERS = Some m.
Proof.
  intros Hc. simpl in Hc.
  repeat (destruct Hc as [<- | Hc]; [split; [reflexivity | eexists; reflexivity] |]).
  destruct Hc.
Qed.

(** C8. A duration text whose last character is neither a digit nor one of
    the unit suffixes w, d, h, m, s makes the parser raise [RuntimeError], an
    exception outside the typed errors (it is no [DecodeError], no
    [InitializeError], no value or type error); a text whose numeric part is
    malformed, with a unit suffix or without any, makes it raise
    [InitializeError]. *)
Theorem Duration_parse_faults (self : value) (text : string) (c : ascii) :
  last_char text = Some c ->
  (isdigit c = false -> ~ In c unit_suffixes ->
   Duration_ParseFromHumanReadable self text = Raise RuntimeError
   /\ typed_error RuntimeError = false
   /\ isinstance_exn RuntimeError DecodeError = false
   /\ isinstance_exn RuntimeError InitializeError = false)
  /\ (isdigit c = true -> int_of_str text = None ->
      Duration_ParseFromHumanReadable self text = Raise InitializeError)
  /\ (In c unit_suffixes -> int_of_str (drop_last text) = None ->
      Duration_ParseFromHumanReadable self text = Raise InitializeError).
Proof.
  intros Hlast. unfold Duration_ParseFromHumanReadable. rewrite Hlast.
  split; [| split].
  - intros Hd Hc. rewrite Hd, (lookup_divider_None c Hc).
    repeat split.
  - intros Hd Hint. rewrite Hd. simpl. unfold int_str. rewrite Hint. reflexivity.
  - intros Hin Hint. destruct (lookup_divider_Some c Hin) as [Hd [m Hm]].
    rewrite Hd, Hm. simpl. unfold int_str. rewrite Hint. reflexivity.
Qed.

Lemma Duration_parse_faults_witness :
  Duration_ParseFromHumanReadable (number Duration 0 (RawAge 0) false) "5x"
    = Raise RuntimeError
  /\ Duration_ParseFromHumanReadable (number Duration 0 (RawAge 0) false) "1x5"
    = Raise InitializeError
  /\ Duration_ParseFromHumanReadable (number Duration 0 (RawAge 0) false) "1.5h"
    = Raise InitializeError.
Proof.
  pose (self := number Duration 0 (RawAge 0) false).
  split; [| split].
  - destruct (Duration_parse_faults self "5x" "x"%char eq_refl) as (H & _ & _).
    apply H; [reflexivity |].
    simpl. intros Hin.
    repeat (destruct Hin as [Hin | Hin]; [discriminate Hin |]). exact Hin.
  - destruct (Duration_parse_faults self "1x5" "5"%char eq_refl) as (_ & H & _).
    apply H; reflexivity.
  - destruct (Duration_parse_faults self "1.5h" "h"%char eq_refl) as (_ & _ & H).
    apply H; [simpl; tauto | reflexivity].
Defined.

(** The table of the spec. *)
Example Duration_parse_table :
  let self := number Duration 0 (RawAge 0) false in
  Duration_ParseFromHumanReadable self "1w" = Ok (Number 604800)
  /\ Duration_ParseFromHumanReadable self "2d" = Ok (Number 172800)
  /\ Duration_ParseFromHumanReadable self "90m" = Ok (Number 5400)
  /\ Duration_ParseFromHumanReadable self "45s" = Ok (Number 45)
  /\ Duration_ParseFromHumanReadable self "45" = Ok (Number 45).
Proof. repeat split. Qed.

(** ** [RDFInteger]: a malformed wire form *)

(** [int] raises [ValueError] on a malformed text, the handler is for
    [TypeError]: the [ValueError] goes through. *)
Lemma RDFInteger_parse_ValueError (s : string) :
  is_empty s = false -> int_of_str s = None ->
  RDFInteger_ParseFromString s = Raise ValueError.
Proof.
  intros Hne Hint. unfold RDFInteger_ParseFromString, int_str.
  rewrite Hne, Hint. reflexivity.
Qed.

(** C9 (the code at a failing input). The wire form [abc] is not empty and
    no decimal integer; parsing an integer value from it raises the builtin
    [ValueError], which is not a [DecodeError], where the documentation of
    the parser promises [DecodeError]. *)
Theorem RDFInteger_parse_abc :
  is_empty "abc" = false
  /\ int_of_str "abc" = None
  /\ RDFInteger_ParseFromString "abc" = Raise ValueError
  /\ isinstance_exn ValueError DecodeError = false.
Proof. repeat split. Qed.

(** ** Arithmetic of instants *)

(** C5. For an instant [i] of either resolution: [i + n] and [i - n], for an
    integer [n] or a [Duration] of [n] seconds, return an instant of the class
    of [i] whose payload is that of [i] plus (minus) [n] times the converter
    of the class; for a float the same product and sum are taken in floating
    point and truncated by the constructor; [i - j] for an instant [j] is a
    [Duration] of the difference of the whole seconds since the epoch of the
    two; [i * n] multiplies the raw payload, with no converter (for a float
    [n] the product is taken in floating point and truncated). *)
Theorem instant_arithmetic (i j dur : value) (n : Z) (f : float) :
  is_RDFDatetime (kind_of i) = true ->
  is_RDFDatetime (kind_of j) = true ->
  kind_of dur = Duration ->
  let k := kind_of i in
  RDFDatetime___add__ i (ONum (Int n))
    = Ok (Some (built k (_value i + n * converter k)))
  /\ RDFDatetime___sub__ i (ONum (Int n))
    = Ok (Some (built k (_value i - n * converter k)))
  /\ RDFDatetime___add__ i (OValue dur)
    = Ok (Some (built k (_value i + _value dur * converter k)))
  /\ RDFDatetime___sub__ i (OValue dur)
    = Ok (Some (built k (_value i - _value dur * converter k)))
  /\ RDFDatetime___add__ i (ONum (Float f))
    = (y <- mul (Float f) (Int (converter k)) ;;
       x <- add (Int (_value i)) y ;;
       m <- int x ;;
       Ok (Some (built k m)))
  /\ RDFDatetime___sub__ i (ONum (Float f))
    = (y <- mul (Float f) (Int (converter k)) ;;
       x <- sub (Int (_value i)) y ;;
       m <- int x ;;
       Ok (Some (built k m)))
  /\ RDFDatetime___sub__ i (OValue j)
    = Ok (Some (built Duration
                  (_value i / converter k - _value j / converter (kind_of j))))
  /\ RDFDatetime___mul__ i (ONum (Int n)) = Ok (Some (built k (_value i * n)))
  /\ RDFDatetime___mul__ i (OValue dur)
    = Ok (Some (built k (_value i * _value dur)))
  /\ RDFDatetime___mul__ i (ONum (Float f))
    = (x <- mul (Int (_value i)) (Float f) ;;
       m <- int x ;;
       Ok (Some (built k m))).
Proof.
  intros Hi Hj Hdur k. subst k.
  unfold RDFDatetime___add__, RDFDatetime___sub__, RDFDatetime___mul__.
  repeat apply conj.
  - reflexivity.
  - reflexivity.
  - simpl. rewrite Hdur. simpl.
    unfold built. do 4 f_equal. cbn. lia.
  - simpl. rewrite Hdur. reflexivity.
  - simpl. unfold mul, arith, to_float. simpl.
    destruct (float_of_int (converter (kind_of i))) as [c |]; [| reflexivity].
    simpl. destruct (float_of_int (_value i)) as [v |]; [| reflexivity].
    simpl. destruct (int_of_float (v + f * c)); reflexivity.
  - simpl. unfold mul, arith, to_float. simpl.
    destruct (float_of_int (converter (kind_of i))) as [c |]; [| reflexivity].
    simpl. destruct (float_of_int (_value i)) as [v |]; [| reflexivity].
    simpl. destruct (int_of_float (v - f * c)); reflexivity.
  - destruct j as [[] pj aj dj]; try discriminate Hj; reflexivity.
  - reflexivity.
  - simpl. rewrite Hdur. simpl.
    unfold built. do 4 f_equal. cbn. lia.
  - simpl. unfold mul, arith, to_float.
    destruct (float_of_int (_value i)) as [v |]; [| reflexivity].
    simpl. destruct (int_of_float (v * f)); reflexivity.
Qed.

(** The examples of the spec: twenty seconds minus five seconds is a
    duration of fifteen seconds, and an instant minus the number 5 is the
    instant five seconds earlier. *)
Lemma instant_arithmetic_witness :
  let i := built RDFDatetime (20 * MICROSECONDS) in
  let j := built RDFDatetime (5 * MICROSECONDS) in
  RDFDatetime___sub__ i (OValue j) = Ok (Some (built Duration 15))
  /\ RDFDatetime___sub__ i (ONum (Int 5))
     = Ok (Some (built RDFDatetime (15 * MICROSECONDS)))
  /\ RDFDatetime___mul__ i (ONum (Int 2))
     = Ok (Some (built RDFDatetime (40 * MICROSECONDS))).
Proof.
  intros i j.
  destruct (instant_arithmetic i j (built Duration 5) 5 0.5%float
              eq_refl eq_refl eq_refl)
    as (_ & Hsub & _ & _ & _ & _ & Hdiff & _).
  destruct (instant_arithmetic i j (built Duration 5) 2 0.5%float
              eq_refl eq_refl eq_refl)
    as (_ & _ & _ & _ & _ & _ & _ & Hmul & _).
  split; [exact Hdiff | split; [exact Hsub | exact Hmul]].
Defined.

(** With a sub-second part the difference of two instants is still a whole
    number of seconds, each operand rounded down on its own. *)
Example instant_difference_truncates :
  RDFDatetime___sub__ (built RDFDatetime 2000000) (OValue (built RDFDatetime 1999999))
  = Ok (Some (built Duration 1)).
Proof. reflexivity. Qed.

(** ** Interpolation *)



(** ** The default age *)

(** Whatever the clock reads, the age of a value built without [age] is the
    instant of payload 0. *)
Lemma default_age_zero (k : kind) (p : payload) :
  (age (RDFValue___init__ k p None)).2 = 0.
Proof. reflexivity. Qed.

Lemma construct_age_zero (e : env) (k : kind) (o : value) :
  construct e k = Ok o -> (age o).2 = 0.
Proof.
  destruct k; simpl; intros [= <-]; reflexivity.
Qed.

(** C4 (the code at a failing input). With a clock that reads 1700000000.5
    seconds, [RDFInteger()] is built without [age]; its age reads as the
    instant of payload 0, the epoch, while [RDFDatetime.Now()] is the instant
    of payload 1700000000500000. *)
Theorem default_age_is_not_now :
  exists o now,
    construct example_env RDFInteger = Ok o
    /\ (age o).2 = 0
    /\ RDFDatetime_Now RDFDatetime example_env = Ok now
    /\ _value now = 1700000000500000.
Proof.
  eexists _, _. split; [reflexivity |]. split; [reflexivity |].
  split; vm_compute; reflexivity.
Qed.

(** ** The [re] engine on character sets *)

Section ReFacts.

Lemma append_cons (a : ascii) (u v : string) :
  String a u +:+ v = String a (u +:+ v).
Proof. reflexivity. Qed.

Lemma append_nil_l (v : string) : EmptyString +:+ v = v.
Proof. reflexivity. Qed.

Lemma take_drop_while (p : ascii -> bool) (s : string) :
  s = take_while p s +:+ drop_while p s.
Proof.
  induction s as [| a r IH]; simpl; [reflexivity |].
  destruct (p a); [rewrite append_cons; f_equal; exact IH | reflexivity].
Qed.

Lemma all_take_while (p : ascii -> bool) (s : string) :
  all p (take_while p s) = true.
Proof.
  induction s as [| a r IH]; simpl; [reflexivity |].
  destruct (p a) eqn:E; simpl; [rewrite E, IH |]; reflexivity.
Qed.

Lemma length_append (u v : string) :
  String.length (u +:+ v) = (String.length u + String.length v)%nat.
Proof.
  induction u as [| a u IH]; [reflexivity |].
  rewrite append_cons. simpl. rewrite IH. reflexivity.
Qed.

Lemma append_nil_r (u : string) : u +:+ EmptyString = u.
Proof.
  induction u as [| a u IH]; [reflexivity |].
  rewrite append_cons, IH. reflexivity.
Qed.

Lemma append_assoc (u v w : string) : (u +:+ v) +:+ w = u +:+ (v +:+ w).
Proof.
  induction u as [| a u IH]; [reflexivity |].
  rewrite !append_cons, IH. reflexivity.
Qed.

Lemma take_append (u v : string) : take (String.length u) (u +:+ v) = u.
Proof.
  induction u as [| a u IH]; [destruct v; reflexivity |].
  rewrite append_cons. simpl. rewrite IH. reflexivity.
Qed.

(** What a match from [u +:+ v] down to [v] has consumed is [u]. *)
Lemma consumed_append (u v : string) : Re.consumed (u +:+ v) v = u.
Proof.
  unfold Re.consumed. rewrite length_append.
  replace (String.length u + String.length v - String.length v)%nat
    with (String.length u) by lia.
  apply take_append.
Qed.

Lemma consumed_drop_while (p : ascii -> bool) (s : string) :
  Re.consumed s (drop_while p s) = take_while p s.
Proof.
  rewrite (take_drop_while p s) at 1. apply consumed_append.
Qed.

(** A prefix in the set followed by a text that does not start in the set
    is the longest prefix in the set. *)
Lemma take_while_append (p : ascii -> bool) (u v : string) :
  all p u = true -> take_while p v = EmptyString ->
  take_while p (u +:+ v) = u /\ drop_while p (u +:+ v) = v.
Proof.
  intros Hu Hv. induction u as [| a r IH].
  - rewrite append_nil_l. split; [exact Hv |].
    destruct v as [| b w]; simpl in *; [reflexivity |].
    destruct (p b); [discriminate | reflexivity].
  - simpl in Hu. apply andb_prop in Hu. destruct Hu as [Ha Hr].
    rewrite append_cons. simpl. rewrite Ha.
    destruct (IH Hr) as [-> ->]. split; reflexivity.
Qed.

Lemma take_while_ext (p q : ascii -> bool) (s : string) :
  all (fun a => bool_decide (p a = q a)) s = true ->
  take_while p s = take_while q s /\ drop_while p s = drop_while q s.
Proof.
  induction s as [| a r IH]; simpl; [split; reflexivity |].
  intros H. apply andb_prop in H. destruct H as [Ha Hr].
  apply bool_decide_eq_true in Ha. rewrite Ha.
  destruct (IH Hr) as [-> ->]. split; reflexivity.
Qed.

Lemma all_drop_while (q p : ascii -> bool) (s : string) :
  all q s = true -> all q (drop_while p s) = true.
Proof.
  induction s as [| a r IH]; simpl; [reflexivity |].
  intros H. destruct (p a); [| exact H].
  apply andb_prop in H. apply IH, H.
Qed.

Lemma exec_Eol (s : string) (g : Re.groups) (k : Re.cont) :
  Re.exec Re.Eol s g k = if Re.at_eol s then k s g else None.
Proof. reflexivity. Qed.

Variable p : ascii -> bool.
Variable k : Re.cont.

Lemma star_loop_class (fuel : nat) (s : string) (g : Re.groups) :
  (String.length s <= fuel)%nat ->
  Re.star_loop (Re.exec (Re.Class p)) k fuel s g = Re.star_class p k s g.
Proof.
  revert s g. induction fuel as [| fuel IH]; intros s g Hlen.
  - destruct s; [reflexivity | simpl in Hlen; lia].
  - destruct s as [| a r]; [reflexivity |].
    simpl. destruct (p a); [| reflexivity].
    destruct (Nat.ltb_spec (String.length r) (S (String.length r)));
      [| lia].
    rewrite IH by (simpl in Hlen; lia). reflexivity.
Qed.

Lemma exec_star_class (s : string) (g : Re.groups) :
  Re.exec (Re.Star (Re.Class p)) s g k = Re.star_class p k s g.
Proof. simpl. apply star_loop_class. lia. Qed.

Hypothesis k_rejects : Re.rejects p k.

(** A greedy star of a set keeps all it took when what follows cannot
    start in the set. *)
Lemma star_class_greedy (s : string) (g : Re.groups) :
  Re.star_class p k s g = k (drop_while p s) g.
Proof.
  induction s as [| a r IH]; simpl; [reflexivity |].
  destruct (p a) eqn:Ha; [| reflexivity].
  rewrite IH. destruct (k (drop_while p r) g) eqn:E; [reflexivity |].
  apply k_rejects, Ha.
Qed.

Lemma exec_star_greedy (s : string) (g : Re.groups) :
  Re.exec (Re.Star (Re.Class p)) s g k = k (drop_while p s) g.
Proof. rewrite exec_star_class. apply star_class_greedy. Qed.

Lemma exec_plus_greedy (s : string) (g : Re.groups) :
  Re.exec (Re.Plus (Re.Class p)) s g k
  = match s with
    | String a r => if p a then k (drop_while p r) g else None
    | EmptyString => None
    end.
Proof.
  unfold Re.Plus. destruct s as [| a r]; [reflexivity |].
  change (Re.exec (Re.Seq (Re.Class p) (Re.Star (Re.Class p)))
            (String a r) g k)
    with (if p a then Re.exec (Re.Star (Re.Class p)) r g k else None).
  destruct (p a); [apply exec_star_greedy | reflexivity].
Qed.

End ReFacts.

(** ** [ByteSize]: the human-readable parser *)

Section ByteSizeRegex.

Let c1 := Re.ignorecase coefficient_char.
Let c2 := Re.ignorecase multiplier_char.
Let cb := Re.ignorecase (fun c => bool_decide (c = "b"%char)).
Let k0 : Re.cont := fun _ g => Some g.
Let tail := Re.Seq (Re.Opt (Re.Class cb)) Re.Eol.

(** The three sets of the pattern are disjoint and hold no newline. *)
Lemma coefficient_not_multiplier (a : ascii) :
  c1 a = true -> c2 a = false /\ cb a = false /\ a <> Re.newline.
Proof.
  each_ascii a; vm_compute; intros H; try discriminate H;
    (split; [reflexivity | split; [reflexivity | intros E; discriminate E]]).
Qed.

Lemma multiplier_not_b (a : ascii) :
  c2 a = true -> cb a = false /\ a <> Re.newline.
Proof.
  each_ascii a; vm_compute; intros H; try discriminate H;
    (split; [reflexivity | intros E; discriminate E]).
Qed.


Lemma at_eol_cons (a : ascii) (r : string) :
  a <> Re.newline -> Re.at_eol (String a r) = false.
Proof.
  intros Ha. destruct r; [| reflexivity].
  simpl. apply bool_decide_eq_false. exact Ha.
Qed.

Lemma tail_exec (s : string) (g : Re.groups) :
  Re.exec tail s g k0 = if optional_b s then Some g else None.
Proof.
  destruct s as [| a t]; [reflexivity |].
  unfold tail, optional_b. fold cb. simpl.
  destruct (cb a); [| reflexivity].
  destruct (Re.at_eol t); reflexivity.
Qed.

Lemma tail_rejects_multiplier (n : nat) (f : string -> string) :
  Re.rejects c2 (fun s' g' => Re.exec tail s' (<[n := f s']> g') k0).
Proof.
  intros a r g Ha. rewrite tail_exec. unfold optional_b. fold cb.
  destruct (multiplier_not_b a Ha) as [-> Hnl].
  rewrite (at_eol_cons a r Hnl). reflexivity.
Qed.

Lemma multiplier_exec (s : string) (g : Re.groups) :
  Re.exec (Re.Seq (Re.Group 2 (Re.Star (Re.Class c2))) tail) s g k0
  = if optional_b (drop_while c2 s)
    then Some (<[2%nat := take_while c2 s]> g) else None.
Proof.
  change (Re.exec (Re.Seq (Re.Group 2 (Re.Star (Re.Class c2))) tail) s g k0)
    with (Re.exec (Re.Star (Re.Class c2)) s g
            (fun s' g' => Re.exec tail s' (<[2%nat := Re.consumed s s']> g') k0)).
  rewrite exec_star_greedy by apply tail_rejects_multiplier.
  rewrite tail_exec, consumed_drop_while. reflexivity.
Qed.

Lemma multiplier_rejects_coefficient (f : string -> string) :
  Re.rejects c1 (fun s' g' =>
    Re.exec (Re.Seq (Re.Group 2 (Re.Star (Re.Class c2))) tail) s'
      (<[1%nat := f s']> g') k0).
Proof.
  intros a r g Ha. rewrite multiplier_exec.
  destruct (coefficient_not_multiplier a Ha) as (H2 & Hb & Hnl).
  simpl. rewrite H2. unfold optional_b. fold cb. rewrite Hb.
  rewrite (at_eol_cons a r Hnl). reflexivity.
Qed.

(** The match of [ByteSize.REGEX], without backtracking: the longest run
    of coefficient characters, which must not be empty, the longest run of
    multiplier letters, the optional [b] and the end. *)
Lemma ByteSize_REGEX_match (s : string) :
  Re.match_ ByteSize_REGEX s
  = if is_empty (take_while c1 s) then None
    else if optional_b (drop_while c2 (drop_while c1 s))
    then Some (<[2%nat := take_while c2 (drop_while c1 s)]>
                 (<[1%nat := take_while c1 s]> ∅))
    else None.
Proof.
  unfold Re.match_, ByteSize_REGEX. fold c1 c2 cb. fold tail. fold k0.
  change (Re.exec (Re.Seq (Re.Group 1 (Re.Plus (Re.Class c1)))
                     (Re.Seq (Re.Group 2 (Re.Star (Re.Class c2))) tail))
            s ∅ k0)
    with (Re.exec (Re.Plus (Re.Class c1)) s ∅
            (fun s' g' =>
               Re.exec (Re.Seq (Re.Group 2 (Re.Star (Re.Class c2))) tail) s'
                 (<[1%nat := Re.consumed s s']> g') k0)).
  rewrite exec_plus_greedy by apply multiplier_rejects_coefficient.
  destruct s as [| a r]; [reflexivity |].
  simpl take_while. simpl drop_while. destruct (c1 a) eqn:Ha; [| reflexivity].
  rewrite multiplier_exec.
  replace (Re.consumed (String a r) (drop_while c1 r))
    with (String a (take_while c1 r)); [reflexivity |].
  rewrite (take_drop_while c1 r) at 2.
  rewrite <- append_cons, consumed_append. reflexivity.
Qed.

End ByteSizeRegex.

Section StringFacts.




Lemma all_impl (p q : ascii -> bool) (s : string) :
  (forall a, p a = true -> q a = true) -> all p s = true -> all q s = true.
Proof.
  intros Hpq. induction s as [| a r IH]; simpl; [reflexivity |].
  intros H. apply andb_prop in H. destruct H as [Ha Hr].
  rewrite (Hpq a Ha), (IH Hr). reflexivity.
Qed.

Lemma all_append (p : ascii -> bool) (u v : string) :
  all p (u +:+ v) = all p u && all p v.
Proof.
  induction u as [| a u IH]; [reflexivity |].
  rewrite append_cons. simpl. rewrite IH, andb_assoc. reflexivity.
Qed.



Lemma last_char_append (u v : string) :
  v <> EmptyString -> last_char (u +:+ v) = last_char v.
Proof.
  intros Hv. induction u as [| a u IH]; [reflexivity |].
  rewrite append_cons. destruct (u +:+ v) as [| b w] eqn:E.
  - destruct u; [rewrite append_nil_l in E; contradiction | discriminate E].
  - exact IH.
Qed.


(** A text without blanks is left as it is by [strip]. *)
Lemma strip_no_space (s : string) :
  all (fun a => negb (isspace a)) s = true -> strip s = s.
Proof.
  intros H. unfold strip.
  assert (Hl : lstrip s = s).
  { destruct s as [| a r]; [reflexivity |]. simpl in *.
    apply andb_prop in H. destruct H as [Ha _].
    apply negb_true_iff in Ha. rewrite Ha. reflexivity. }
  rewrite Hl. induction s as [| a r IH]; [reflexivity |].
  simpl in *. apply andb_prop in H. destruct H as [Ha Hr].
  apply negb_true_iff in Ha. rewrite Ha, andb_false_r.
  rewrite IH; [reflexivity | exact Hr |].
  destruct r as [| b r']; [reflexivity |]. simpl in *.
  apply andb_prop in Hr. destruct Hr as [Hb _].
  apply negb_true_iff in Hb. rewrite Hb. reflexivity.
Qed.

Lemma digit_not_space (a : ascii) :
  isdigit a = true ->
  negb (isspace a) = true /\ a <> "+"%char /\ a <> "-"%char.
Proof.
  each_ascii a; vm_compute; intros H; try discriminate H;
    (split; [reflexivity | split; intros E; discriminate E]).
Qed.

(** A text of decimal digits is read by the library's digit parser. *)
Lemma uint_of_digits (s : string) :
  all isdigit s = true -> exists u, NilEmpty.uint_of_string s = Some u.
Proof.
  induction s as [| a r IH]; simpl; [eexists; reflexivity |].
  intros H. apply andb_prop in H. destruct H as [Ha Hr].
  destruct (IH Hr) as [u ->].
  revert Ha. each_ascii a; vm_compute; intros Ha; try discriminate Ha;
    eexists; reflexivity.
Qed.

(** [int] accepts every non-empty text of decimal digits. *)
Lemma int_of_digits (s : string) :
  s <> EmptyString -> all isdigit s = true ->
  exists n, int_of_str s = Some n /\ int_digits s = Some n.
Proof.
  intros Hne Hd. unfold int_of_str.
  rewrite strip_no_space
    by (eapply all_impl; [| exact Hd]; intros a Ha;
        apply (digit_not_space a Ha)).
  destruct s as [| a r]; [contradiction |].
  assert (Ha : isdigit a = true) by (simpl in Hd; apply andb_prop in Hd; tauto).
  destruct (digit_not_space a Ha) as (_ & Hplus & Hminus).
  rewrite !bool_decide_eq_false_2 by assumption.
  unfold int_digits. simpl is_empty. cbv iota.
  destruct (uint_of_digits _ Hd) as [u ->]. eexists. split; reflexivity.
Qed.

End StringFacts.

Section ByteSizeParse.

Let c1 := Re.ignorecase coefficient_char.
Let c2 := Re.ignorecase multiplier_char.
Let fixed := fun a => bool_decide (lower_char a = a).

Lemma ignorecase_fixed (p : ascii -> bool) (u : string) :
  all fixed u = true ->
  all (fun a => bool_decide (Re.ignorecase p a = p a)) u = true.
Proof.
  apply all_impl. intros a Ha. apply bool_decide_eq_true in Ha.
  apply bool_decide_eq_true. unfold Re.ignorecase. rewrite Ha. reflexivity.
Qed.

Lemma all_ignorecase (p : ascii -> bool) (u : string) :
  all fixed u = true -> all (Re.ignorecase p) u = all p u.
Proof.
  induction u as [| a r IH]; simpl; [reflexivity |].
  intros H. apply andb_prop in H. destruct H as [Ha Hr].
  apply bool_decide_eq_true in Ha. unfold Re.ignorecase at 1.
  rewrite Ha, (IH Hr). reflexivity.
Qed.

(** The table [ByteSize.DIVIDERS] holds the seven multipliers. *)
Lemma ByteSize_DIVIDERS_table (key : string) (m : Z) :
  ByteSize_DIVIDERS !! key = Some m <-> In (key, m) size_multipliers.
Proof.
  unfold ByteSize_DIVIDERS, size_multipliers.
  rewrite !lookup_insert_Some, lookup_singleton_Some. simpl.
  change (1000 ^ 2) with 1000000. change (1000 ^ 3) with 1000000000.
  change (1024 ^ 2) with 1048576. change (1024 ^ 3) with 1073741824.
  split.
  - intros H.
    repeat (destruct H as [[<- <-] | [_ H]]; [tauto |]).
    destruct H as [<- <-]. tauto.
  - intros H.
    repeat (destruct H as [[= <- <-] | H];
            [repeat (first [left; split; [reflexivity | reflexivity]
                           | right; split; [discriminate |]]);
             try (split; reflexivity) |]).
    destruct H.
Qed.


(** A text of the grammar is split by the scan as the grammar splits it. *)
Lemma size_text_scan (s coef mult : string) :
  all fixed s = true -> size_text s coef mult ->
  take_while c1 s = coef
  /\ take_while c2 (drop_while c1 s) = mult
  /\ optional_b (drop_while c2 (drop_while c1 s)) = true.
Proof.
  intros Hfix (b & -> & Hne & Hcoef & Hmult & Hb).
  rewrite !all_append in Hfix.
  apply andb_prop in Hfix. destruct Hfix as [Hf1 Hf23].
  apply andb_prop in Hf23. destruct Hf23 as [Hf2 _].
  rewrite <- (all_ignorecase _ _ Hf1) in Hcoef.
  rewrite <- (all_ignorecase _ _ Hf2) in Hmult.
  assert (Hb2 : take_while c2 b = EmptyString /\ optional_b b = true)
    by (destruct Hb as [-> | ->]; split; reflexivity).
  destruct Hb2 as [Hb2 Hob].
  destruct (take_while_append c2 mult b Hmult Hb2) as [Ht2 Hd2].
  assert (H1 : take_while c1 (mult +:+ b) = EmptyString).
  { destruct mult as [| a r].
    - destruct Hb as [-> | ->]; reflexivity.
    - rewrite append_cons. simpl. simpl in Hmult.
      apply andb_prop in Hmult. destruct Hmult as [Ha _].
      destruct (c1 a) eqn:E; [| reflexivity].
      apply coefficient_not_multiplier in E. destruct E as [E _].
      fold c2 in Ha. unfold c2 in Ha. congruence. }
  destruct (take_while_append c1 coef (mult +:+ b) Hcoef H1) as [Ht1 Hd1].
  rewrite Ht1, Hd1, Ht2, Hd2. auto.
Qed.


End ByteSizeParse.



(** The examples of the spec, and texts the grammar lets through whose
    coefficient is no number. *)
Example ByteSize_parse_examples :
  let parse := ByteSize_ParseFromHumanReadable (built ByteSize 0) in
  parse "1Kib" = Ok (Number 1024)
  /\ parse "1kb" = Ok (Number 1000)
  /\ parse "1.5Gi" = Ok (Number 1610612736)
  /\ parse "1xb" = Raise DecodeError
  /\ parse "1kk" = Raise DecodeError
  /\ parse "12" = Ok (Number 12)
  /\ parse "1.2.3k" = Raise ValueError.
Proof. vm_compute. repeat split. Qed.


(** ** [SessionID]: the grammar of identifiers *)

Section SessionIDRegex.

Let F := Re.Class isalnum.
Let colon := Re.Lit ":".
Let group1 := Re.Group 1 (Re.Seq colon (Re.Plus F)).
Let tail := Re.Seq (Re.Opt group1) Re.Eol.
Let k0 : Re.cont := fun _ g => Some g.

Lemma isalnum_plain (a : ascii) :
  isalnum a = true ->
  a <> Re.newline /\ bool_decide (a = ":"%char) = false
  /\ dash_alnum a = true.
Proof.
  each_ascii a; vm_compute; intros H; try discriminate H;
    (split; [intros E; discriminate E | split; reflexivity]).
Qed.

Lemma dash_alnum_plain (a : ascii) :
  dash_alnum a = true ->
  a <> Re.newline /\ bool_decide (a = ":"%char) = false.
Proof.
  each_ascii a; vm_compute; intros H; try discriminate H;
    (split; [intros E; discriminate E | reflexivity]).
Qed.

Lemma eol_rejects_isalnum (f : string -> Re.groups -> Re.groups) :
  Re.rejects isalnum (fun s' g' => Re.exec Re.Eol s' (f s' g') k0).
Proof.
  intros a r g Ha. destruct (isalnum_plain a Ha) as (Hnl & _).
  rewrite exec_Eol, (at_eol_cons a r Hnl). reflexivity.
Qed.

Lemma group1_exec (s : string) (g : Re.groups) :
  exists g',
    Re.exec group1 s g (fun s' g' => Re.exec Re.Eol s' g' k0)
    = if suffix_ok s then Some g' else None.
Proof.
  change (Re.exec group1 s g (fun s' g' => Re.exec Re.Eol s' g' k0))
    with (Re.exec (Re.Seq colon (Re.Plus F)) s g
            (fun s' g' =>
               Re.exec Re.Eol s' (<[1%nat := Re.consumed s s']> g') k0)).
  destruct s as [| a r]; [exists g; reflexivity |].
  change (Re.exec (Re.Seq colon (Re.Plus F)) (String a r) g
            (fun s' g' =>
               Re.exec Re.Eol s'
                 (<[1%nat := Re.consumed (String a r) s']> g') k0))
    with (if bool_decide (a = ":"%char)
          then Re.exec (Re.Plus F) r g
                 (fun s' g' =>
                    Re.exec Re.Eol s'
                      (<[1%nat := Re.consumed (String a r) s']> g') k0)
          else None).
  unfold F. rewrite exec_plus_greedy
    by apply (eol_rejects_isalnum
                (fun s' g' => <[1%nat := Re.consumed (String a r) s']> g')).
  unfold suffix_ok.
  destruct r as [| b t]; [exists g; destruct (bool_decide _); reflexivity |].
  eexists. destruct (bool_decide (a = ":"%char)); [| reflexivity].
  destruct (isalnum b); [| reflexivity].
  rewrite exec_Eol. simpl andb.
  destruct (Re.at_eol (drop_while isalnum t)); reflexivity.
Qed.

Lemma tail_id_exec (s : string) (g : Re.groups) :
  exists g',
    Re.exec tail s g k0
    = if suffix_ok s || Re.at_eol s then Some g' else None.
Proof.
  change (Re.exec tail s g k0)
    with (match Re.exec group1 s g (fun s' g' => Re.exec Re.Eol s' g' k0) with
          | Some g' => Some g'
          | None => if Re.at_eol s then Some g else None
          end).
  destruct (group1_exec s g) as [g' ->].
  destruct (suffix_ok s); [exists g'; reflexivity |].
  exists g. reflexivity.
Qed.

Lemma tail_id_rejects_isalnum : Re.rejects isalnum (fun s' g' => Re.exec tail s' g' k0).
Proof.
  intros a r g Ha. destruct (tail_id_exec (String a r) g) as [g' ->].
  destruct (isalnum_plain a Ha) as (Hnl & Hc & _).
  rewrite (at_eol_cons a r Hnl). unfold suffix_ok.
  destruct r; rewrite ?Hc; reflexivity.
Qed.

Lemma colon_rejects_dash_alnum (r : Re.regex) :
  Re.rejects dash_alnum (fun s' g' => Re.exec (Re.Seq colon r) s' g' k0).
Proof.
  intros a t g Ha. destruct (dash_alnum_plain a Ha) as (_ & Hc).
  simpl. rewrite Hc. reflexivity.
Qed.

(** [allowed_re] matches exactly the texts the scan accepts. *)
Lemma allowed_re_match (id : string) :
  is_Some (Re.match_ allowed_re id) <-> scan_id id = true.
Proof.
  unfold Re.match_, allowed_re. fold F colon group1. fold tail. fold k0.
  change (Re.exec (Re.Seq (Re.Plus (Re.Class dash_alnum))
                     (Re.Seq colon (Re.Seq (Re.Plus F) tail))) id ∅ k0)
    with (Re.exec (Re.Plus (Re.Class dash_alnum)) id ∅
            (fun s' g' =>
               Re.exec (Re.Seq colon (Re.Seq (Re.Plus F) tail)) s' g' k0)).
  rewrite exec_plus_greedy by apply colon_rejects_dash_alnum.
  unfold scan_id. destruct id as [| a r]; [split; [intros [? H]|]; discriminate |].
  destruct (dash_alnum a); [| split; [intros [? H]|]; discriminate].
  simpl andb. destruct (drop_while dash_alnum r) as [| c r2];
    [split; [intros [? H]|]; discriminate |].
  change (Re.exec (Re.Seq colon (Re.Seq (Re.Plus F) tail)) (String c r2) ∅ k0)
    with (if bool_decide (c = ":"%char)
          then Re.exec (Re.Plus F) r2 ∅
                 (fun s' g' => Re.exec tail s' g' k0)
          else None).
  unfold F. rewrite exec_plus_greedy by apply tail_id_rejects_isalnum.
  destruct r2 as [| b t];
    [destruct (bool_decide _); split; [intros [? H]| | intros [? H] |];
     discriminate |].
  destruct (bool_decide (c = ":"%char));
    [| split; [intros [? H]|]; discriminate].
  destruct (isalnum b); [| split; [intros [? H]|]; discriminate].
  simpl andb. destruct (tail_id_exec (drop_while isalnum t) ∅) as [g' ->].
  destruct (suffix_ok _ || Re.at_eol _);
    split; try discriminate; eauto. intros [? H]. discriminate.
Qed.

Lemma ValidateID_scan (id : string) :
  SessionID_ValidateID id
  = if scan_id id then Ok tt else Raise ValueError.
Proof.
  unfold SessionID_ValidateID.
  pose proof (allowed_re_match id) as H.
  destruct (Re.match_ allowed_re id) as [m |], (scan_id id);
    try reflexivity.
  - destruct H as [H _]. discriminate (H (ex_intro _ m eq_refl)).
  - destruct H as [_ H]. destruct (H eq_refl) as [? E]. discriminate E.
Qed.

End SessionIDRegex.

Section SessionIDGrammar.

Lemma at_eol_iff (nl : string) :
  Re.at_eol nl = true
  <-> nl = EmptyString \/ nl = String Re.newline EmptyString.
Proof.
  destruct nl as [| a [| b r]]; simpl.
  - tauto.
  - rewrite bool_decide_eq_true. split; [intros ->; tauto |].
    intros [H | H]; [discriminate H | injection H as ->; reflexivity].
  - split; [discriminate | intros [H | H]; discriminate H].
Qed.

Lemma take_while_eol (p : ascii -> bool) (nl : string) :
  p Re.newline = false -> Re.at_eol nl = true ->
  take_while p nl = EmptyString.
Proof.
  intros Hp Hnl. apply at_eol_iff in Hnl.
  destruct Hnl as [-> | ->]; simpl; [| rewrite Hp]; reflexivity.
Qed.

(** The scan accepts an identifier of the grammar followed by what [$]
    tolerates, and nothing else. *)
Lemma scan_id_iff (id : string) :
  scan_id id = true
  <-> exists queue flow rest nl,
        id = queue +:+ ":" +:+ flow +:+ rest +:+ nl
        /\ queue <> EmptyString /\ all dash_alnum queue = true
        /\ flow <> EmptyString /\ all isalnum flow = true
        /\ (rest = EmptyString
            \/ exists suffix,
                 rest = ":" +:+ suffix
                 /\ suffix <> EmptyString /\ all isalnum suffix = true)
        /\ Re.at_eol nl = true.
Proof.
  split.
  - unfold scan_id. destruct id as [| a r]; [discriminate |].
    intros H. apply andb_prop in H. destruct H as [Ha H].
    pose proof (take_drop_while dash_alnum r) as Hr.
    pose proof (all_take_while dash_alnum r) as Hq.
    destruct (drop_while dash_alnum r) as [| c [| b t]];
      [discriminate H | discriminate H |].
    apply andb_prop in H. destruct H as [H Hrest].
    apply andb_prop in H. destruct H as [Hc Hb].
    apply bool_decide_eq_true in Hc. subst c.
    pose proof (take_drop_while isalnum t) as Ht.
    pose proof (all_take_while isalnum t) as Hf.
    set (rest := drop_while isalnum t) in *.
    assert (Hid : String a r
                  = String a (take_while dash_alnum r) +:+ ":"
                    +:+ String b (take_while isalnum t) +:+ rest).
    { rewrite append_cons. f_equal. rewrite Hr at 1. f_equal.
      change (":" +:+ String b (take_while isalnum t) +:+ rest)
        with (String ":" (String b (take_while isalnum t +:+ rest))).
      rewrite <- Ht. reflexivity. }
    apply orb_prop in Hrest. destruct Hrest as [Hsfx | Heol].
    + unfold suffix_ok in Hsfx.
      destruct rest as [| c [| b2 t2]];
        [discriminate Hsfx | discriminate Hsfx |].
      apply andb_prop in Hsfx. destruct Hsfx as [H Hnl].
      apply andb_prop in H. destruct H as [Hc Hb2].
      apply bool_decide_eq_true in Hc. subst c.
      exists (String a (take_while dash_alnum r)),
             (String b (take_while isalnum t)),
             (":" +:+ String b2 (take_while isalnum t2)),
             (drop_while isalnum t2).
      split.
      { rewrite Hid. do 3 f_equal.
        change ((":" +:+ String b2 (take_while isalnum t2))
                +:+ drop_while isalnum t2)
          with (String ":" (String b2 (take_while isalnum t2
                                       +:+ drop_while isalnum t2))).
        rewrite <- take_drop_while. reflexivity. }
      split; [discriminate |]. split; [simpl; rewrite Ha, Hq; reflexivity |].
      split; [discriminate |]. split; [simpl; rewrite Hb, Hf; reflexivity |].
      split; [| exact Hnl].
      right. eexists. split; [reflexivity |]. split; [discriminate |].
      simpl. rewrite Hb2, all_take_while. reflexivity.
    + exists (String a (take_while dash_alnum r)),
             (String b (take_while isalnum t)), EmptyString, rest.
      split; [exact Hid |].
      split; [discriminate |]. split; [simpl; rewrite Ha, Hq; reflexivity |].
      split; [discriminate |]. split; [simpl; rewrite Hb, Hf; reflexivity |].
      split; [left; reflexivity | exact Heol].
  - intros (queue & flow & rest & nl & -> & Hq0 & Hq & Hf0 & Hf & Hrest & Hnl).
    destruct queue as [| a q]; [contradiction |].
    destruct flow as [| b f]; [contradiction |].
    simpl in Hq, Hf.
    apply andb_prop in Hq. destruct Hq as [Ha Hq].
    apply andb_prop in Hf. destruct Hf as [Hb Hf].
    change (String a q +:+ ":" +:+ String b f +:+ rest +:+ nl)
      with (String a (q +:+ String ":" (String b (f +:+ rest +:+ nl)))).
    unfold scan_id. rewrite Ha. simpl andb.
    destruct (take_while_append dash_alnum q
                (String ":" (String b (f +:+ rest +:+ nl))) Hq eq_refl)
      as [_ ->].
    rewrite bool_decide_eq_true_2 by reflexivity. rewrite Hb. simpl andb.
    assert (Hz : take_while isalnum (rest +:+ nl) = EmptyString).
    { destruct Hrest as [-> | (suffix & -> & _)];
        [apply take_while_eol; [reflexivity | exact Hnl] | reflexivity]. }
    destruct (take_while_append isalnum f (rest +:+ nl) Hf Hz) as [_ ->].
    destruct Hrest as [-> | (suffix & -> & Hs0 & Hs)].
    + rewrite append_nil_l, Hnl. apply orb_true_r.
    + destruct suffix as [| b2 s2]; [contradiction |].
      simpl in Hs. apply andb_prop in Hs. destruct Hs as [Hb2 Hs].
      change ((":" +:+ String b2 s2) +:+ nl)
        with (String ":" (String b2 (s2 +:+ nl))).
      unfold suffix_ok. rewrite bool_decide_eq_true_2 by reflexivity.
      rewrite Hb2. simpl andb.
      destruct (take_while_append isalnum s2 nl Hs
                  (take_while_eol isalnum nl eq_refl Hnl)) as [_ ->].
      rewrite Hnl. reflexivity.
Qed.

Lemma scan_id_accepted (id : string) :
  scan_id id = true <-> accepted_id id.
Proof.
  rewrite scan_id_iff. unfold accepted_id, session_id. split.
  - intros (queue & flow & rest & nl & -> & Hq0 & Hq & Hf0 & Hf & Hrest & Hnl).
    apply at_eol_iff in Hnl. destruct Hnl as [-> | ->].
    + left. exists queue, flow, rest. rewrite append_nil_r.
      intuition auto.
    + right. exists (queue +:+ ":" +:+ flow +:+ rest). split.
      * rewrite !append_assoc. reflexivity.
      * exists queue, flow, rest. intuition auto.
  - intros [(queue & flow & rest & -> & H)
           | (id' & -> & queue & flow & rest & -> & H)].
    + exists queue, flow, rest, EmptyString. rewrite append_nil_r.
      intuition auto.
    + exists queue, flow, rest, (String Re.newline EmptyString).
      rewrite !append_assoc. intuition auto.
Qed.

(** [ValidateID] raises [ValueError] exactly on the identifiers outside
    the grammar. *)
Lemma ValidateID_spec (id : string) :
  (accepted_id id -> SessionID_ValidateID id = Ok tt)
  /\ (~ accepted_id id -> SessionID_ValidateID id = Raise ValueError).
Proof.
  rewrite ValidateID_scan. rewrite <- scan_id_accepted.
  destruct (scan_id id); split; intros H; try reflexivity;
    [exfalso; apply H; reflexivity | discriminate H].
Qed.

End SessionIDGrammar.

Lemma contains_append (c : ascii) (u v : string) :
  contains c (u +:+ v) = contains c u || contains c v.
Proof.
  induction u as [| a u IH]; [reflexivity |].
  rewrite append_cons. simpl. rewrite IH, orb_assoc. reflexivity.
Qed.

(** C2 (amended). A text initializer is not validated: [SessionID] of a
    text is the path value of the normalized text, whatever its last segment.
    An initializer that is a path value is validated: the construction
    succeeds, with the path of the initializer, when its last segment is a
    queue of letters, digits and dashes, a colon, a flow name of letters and
    digits and possibly a colon and a suffix of letters and digits (one final
    newline is tolerated), and raises [InitializeError] otherwise. *)
Theorem SessionID_init_spec (e : env) (age : option age_t) :
  (forall s : string,
     exists p,
       RDFURN_ParseFromString s = Ok p
       /\ SessionID___init__ e (Some (OStr s)) age
          = Ok (RDFValue___init__ SessionID p age))
  /\ (forall u : value,
        is_RDFURN (kind_of u) = true ->
        (accepted_id (RDFURN_Basename u) ->
         SessionID___init__ e (Some (OValue u)) age
         = Ok (RDFValue___init__ SessionID (Path (RDFURN_Path u)) age))
        /\ (~ accepted_id (RDFURN_Basename u) ->
            SessionID___init__ e (Some (OValue u)) age
            = Raise InitializeError)).
Proof.
  split.
  - intros s. eexists. split; reflexivity.
  - intros u Hu. unfold SessionID___init__. rewrite Hu.
    destruct (ValidateID_spec (RDFURN_Basename u)) as [Hok Hbad].
    split; intros H.
    + rewrite (Hok H). simpl. rewrite Hu. reflexivity.
    + rewrite (Hbad H). reflexivity.
Qed.

(** The examples of the spec, with the initializer wrapped in a path value:
    [aff4:/flows/W:ABCDEF] is accepted, [aff4:/flows/bad id] is refused. *)
Lemma SessionID_init_spec_witness :
  (exists u,
     RDFURN___init__ RDFURN (Some (OStr "aff4:/flows/W:ABCDEF")) None = Ok u
     /\ SessionID___init__ example_env (Some (OValue u)) None
        = Ok (RDFValue___init__ SessionID (Path "/flows/W:ABCDEF") None))
  /\ (exists u,
        RDFURN___init__ RDFURN (Some (OStr "aff4:/flows/bad id")) None = Ok u
        /\ SessionID___init__ example_env (Some (OValue u)) None
           = Raise InitializeError).
Proof.
  destruct (SessionID_init_spec example_env None) as [_ H].
  split; eexists; (split; [reflexivity |]).
  - match goal with
    | |- SessionID___init__ _ (Some (OValue ?u)) _ = _ =>
        destruct (H u eq_refl) as [Hok _]
    end.
    apply Hok. apply scan_id_accepted. reflexivity.
  - match goal with
    | |- SessionID___init__ _ (Some (OValue ?u)) _ = _ =>
        destruct (H u eq_refl) as [_ Hbad]
    end.
    apply Hbad. rewrite <- scan_id_accepted. discriminate.
Defined.

(** C2 (counterexample). The last segment of [aff4:/flows/bad id] is outside
    the grammar of the spec, yet [SessionID] of that text is built. *)
Lemma SessionID_text_not_validated :
  basename "aff4:/flows/bad id" = "bad id"
  /\ ~ session_id_of_spec "bad id"
  /\ SessionID___init__ example_env (Some (OStr "aff4:/flows/bad id")) None
     = Ok (RDFValue___init__ SessionID (Path "/flows/bad id") None).
Proof.
  split; [reflexivity |]. split; [| reflexivity].
  intros (queue & flow & rest & H & _).
  apply (f_equal (contains ":")) in H.
  rewrite !contains_append in H. simpl in H.
  rewrite orb_true_r in H. discriminate H.
Qed.

(** The dash: the grammar of the spec allows it in the flow name, the code
    only in the queue. *)
Example SessionID_dash_in_flow :
  session_id_of_spec "W:AB-CD"
  /\ exists u,
       RDFURN___init__ RDFURN (Some (OStr "aff4:/flows/W:AB-CD")) None = Ok u
       /\ SessionID___init__ example_env (Some (OValue u)) None
          = Raise InitializeError.
Proof.
  split.
  - exists "W", "AB-CD", EmptyString.
    repeat split; try discriminate; left; reflexivity.
  - eexists. split; reflexivity.
Qed.

(** ** Round trips of the wire form *)

Section IntegerText.

Lemma digits_of_uint (u : Decimal.uint) :
  all isdigit (NilEmpty.string_of_uint u) = true.
Proof. induction u; simpl; try rewrite IHu; reflexivity. Qed.

Lemma string_of_uint_nonempty (u : Decimal.uint) :
  u <> Decimal.Nil -> NilEmpty.string_of_uint u <> EmptyString.
Proof. destruct u; [contradiction | ..]; discriminate. Qed.

Lemma int_digits_of_uint (u : Decimal.uint) :
  u <> Decimal.Nil ->
  int_of_str (NilEmpty.string_of_uint u) = Some (Z.of_uint u)
  /\ int_digits (NilEmpty.string_of_uint u) = Some (Z.of_uint u).
Proof.
  intros Hu.
  destruct (int_of_digits _ (string_of_uint_nonempty u Hu) (digits_of_uint u))
    as (n & Hn & Hd).
  rewrite Hn, Hd.
  unfold int_digits in Hd.
  destruct (is_empty _); [discriminate Hd |].
  rewrite NilEmpty.usu in Hd. simpl in Hd. injection Hd as <-.
  split; reflexivity.
Qed.

Lemma to_int_nonnil (n : Z) :
  match Z.to_int n with
  | Decimal.Pos u | Decimal.Neg u => u <> Decimal.Nil
  end.
Proof.
  destruct n; simpl; [discriminate | ..]; apply Unsigned.to_uint_nonnil.
Qed.

(** [str] of an integer is never empty. *)
Lemma str_int_nonempty (n : Z) : is_empty (str_int n) = false.
Proof.
  unfold str_int. pose proof (to_int_nonnil n) as H.
  destruct (Z.to_int n) as [u | u]; simpl; [| reflexivity].
  destruct u; [contradiction | ..]; reflexivity.
Qed.

(** [int(str(n)) == n]. *)
Lemma int_of_str_int (n : Z) : int_of_str (str_int n) = Some n.
Proof.
  unfold str_int. pose proof (to_int_nonnil n) as Hnil.
  pose proof (DecimalZ.of_to n) as Hn.
  destruct (Z.to_int n) as [u | u]; simpl in Hn |- *.
  - destruct (int_digits_of_uint u Hnil) as [-> _]. rewrite Hn. reflexivity.
  - destruct (int_digits_of_uint u Hnil) as [_ Hd].
    pose proof (digits_of_uint u) as Hall.
    pose proof (string_of_uint_nonempty u Hnil) as Hne.
    unfold int_of_str.
    rewrite strip_no_space.
    + rewrite bool_decide_eq_false_2 by discriminate.
      rewrite bool_decide_eq_true_2 by reflexivity.
      destruct (NilEmpty.string_of_uint u) as [| a r] eqn:E;
        [contradiction |].
      assert (Ha : isdigit a = true)
        by (simpl in Hall; apply andb_prop in Hall; tauto).
      destruct (digit_not_space a Ha) as (Hsp & _).
      apply negb_true_iff in Hsp. simpl lstrip. rewrite Hsp, Hd.
      simpl. rewrite Hn. reflexivity.
    + simpl. eapply all_impl; [| exact Hall].
      intros a Ha. apply (digit_not_space a Ha).
Qed.

Lemma last_char_snoc (u : string) (c : ascii) :
  last_char (u +:+ String c EmptyString) = Some c
  /\ drop_last (u +:+ String c EmptyString) = u.
Proof.
  induction u as [| a u [IH1 IH2]]; [split; reflexivity |].
  rewrite append_cons.
  destruct (u +:+ String c EmptyString) as [| b w] eqn:E.
  - destruct u; discriminate E.
  - split; [exact IH1 |]. simpl. simpl in IH2. rewrite IH2. reflexivity.
Qed.

(** A duration parses its canonical text back to its payload. *)
Lemma Duration_round_trip (self : value) (n : Z) (a : age_t) (d : bool) :
  exists s,
    Duration_SerializeToString (number Duration n a d) = Ok s
    /\ Duration_ParseFromString self s = Ok (Number n).
Proof.
  destruct (Duration_scan_first n Duration_DIVIDERS)
    as (before & label & divider & after & Hsplit & _ & Hmod & Hscan).
  { exists "s", 1. split; [simpl; tauto | apply Z.mod_1_r]. }
  assert (Hin : In (label, divider) Duration_DIVIDERS)
    by (rewrite Hsplit; apply in_or_app; right; left; reflexivity).
  exists (str_int (n / divider) +:+ label). split.
  { unfold Duration_SerializeToString, Duration___str__.
    change (_value (number Duration n a d)) with n.
    rewrite Hscan. reflexivity. }
  assert (Hlabel : exists c,
             label = String c EmptyString /\ In c unit_suffixes
             /\ lookup_divider (String c EmptyString) Duration_DIVIDERS
                = Some divider /\ divider <> 0).
  { simpl in Hin.
    repeat (destruct Hin as [[= <- <-] | Hin];
            [eexists; repeat split; [simpl; tauto | discriminate] |]).
    destruct Hin. }
  destruct Hlabel as (c & -> & Hc & Hlook & Hnz).
  unfold Duration_ParseFromString, Duration_ParseFromHumanReadable.
  destruct (last_char_snoc (str_int (n / divider)) c) as [-> ->].
  destruct (lookup_divider_Some c Hc) as [-> _]. rewrite Hlook.
  cbn [bind]. unfold int_str. rewrite int_of_str_int. cbn.
  do 2 f_equal. apply Z.div_exact in Hmod; [lia | exact Hnz].
Qed.

End IntegerText.

Section Utf8.

Lemma code_chr (n : Z) : 0 <= n < 256 -> code (chr n) = n.
Proof.
  intros Hn. unfold code, chr.
  rewrite N_ascii_embedding by lia. lia.
Qed.

Lemma cont_spec (n : Z) :
  is_cont (cont_byte n) = true /\ low_bits (cont_byte n) = n mod 64.
Proof.
  unfold is_cont, low_bits, cont_byte.
  pose proof (Z.mod_pos_bound n 64 ltac:(lia)) as Hm.
  rewrite code_chr by lia. split; lia.
Qed.

(** The decoder reads back the code point the encoder wrote. *)
Lemma decode_encode_cp (cp : Z) (k : string) :
  scalar_value cp ->
  decode (encode_cp cp k) = (u <- decode k ;; Ok (cp :: u)).
Proof.
  intros Hcp. unfold encode_cp.
  assert (Hrange : 0 <= cp < 1114112) by (unfold scalar_value in Hcp; dlia).
  destruct (Z.ltb_spec cp 128) as [H1 | H1].
  { simpl. rewrite code_chr by dlia.
    destruct (Z.ltb_spec cp 128); [reflexivity | dlia]. }
  destruct (cont_spec cp) as [Hc0 Hp0].
  destruct (cont_spec (cp / 64)) as [Hc1 Hp1].
  destruct (cont_spec (cp / 4096)) as [Hc2 Hp2].
  destruct (Z.ltb_spec cp 2048) as [H2 | H2].
  { remember (chr (192 + cp / 64)) as c0 eqn:E0.
    assert (H0 : code c0 = 192 + cp / 64) by (subst c0; apply code_chr; dlia).
    clear E0. simpl. rewrite H0, Hc0, Hp0.
    destruct (Z.ltb_spec (192 + cp / 64) 128); [dlia |].
    destruct (Z.ltb_spec (192 + cp / 64) 194); [dlia |].
    destruct (Z.ltb_spec (192 + cp / 64) 224); [| dlia].
    replace ((192 + cp / 64 - 192) * 64 + cp mod 64) with cp by dlia.
    reflexivity. }
  destruct (Z.ltb_spec cp 65536) as [H3 | H3].
  { remember (chr (224 + cp / 4096)) as c0 eqn:E0.
    assert (H0 : code c0 = 224 + cp / 4096)
      by (subst c0; apply code_chr; dlia).
    clear E0. simpl. rewrite H0, Hc0, Hp0, Hc1, Hp1.
    destruct (Z.ltb_spec (224 + cp / 4096) 128); [dlia |].
    destruct (Z.ltb_spec (224 + cp / 4096) 194); [dlia |].
    destruct (Z.ltb_spec (224 + cp / 4096) 224); [dlia |].
    destruct (Z.ltb_spec (224 + cp / 4096) 240); [| dlia].
    replace ((224 + cp / 4096 - 224) * 4096 + (cp / 64) mod 64 * 64
             + cp mod 64) with cp by dlia.
    destruct (Z.leb_spec 2048 cp); [reflexivity | dlia]. }
  remember (chr (240 + cp / 262144)) as c0 eqn:E0.
  assert (H0 : code c0 = 240 + cp / 262144)
    by (subst c0; apply code_chr; dlia).
  clear E0. simpl. rewrite H0, Hc0, Hp0, Hc1, Hp1, Hc2, Hp2.
  destruct (Z.ltb_spec (240 + cp / 262144) 128); [dlia |].
  destruct (Z.ltb_spec (240 + cp / 262144) 194); [dlia |].
  destruct (Z.ltb_spec (240 + cp / 262144) 224); [dlia |].
  destruct (Z.ltb_spec (240 + cp / 262144) 240); [dlia |].
  destruct (Z.ltb_spec (240 + cp / 262144) 245); [| dlia].
  replace ((240 + cp / 262144 - 240) * 262144 + (cp / 4096) mod 64 * 4096
           + (cp / 64) mod 64 * 64 + cp mod 64) with cp by dlia.
  destruct (Z.leb_spec 65536 cp); [| dlia].
  destruct (Z.ltb_spec cp 1114112); [reflexivity | dlia].
Qed.

(** [u.encode().decode() == u] for a text of scalar values. *)
Lemma decode_encode (u : unicode) :
  Forall scalar_value u -> decode (encode u) = Ok u.
Proof.
  induction 1 as [| cp u Hcp _ IH]; [reflexivity |].
  simpl encode. rewrite (decode_encode_cp cp _ Hcp), IH. reflexivity.
Qed.

End Utf8.

Section Paths.

Variable sep : ascii.

Lemma split_nonempty (s : string) : split sep s <> [].
Proof.
  destruct s as [| c r]; simpl; [discriminate |].
  destruct (bool_decide (c = sep)); [discriminate |].
  destruct (split sep r); discriminate.
Qed.

Lemma split_no_sep (s : string) :
  Forall (fun f => contains sep f = false) (split sep s).
Proof.
  induction s as [| c r IH]; simpl; [repeat constructor |].
  destruct (bool_decide (c = sep)) eqn:E; [constructor; [reflexivity | exact IH] |].
  destruct (split sep r) as [| f fs]; [repeat constructor; simpl; rewrite E; reflexivity |].
  inversion IH as [| ? ? Hf Hfs]; subst.
  constructor; [simpl; rewrite E, Hf; reflexivity | exact Hfs].
Qed.

Lemma split_plain (s : string) :
  contains sep s = false -> split sep s = [s].
Proof.
  induction s as [| c r IH]; simpl; [reflexivity |].
  intros H. apply orb_false_elim in H. destruct H as [Hc Hr].
  rewrite Hc, (IH Hr). reflexivity.
Qed.

Lemma split_append (u v : string) :
  contains sep u = false ->
  split sep (u +:+ String sep v) = u :: split sep v.
Proof.
  induction u as [| c r IH]; intros H.
  - rewrite append_nil_l. simpl.
    rewrite bool_decide_eq_true_2 by reflexivity. reflexivity.
  - simpl in H. apply orb_false_elim in H. destruct H as [Hc Hr].
    rewrite append_cons. simpl. rewrite Hc, (IH Hr). reflexivity.
Qed.

Lemma split_join (segs : list string) :
  segs <> [] ->
  Forall (fun f => contains sep f = false) segs ->
  split sep (join (String sep EmptyString) segs) = segs.
Proof.
  induction segs as [| f [| g rest] IH]; intros Hne Hall.
  - contradiction.
  - inversion Hall; subst. apply split_plain. assumption.
  - inversion Hall as [| ? ? Hf Hrest]; subst.
    change (join (String sep EmptyString) (f :: g :: rest))
      with (f +:+ String sep (join (String sep EmptyString) (g :: rest))).
    rewrite (split_append _ _ Hf), IH; [reflexivity | discriminate | exact Hrest].
Qed.

End Paths.

Section Normalize.

Lemma Forall_tail {A} (P : A -> Prop) (l : list A) :
  Forall P l -> Forall P (tail l).
Proof. destruct 1; [constructor | assumption]. Qed.

(** What [collapse] keeps are normal segments. *)
Lemma collapse_normal_segments (segments kept : list string) :
  Forall (fun f => contains "/" f = false) segments ->
  Forall normal_segment kept ->
  Forall normal_segment (utils.collapse segments kept).
Proof.
  revert kept. induction segments as [| seg rest IH]; intros kept Hs Hk.
  - simpl. apply List.Forall_rev. exact Hk.
  - inversion Hs as [| ? ? Hseg Hrest]; subst. simpl.
    destruct (bool_decide (seg = EmptyString)) eqn:E1; [apply IH; assumption |].
    destruct (bool_decide (seg = ".")) eqn:E2; [apply IH; assumption |].
    simpl. destruct (bool_decide (seg = "..")) eqn:E3.
    + apply IH; [assumption | apply Forall_tail; assumption].
    + apply IH; [assumption |]. constructor; [| assumption].
      apply bool_decide_eq_false in E1, E2, E3. repeat split; assumption.
Qed.

(** Normal segments go through [collapse] unchanged. *)
Lemma collapse_of_normal (segments kept : list string) :
  Forall normal_segment segments ->
  utils.collapse segments kept = (rev kept ++ segments)%list.
Proof.
  revert kept. induction segments as [| seg rest IH]; intros kept Hs.
  - simpl. rewrite app_nil_r. reflexivity.
  - inversion Hs as [| ? ? (H1 & H2 & H3 & _) Hrest]; subst. simpl.
    rewrite !bool_decide_eq_false_2 by assumption. simpl.
    rewrite (IH _ Hrest). simpl. rewrite <- app_assoc. reflexivity.
Qed.

(** Normalizing a normalized path changes nothing. *)
Lemma NormalizePath_idempotent (path : string) :
  utils.NormalizePath (utils.NormalizePath path) = utils.NormalizePath path.
Proof.
  unfold utils.NormalizePath.
  pose proof (collapse_normal_segments (split "/" path) []
                (split_no_sep "/" path) (List.Forall_nil _)) as Hn.
  set (segs := utils.collapse (split "/" path) []) in *.
  f_equal. f_equal.
  change (split "/" (String "/" (join "/" segs)))
    with (EmptyString :: split "/" (join "/" segs)).
  change (utils.collapse (EmptyString :: split "/" (join "/" segs)) [])
    with (utils.collapse (split "/" (join "/" segs)) []).
  destruct segs as [| f fs] eqn:E; [reflexivity |].
  rewrite split_join.
  - apply (collapse_of_normal _ [] Hn).
  - discriminate.
  - eapply List.Forall_impl; [| exact Hn]. intros seg Hseg. apply Hseg.
Qed.

(** A path value whose path is normalized parses its wire form back. *)
Lemma RDFURN_round_trip (path : string) :
  RDFURN_ParseFromString ("aff4:" +:+ utils.NormalizePath path)
  = Ok (Path (utils.NormalizePath path)).
Proof.
  unfold RDFURN_ParseFromString.
  assert (Hstart : startswith ("aff4:" +:+ utils.NormalizePath path) "aff4:/"
                   = true) by reflexivity.
  rewrite Hstart.
  change (drop 5 ("aff4:" +:+ utils.NormalizePath path))
    with (utils.NormalizePath path).
  rewrite NormalizePath_idempotent. reflexivity.
Qed.

End Normalize.

(** A path value built from a text, and a path value after
    [ParseFromString], hold a normalized path. *)
Lemma RDFURN_of_text_normalized (k : kind) (text : string)
    (age : option age_t) (v : value) :
  RDFURN___init__ k (Some (OStr text)) age = Ok v -> normalized v.
Proof.
  unfold RDFURN___init__, RDFURN_ParseFromString. cbn [bind].
  intros [= <-] _. eexists. reflexivity.
Qed.

Lemma RDFURN_parsed_normalized (self v : value) (s : string) :
  is_RDFURN (kind_of self) = true ->
  ParseFromString self s = Ok v -> normalized v.
Proof.
  intros Hk. unfold ParseFromString.
  destruct (kind_of self); try discriminate Hk;
    unfold RDFURN_ParseFromString; cbn [bind];
    intros [= <-] _; eexists; reflexivity.
Qed.

Lemma construct_kind (e : env) (k : kind) (res : value) :
  construct e k = Ok res -> kind_of res = k.
Proof. destruct k; simpl; intros [= <-]; reflexivity. Qed.

Section WireForm.

(** Every class parses the wire form of a value back to its payload,
    whatever the instance that receives it. *)
Lemma round_trip (v res : value) :
  shaped v -> normalized v -> kind_of res = kind_of v ->
  exists s,
    SerializeToString v = Ok s
    /\ ParseFromString res s = Ok (set_payload res (payload_of v)).
Proof.
  destruct v as [k p a d], res as [kr pr ar dr].
  unfold shaped, normalized, SerializeToString, ParseFromString.
  simpl. intros Hshape Hnorm ->.
  destruct k, p; try contradiction;
    try (eexists; split; [reflexivity |];
         unfold RDFInteger_ParseFromString;
         rewrite str_int_nonempty; unfold int_str;
         rewrite int_of_str_int; reflexivity).
  - eexists. split; reflexivity.
  - eexists. split; [reflexivity |].
    unfold RDFString_ParseFromString. rewrite (decode_encode u Hshape).
    reflexivity.
  - destruct (Duration_round_trip
                {| kind_of := Duration; payload_of := pr; _age := ar;
                   dirty := dr |} n a d) as (s & Hs & Hp).
    exists s. split; [exact Hs |]. rewrite Hp. reflexivity.
  - destruct (Hnorm eq_refl) as [path Hpath].
    change (p = utils.NormalizePath path) in Hpath. subst p.
    exists ("aff4:" +:+ utils.NormalizePath path). split; [reflexivity |].
    rewrite RDFURN_round_trip. reflexivity.
  - destruct (Hnorm eq_refl) as [path Hpath].
    change (p = utils.NormalizePath path) in Hpath. subst p.
    exists ("aff4:" +:+ utils.NormalizePath path). split; [reflexivity |].
    rewrite RDFURN_round_trip. reflexivity.
Qed.

End WireForm.

(** C1 (amended). For each class (bytes, text, the integer classes, the two
    instants, durations, sizes, path values and session identifiers) and
    every value of it whose payload has the shape of the class (a text of
    Unicode scalar values, an integer) and, for the two path classes, whose
    path is normalized, the wire form is defined, and parsing it, into the
    value itself or into any instance of the class, gives a value equal to
    the first. *)
Theorem wire_round_trip (e : env) (v res : value) :
  shaped v -> normalized v -> kind_of res = kind_of v ->
  exists s,
    SerializeToString v = Ok s
    /\ ParseFromString res s = Ok (set_payload res (payload_of v))
    /\ eq_value (set_payload res (payload_of v)) v = true
    /\ ParseFromString v s = Ok v
    /\ (forall new,
          construct e (kind_of v) = Ok new ->
          FromSerializedString e (kind_of v) s
          = Ok (set_payload new (payload_of v))).
Proof.
  intros Hs Hn Hk.
  destruct (round_trip v res Hs Hn Hk) as (s & Hser & Hparse).
  destruct (round_trip v v Hs Hn eq_refl) as (s' & Hser' & Hparse').
  rewrite Hser in Hser'. injection Hser' as <-.
  exists s. repeat apply conj; try assumption.
  - unfold eq_value. apply bool_decide_eq_true. reflexivity.
  - rewrite Hparse'. destruct v; reflexivity.
  - intros new Hnew. unfold FromSerializedString. rewrite Hnew. cbn [bind].
    destruct (round_trip v new Hs Hn (construct_kind _ _ _ Hnew))
      as (s' & Hser' & Hparse'').
    rewrite Hser in Hser'. injection Hser' as <-. exact Hparse''.
Qed.

(** A session identifier built from a text and a duration of ninety minutes
    go through their wire forms. *)
Lemma wire_round_trip_witness :
  let v := RDFValue___init__ SessionID (Path "/flows/W:ABCDEF") None in
  SessionID___init__ example_env (Some (OStr "aff4:/flows/W:ABCDEF")) None
  = Ok v
  /\ (exists s, SerializeToString v = Ok s /\ ParseFromString v s = Ok v)
  /\ (exists s,
        SerializeToString (built Duration 5400) = Ok s
        /\ ParseFromString (built Duration 0) s = Ok (built Duration 5400)).
Proof.
  intros v. split; [reflexivity |]. split.
  - destruct (wire_round_trip example_env v v) as (s & Hs & _ & _ & Hp & _);
      [exact I | intros _; exists "/flows/W:ABCDEF"; reflexivity
      | reflexivity |].
    exists s. split; assumption.
  - destruct (wire_round_trip example_env (built Duration 5400)
                (built Duration 0))
      as (s & Hs & Hp & _); [exact I | discriminate | reflexivity |].
    exists s. split; assumption.
Defined.

(** C1 (counterexample). [RDFURN()] has the empty path; its wire form is
    [aff4:], which parses to the path [/aff4:], so the parsed value differs
    from the value that was serialized. *)
Lemma RDFURN_default_round_trip_fails :
  let v := RDFValue___init__ RDFURN (Path EmptyString) None in
  construct example_env RDFURN = Ok v
  /\ SerializeToString v = Ok "aff4:"
  /\ FromSerializedString example_env RDFURN "aff4:"
     = Ok (set_payload v (Path "/aff4:"))
  /\ eq_value (set_payload v (Path "/aff4:")) v = false.
Proof. repeat apply conj; reflexivity. Qed.

(** ** [Copy] *)

Section CopyFacts.

Variable e : env.

(** The location a constructor call allocates is not in use. *)
Lemma alloc_new (h : gmap loc value) (o : value) :
  h !! (alloc h o).2 = None /\ (alloc h o).1 = <[(alloc h o).2 := o]> h.
Proof.
  unfold alloc. simpl. split; [| reflexivity].
  apply not_elem_of_dom. apply is_fresh.
Qed.

(** [RDFValue.Copy] on a class that does not override it: a new instance
    with the default age and the payload of [self]. *)
Lemma RDFValue_Copy_spec (self : value) :
  shaped self -> is_RDFURN (kind_of self) = false ->
  RDFValue_Copy e self
  = Ok (RDFValue___init__ (kind_of self) (payload_of self) None).
Proof.
  intros Hs Hk. unfold RDFValue_Copy.
  assert (Hc : exists res,
             construct e (kind_of self) = Ok res
             /\ kind_of res = kind_of self
             /\ _age res = InstanceAge RDFDatetime 0 /\ dirty res = false).
  { destruct (kind_of self); try discriminate Hk;
      eexists; repeat split; reflexivity. }
  destruct Hc as (res & -> & Hkind & Hage & Hdirty). cbn [bind].
  destruct (round_trip self res Hs) as (s & Hser & Hparse);
    [intros H; rewrite Hk in H; discriminate H | exact Hkind |].
  rewrite Hser. cbn [bind]. rewrite Hparse.
  destruct res as [kr pr ar dr]. simpl in *. subst. reflexivity.
Qed.

(** [RDFURN.Copy]: the path of [self], copied as it is, under the age
    given or the current time; a session identifier is validated anew. *)
Lemma RDFURN_Copy_spec (self : value) (n : Z) :
  shaped self -> is_RDFURN (kind_of self) = true ->
  (kind_of self = SessionID -> accepted_id (RDFURN_Basename self)) ->
  now_microseconds e = Ok n ->
  RDFURN_Copy e self None
  = Ok (RDFValue___init__ (kind_of self) (payload_of self)
          (Some (RawAge n))).
Proof.
  intros Hs Hk Hid Hnow. unfold RDFURN_Copy. rewrite Hnow. cbn [bind].
  destruct self as [k p a d]. simpl in *.
  destruct k; try discriminate Hk; destruct p; try contradiction.
  - reflexivity.
  - unfold SessionID___init__. simpl.
    destruct (ValidateID_spec (RDFURN_Basename
                {| kind_of := SessionID; payload_of := Path p; _age := a;
                   dirty := d |})) as [Hok _].
    rewrite (Hok (Hid eq_refl)). reflexivity.
Qed.

(** [Copy] places, at a location that was not in use, an instance of the
    class of [self] with the payload of [self]; the objects of the heap,
    [self] among them, are as they were. *)
Lemma Copy_new_object (h : gmap loc value) (l : loc) (self : value) (n : Z) :
  h !! l = Some self -> shaped self ->
  (kind_of self = SessionID -> accepted_id (RDFURN_Basename self)) ->
  (is_RDFURN (kind_of self) = true -> now_microseconds e = Ok n) ->
  exists l' copy,
    Copy e h l = Ok (<[l' := copy]> h, l')
    /\ h !! l' = None /\ l' <> l
    /\ (<[l' := copy]> h) !! l = Some self
    /\ (if is_RDFURN (kind_of self) then RDFURN_Copy e self None
        else RDFValue_Copy e self) = Ok copy
    /\ copy = RDFValue___init__ (kind_of self) (payload_of self)
                (if is_RDFURN (kind_of self) then Some (RawAge n) else None).
Proof.
  intros Hl Hs Hid Hnow. unfold Copy. rewrite Hl.
  assert (Hcopy : exists copy,
             (if is_RDFURN (kind_of self) then RDFURN_Copy e self None
              else RDFValue_Copy e self) = Ok copy
             /\ copy = RDFValue___init__ (kind_of self) (payload_of self)
                         (if is_RDFURN (kind_of self) then Some (RawAge n)
                          else None)).
  { destruct (is_RDFURN (kind_of self)) eqn:Hk.
    - rewrite (RDFURN_Copy_spec self n Hs Hk Hid (Hnow eq_refl)).
      eexists. split; reflexivity.
    - rewrite (RDFValue_Copy_spec self Hs Hk). eexists. split; reflexivity. }
  destruct Hcopy as (copy & Hcopy & Hshape). rewrite Hcopy. cbn [bind].
  destruct (alloc_new h copy) as [Hnew Heq].
  exists (alloc h copy).2, copy.
  assert (Hne : (alloc h copy).2 <> l)
    by (intros E; rewrite E in Hnew; congruence).
  repeat apply conj; try assumption.
  - rewrite <- Heq. destruct (alloc h copy); reflexivity.
  - rewrite lookup_insert_ne by exact Hne. exact Hl.
  - reflexivity.
Qed.

End CopyFacts.

(** C3 (amended). For every value whose payload has the shape of its class
    (and, for a session identifier, whose last segment the validation
    accepts), [Copy] returns a new instance, at a location of its own, of the
    same class and with an equal payload: parsed from the wire form of the
    original for the classes that inherit [RDFValue.Copy], copied directly
    for the path classes. The original is untouched, also by whatever is
    later stored at the location of the copy. The age of the copy is not the
    age of the original: it is the default age, the instant of payload 0,
    for the former classes and the current time for the path classes. *)
Theorem Copy_spec (e : env) (h : gmap loc value) (l : loc) (self : value)
    (n : Z) :
  h !! l = Some self -> shaped self ->
  (kind_of self = SessionID -> accepted_id (RDFURN_Basename self)) ->
  (is_RDFURN (kind_of self) = true -> now_microseconds e = Ok n) ->
  exists l' copy,
    Copy e h l = Ok (<[l' := copy]> h, l')
    /\ h !! l' = None /\ l' <> l
    /\ (<[l' := copy]> h) !! l = Some self
    /\ (forall o, (<[l' := o]> (<[l' := copy]> h)) !! l = Some self)
    /\ kind_of copy = kind_of self
    /\ payload_of copy = payload_of self
    /\ eq_value copy self = true
    /\ (is_RDFURN (kind_of self) = false ->
        (exists res s,
           construct e (kind_of self) = Ok res
           /\ SerializeToString self = Ok s
           /\ ParseFromString res s = Ok copy)
        /\ _age copy = InstanceAge RDFDatetime 0)
    /\ (is_RDFURN (kind_of self) = true -> _age copy = RawAge n).
Proof.
  intros Hl Hs Hid Hnow.
  destruct (Copy_new_object e h l self n Hl Hs Hid Hnow)
    as (l' & copy & Hcopy & Hnew & Hne & Hold & Hmethod & Hshape).
  exists l', copy. repeat apply conj; try assumption.
  - intros o. rewrite lookup_insert_ne by exact Hne. exact Hold.
  - rewrite Hshape. reflexivity.
  - rewrite Hshape. reflexivity.
  - unfold eq_value. rewrite Hshape. apply bool_decide_eq_true. reflexivity.
  - intros Hk. rewrite Hk in Hmethod, Hshape. split; [| subst copy; reflexivity].
    unfold RDFValue_Copy in Hmethod.
    destruct (construct e (kind_of self)) as [res |]; [| discriminate Hmethod].
    cbn [bind] in Hmethod.
    destruct (SerializeToString self) as [s |]; [| discriminate Hmethod].
    exists res, s. auto.
  - intros Hk. rewrite Hk in Hshape. subst copy. reflexivity.
Qed.

(** A duration of one hour and a session identifier, each alone in the
    heap, are copied. *)
Lemma Copy_spec_witness :
  (exists l' copy,
     Copy example_env {[1%positive := built Duration 3600]} 1%positive
     = Ok (<[l' := copy]> {[1%positive := built Duration 3600]}, l')
     /\ l' <> 1%positive /\ payload_of copy = Number 3600)
  /\ (exists l' copy,
        Copy example_env
          {[1%positive := RDFValue___init__ SessionID (Path "/flows/W:ABCDEF") None]}
          1%positive
        = Ok (<[l' := copy]>
                {[1%positive := RDFValue___init__ SessionID (Path "/flows/W:ABCDEF") None]},
              l')
        /\ l' <> 1%positive /\ payload_of copy = Path "/flows/W:ABCDEF"
        /\ _age copy = RawAge 1700000000500000).
Proof.
  split.
  - destruct (Copy_spec example_env {[1%positive := built Duration 3600]}
                1%positive (built Duration 3600) 0)
      as (l' & copy & Hcopy & _ & Hne & _ & _ & _ & Hpay & _).
    + apply lookup_singleton_eq.
    + exact I.
    + discriminate.
    + discriminate.
    + exists l', copy. auto.
  - destruct (Copy_spec example_env
                {[1%positive := RDFValue___init__ SessionID (Path "/flows/W:ABCDEF") None]}
                1%positive (RDFValue___init__ SessionID (Path "/flows/W:ABCDEF") None)
                1700000000500000)
      as (l' & copy & Hcopy & _ & Hne & _ & _ & _ & Hpay & _ & _ & Hage).
    + apply lookup_singleton_eq.
    + exact I.
    + intros _. apply scan_id_accepted. reflexivity.
    + intros _. vm_compute. reflexivity.
    + exists l', copy. repeat split; auto.
Defined.

(** C3 (counterexample). An integer value of age 100 has a copy with the
    same payload and the default age, the instant of payload 0. *)
Lemma Copy_drops_age :
  let self := number RDFInteger 5 (InstanceAge RDFDatetime 100) false in
  exists copy,
    RDFValue_Copy example_env self = Ok copy
    /\ is_RDFURN (kind_of self) = false
    /\ payload_of copy = payload_of self
    /\ (age self).2 = 100
    /\ (age copy).2 = 0.
Proof. eexists. repeat apply conj; reflexivity. Qed.

(** * Further properties *)

(** ** Instants and whole seconds *)

Lemma FromSecondsSinceEpoch_Int (k : kind) (n : Z) :
  RDFDatetime_FromSecondsSinceEpoch k (Int n) = Ok (built k (n * converter k)).
Proof. reflexivity. Qed.

Lemma converter_pos (k : kind) : 0 < converter k.
Proof. destruct k; reflexivity. Qed.

(** X1. For both instant classes, [FromSecondsSinceEpoch] of an integer
    number of seconds is the instant of that many seconds, which
    [AsSecondsSinceEpoch] reads back. In the other direction the instant made
    of the whole seconds of an instant [t] is at or below [t], less than one
    second below it, and has the same whole seconds; negative payloads are
    rounded towards minus infinity. *)
Theorem seconds_round_trip (k : kind) (n : Z) (t : value) :
  is_RDFDatetime k = true ->
  kind_of t = k ->
  RDFDatetime_FromSecondsSinceEpoch k (Int n)
  = Ok (built k (n * converter k))
  /\ AsSecondsSinceEpoch (built k (n * converter k)) = n
  /\ exists t',
       RDFDatetime_FromSecondsSinceEpoch k (Int (AsSecondsSinceEpoch t))
       = Ok t'
       /\ kind_of t' = k
       /\ _value t' <= _value t < _value t' + converter k
       /\ AsSecondsSinceEpoch t' = AsSecondsSinceEpoch t.
Proof.
  intros _ Hk. pose proof (converter_pos k) as Hc.
  split; [reflexivity |]. split.
  - change (n * converter k / converter k = n). apply Z.div_mul. lia.
  - eexists. split; [reflexivity |]. split; [reflexivity |].
    unfold AsSecondsSinceEpoch, built, _value. rewrite Hk.
    cbn [kind_of payload_of RDFValue___init__].
    split; [| apply Z.div_mul; lia].
    fold (_value t).
    pose proof (Z.div_mod (_value t) (converter k)) as Hd.
    pose proof (Z.mod_pos_bound (_value t) (converter k) Hc). lia.
Qed.

(** Two seconds before the epoch, and an instant one and a half seconds
    before it, whose whole seconds are -2. *)
Lemma seconds_round_trip_witness :
  RDFDatetime_FromSecondsSinceEpoch RDFDatetime (Int (-2))
  = Ok (built RDFDatetime (-2000000))
  /\ exists t',
       RDFDatetime_FromSecondsSinceEpoch RDFDatetime
         (Int (AsSecondsSinceEpoch (built RDFDatetime (-1500000)))) = Ok t'
       /\ _value t' <= -1500000 < _value t' + 1000000.
Proof.
  destruct (seconds_round_trip RDFDatetime (-2) (built RDFDatetime (-1500000))
              eq_refl eq_refl) as (H1 & _ & t' & H2 & _ & H3 & _).
  split; [exact H1 |]. exists t'. split; [exact H2 | exact H3].
Defined.

(** X2. [Floor] raises [TypeError] for an interval that is not a
    [Duration] (a number, a text, a value of another class) and
    [ZeroDivisionError] for a [Duration] of zero seconds. *)
Theorem Floor_faults (self : value) (interval : pyobj) :
  ((forall i, interval = OValue i -> kind_of i <> Duration) ->
   RDFDatetime_Floor self interval = Raised TypeError)
  /\ (forall i, interval = OValue i -> kind_of i = Duration -> _value i = 0 ->
      RDFDatetime_Floor self interval = RaisedBuiltin ZeroDivisionError).
Proof.
  split.
  - intros H. destruct interval as [x | s | i]; try reflexivity.
    simpl. rewrite bool_decide_eq_false_2; [reflexivity | exact (H i eq_refl)].
  - intros i -> Hk Hz. simpl. rewrite bool_decide_eq_true_2 by exact Hk.
    unfold floordiv, Duration_seconds. rewrite Hz. reflexivity.
Qed.

Lemma Floor_Duration (self i : value) :
  kind_of i = Duration -> _value i <> 0 ->
  RDFDatetime_Floor self (OValue i)
  = Returned (built (kind_of self)
                (AsSecondsSinceEpoch self / _value i * _value i
                 * converter (kind_of self))).
Proof.
  intros Hk Hs. unfold RDFDatetime_Floor.
  rewrite bool_decide_eq_true_2 by exact Hk.
  unfold floordiv, Duration_seconds.
  destruct (Z.eqb_spec (_value i) 0) as [E | _]; [contradiction |].
  reflexivity.
Qed.

Lemma AsSecondsSinceEpoch_built (k : kind) (n : Z) :
  AsSecondsSinceEpoch (built k (n * converter k)) = n.
Proof.
  change (n * converter k / converter k = n). apply Z.div_mul.
  pose proof (converter_pos k). lia.
Qed.

(** X3. For an instant and a [Duration] of [s] seconds, [s] not zero,
    [Floor] returns an instant of the same class whose whole seconds are a
    multiple of [s]; flooring it again changes nothing. For a positive [s]
    the result is at or below the instant and less than [s] seconds below it;
    for a negative [s] the whole seconds are rounded up instead. *)
Theorem Floor_spec (self i : value) :
  is_RDFDatetime (kind_of self) = true ->
  kind_of i = Duration ->
  _value i <> 0 ->
  let s := _value i in
  exists r,
    RDFDatetime_Floor self (OValue i) = Returned r
    /\ kind_of r = kind_of self
    /\ AsSecondsSinceEpoch r = AsSecondsSinceEpoch self / s * s
    /\ AsSecondsSinceEpoch r mod s = 0
    /\ RDFDatetime_Floor r (OValue i) = Returned r
    /\ (0 < s ->
        _value r <= _value self < _value r + s * converter (kind_of self))
    /\ (s < 0 ->
        AsSecondsSinceEpoch self <= AsSecondsSinceEpoch r
        < AsSecondsSinceEpoch self - s).
Proof.
  intros _ Hk Hs s.
  pose proof (converter_pos (kind_of self)) as Hc.
  rewrite (Floor_Duration self i Hk Hs). fold s.
  set (a := AsSecondsSinceEpoch self).
  eexists. split; [reflexivity |]. split; [reflexivity |].
  rewrite AsSecondsSinceEpoch_built.
  split; [reflexivity |]. split; [apply Z.mod_mul; exact Hs |]. split.
  - rewrite (Floor_Duration _ i Hk Hs). fold s.
    change (kind_of (built (kind_of self) ?m)) with (kind_of self).
    rewrite AsSecondsSinceEpoch_built.
    rewrite (Z.div_mul _ _ Hs). reflexivity.
  - change (_value (built (kind_of self) ?m)) with m.
    pose proof (Z.div_mod (_value self) (converter (kind_of self))) as Hp.
    pose proof (Z.mod_pos_bound (_value self) (converter (kind_of self)) Hc)
      as Hpr.
    fold (AsSecondsSinceEpoch self) in Hp. fold a in Hp.
    pose proof (Z.div_mod a s Hs) as Ha.
    split.
    + intros Hpos. pose proof (Z.mod_pos_bound a s Hpos) as Har. nia.
    + intros Hneg. pose proof (Z.mod_neg_bound a s Hneg) as Har. lia.
Qed.

(** 3725.5 seconds floored to the hour. *)
Lemma Floor_spec_witness :
  exists r,
    RDFDatetime_Floor (built RDFDatetime 3725500000)
      (OValue (built Duration 3600)) = Returned r
    /\ AsSecondsSinceEpoch r = 3600
    /\ RDFDatetime_Floor r (OValue (built Duration 3600)) = Returned r.
Proof.
  destruct (Floor_spec (built RDFDatetime 3725500000) (built Duration 3600)
              eq_refl eq_refl) as (r & H1 & _ & H2 & _ & H3 & _);
    [discriminate |].
  exists r. split; [exact H1 |]. split; [exact H2 | exact H3].
Defined.

(** X4. [Expiry] with a base instant of either class returns an
    [RDFDatetime] (microseconds) at the whole seconds of the base plus the
    seconds of the duration: the part of the base below one second is
    dropped, so for a base of class [RDFDatetime] the sum [base + duration]
    is the expiry plus that part. Without a base, the base is the current
    time. *)
Theorem Expiry_spec (e : env) (d b : value) :
  is_RDFDatetime (kind_of b) = true ->
  shaped b ->
  let expiry :=
    built RDFDatetime ((AsSecondsSinceEpoch b + _value d) * MICROSECONDS) in
  Duration_Expiry e d (Some (OValue b)) = Ok expiry
  /\ AsSecondsSinceEpoch expiry = AsSecondsSinceEpoch b + _value d
  /\ (kind_of b = RDFDatetime -> kind_of d = Duration ->
      RDFDatetime___add__ b (OValue d)
      = Ok (Some (built RDFDatetime
                    (_value expiry + _value b mod MICROSECONDS))))
  /\ (forall now,
        RDFDatetime_Now RDFDatetime e = Ok now ->
        Duration_Expiry e d None
        = Ok (built RDFDatetime
                ((_value now / MICROSECONDS + _value d) * MICROSECONDS))).
Proof.
  intros Hb Hs expiry. repeat apply conj.
  - unfold Duration_Expiry.
    assert (Hu : is_RDFURN (kind_of b) = false)
      by (destruct (kind_of b); try discriminate Hb; reflexivity).
    rewrite Hu, (RDFValue_Copy_spec e b Hs Hu). cbn [bind].
    change (kind_of (RDFValue___init__ ?k _ _)) with k. rewrite Hb.
    reflexivity.
  - apply (AsSecondsSinceEpoch_built RDFDatetime).
  - intros Hk Hd. unfold RDFDatetime___add__, number_or_duration.
    rewrite bool_decide_eq_true_2 by exact Hd.
    unfold scaled, Duration___mul__. rewrite Hk. cbn.
    unfold built. do 4 f_equal.
    unfold AsSecondsSinceEpoch. rewrite Hk.
    change (converter RDFDatetime) with MICROSECONDS.
    pose proof (Z.div_mod (_value b) MICROSECONDS). unfold MICROSECONDS in *.
    lia.
  - intros now Hnow. unfold Duration_Expiry. rewrite Hnow. cbn [bind].
    assert (Hk : kind_of now = RDFDatetime).
    { unfold RDFDatetime_Now in Hnow.
      destruct (mul _ _) as [x |]; [| discriminate Hnow].
      cbn [bind] in Hnow.
      destruct (int x) as [n |]; [| discriminate Hnow].
      injection Hnow as <-. reflexivity. }
    rewrite Hk. unfold AsSecondsSinceEpoch. rewrite Hk. reflexivity.
Qed.

(** Ninety seconds after an instant in seconds, and after the current
    time of the examples. *)
Lemma Expiry_spec_witness :
  Duration_Expiry example_env (built Duration 90)
    (Some (OValue (built RDFDatetimeSeconds 1000)))
  = Ok (built RDFDatetime 1090000000)
  /\ Duration_Expiry example_env (built Duration 90) None
     = Ok (built RDFDatetime 1700000090000000).
Proof.
  destruct (Expiry_spec example_env (built Duration 90)
              (built RDFDatetimeSeconds 1000) eq_refl I)
    as (H1 & _ & _ & H2).
  split; [exact H1 |]. apply (H2 (built RDFDatetime 1700000000500000)).
  reflexivity.
Defined.

(** X5. For two instants of one class, adding to the first the difference
    [t2 - t1] (a [Duration] of whole seconds) gives an instant with the whole
    seconds of [t2] and the part below one second of [t1]; adding an integer
    number of seconds and subtracting it again gives the payload back. *)
Theorem instant_add_sub (t1 t2 : value) (n : Z) :
  is_RDFDatetime (kind_of t1) = true ->
  kind_of t2 = kind_of t1 ->
  let k := kind_of t1 in
  (exists d r,
     RDFDatetime___sub__ t2 (OValue t1) = Ok (Some d)
     /\ kind_of d = Duration
     /\ RDFDatetime___add__ t1 (OValue d) = Ok (Some r)
     /\ kind_of r = k
     /\ AsSecondsSinceEpoch r = AsSecondsSinceEpoch t2
     /\ _value r mod converter k = _value t1 mod converter k)
  /\ (exists r r',
        RDFDatetime___add__ t1 (ONum (Int n)) = Ok (Some r)
        /\ RDFDatetime___sub__ r (ONum (Int n)) = Ok (Some r')
        /\ r' = built k (_value t1)).
Proof.
  intros Hk1 Hk2 k. pose proof (converter_pos k) as Hc. split.
  - assert (Hnd : number_or_duration (OValue t1) = false)
      by (unfold number_or_duration; apply bool_decide_eq_false;
          intros E; rewrite E in Hk1; discriminate Hk1).
    unfold RDFDatetime___sub__. rewrite Hnd, Hk1.
    eexists. eexists. split; [reflexivity |]. split; [reflexivity |].
    unfold RDFDatetime___add__, number_or_duration, Duration___init__.
    cbn [kind_of RDFValue___init__].
    rewrite bool_decide_eq_true_2 by reflexivity.
    unfold scaled, Duration___mul__. cbn.
    split; [reflexivity |]. split; [reflexivity |].
    unfold AsSecondsSinceEpoch. cbn [kind_of _value payload_of].
    rewrite Hk2. fold k.
    change (((_value t2 / converter k - _value t1 / converter k)
             * converter k + _value t1) / converter k
            = _value t2 / converter k
            /\ ((_value t2 / converter k - _value t1 / converter k)
                * converter k + _value t1) mod converter k
               = _value t1 mod converter k).
    generalize dependent (converter k). intros c Hc.
    generalize (_value t1) (_value t2). intros a b.
    pose proof (Z.div_mod a c ltac:(lia)).
    pose proof (Z.mod_pos_bound a c Hc).
    replace ((b / c - a / c) * c + a) with (a mod c + (b / c) * c) by lia.
    split; [| rewrite Z.mod_add by lia; apply Z.mod_mod; lia].
    rewrite Z.div_add by lia. rewrite Z.div_small by lia. lia.
  - eexists. eexists. split; [reflexivity |].
    unfold RDFDatetime___sub__. cbn. split; [reflexivity |].
    unfold built. fold k. do 2 f_equal. lia.
Qed.

(** From 1.9 s to 7.25 s there are 6 whole seconds; 1.9 s plus 6 s is
    7.9 s. *)
Lemma instant_add_sub_witness :
  exists d r,
    RDFDatetime___sub__ (built RDFDatetime 7250000)
      (OValue (built RDFDatetime 1900000)) = Ok (Some d)
    /\ RDFDatetime___add__ (built RDFDatetime 1900000) (OValue d)
       = Ok (Some r)
    /\ _value d = 6 /\ _value r = 7900000.
Proof.
  destruct (instant_add_sub (built RDFDatetime 1900000)
              (built RDFDatetime 7250000) 0 eq_refl eq_refl)
    as [(d & r & H1 & _ & H2 & _) _].
  exists d, r. split; [exact H1 |]. split; [exact H2 |].
  injection H1 as <-. injection H2 as <-. split; reflexivity.
Defined.

(** ** Texts of integers and durations *)

(** [str(n)]: an optional minus sign and decimal digits. *)
Lemma str_int_shape (n : Z) :
  exists sign digits,
    str_int n = sign +:+ digits
    /\ (sign = EmptyString \/ sign = "-")
    /\ digits <> EmptyString /\ all isdigit digits = true.
Proof.
  unfold str_int. pose proof (to_int_nonnil n) as Hnil.
  destruct (Z.to_int n) as [u | u]; simpl.
  - exists EmptyString, (NilEmpty.string_of_uint u).
    repeat split; [left; reflexivity | | apply digits_of_uint].
    apply string_of_uint_nonempty, Hnil.
  - exists "-", (NilEmpty.string_of_uint u).
    repeat split; [right; reflexivity | | apply digits_of_uint].
    apply string_of_uint_nonempty, Hnil.
Qed.

Lemma last_char_all (p : ascii -> bool) (s : string) :
  s <> EmptyString -> all p s = true ->
  exists c, last_char s = Some c /\ p c = true.
Proof.
  induction s as [| a r IH]; [contradiction |]. intros _ H.
  simpl in H. apply andb_prop in H. destruct H as [Ha Hr].
  destruct r as [| b r']; [exists a; split; [reflexivity | exact Ha] |].
  destruct (IH ltac:(discriminate) Hr) as (c & Hc & Hp).
  exists c. split; [exact Hc | exact Hp].
Qed.

Lemma last_char_str_int (n : Z) :
  exists c, last_char (str_int n) = Some c /\ isdigit c = true.
Proof.
  destruct (str_int_shape n) as (sign & digits & -> & _ & Hne & Hd).
  rewrite (last_char_append _ _ Hne). apply last_char_all; assumption.
Qed.

(** X6. The human-readable parser of [Duration] leaves the payload as it is
    on the empty text, reads the decimal text of any integer [n] (negative
    ones too) as [n] seconds, and reads that text followed by a unit of the
    table as [n] times the seconds of the unit. *)
Theorem Duration_parse_units (self : value) (n : Z) :
  Duration_ParseFromHumanReadable self EmptyString = Ok (payload_of self)
  /\ Duration_ParseFromHumanReadable self (str_int n) = Ok (Number n)
  /\ forall label divider,
       In (label, divider) Duration_DIVIDERS ->
       Duration_ParseFromHumanReadable self (str_int n +:+ label)
       = Ok (Number (n * divider)).
Proof.
  split; [reflexivity |]. split.
  - unfold Duration_ParseFromHumanReadable.
    destruct (last_char_str_int n) as (c & -> & ->). cbn [bind].
    unfold int_str. rewrite int_of_str_int. cbn. rewrite Z.mul_1_r.
    reflexivity.
  - intros label divider Hin.
    assert (Hlabel : exists c,
               label = String c EmptyString /\ In c unit_suffixes
               /\ lookup_divider (String c EmptyString) Duration_DIVIDERS
                  = Some divider).
    { simpl in Hin.
      repeat (destruct Hin as [[= <- <-] | Hin];
              [eexists; repeat split; simpl; tauto |]).
      destruct Hin. }
    destruct Hlabel as (c & -> & Hc & Hlook).
    unfold Duration_ParseFromHumanReadable.
    destruct (last_char_snoc (str_int n) c) as [-> ->].
    destruct (lookup_divider_Some c Hc) as [-> _]. rewrite Hlook.
    cbn [bind]. unfold int_str. rewrite int_of_str_int. reflexivity.
Qed.

Lemma RDFInteger_parse_str_int (n : Z) :
  RDFInteger_ParseFromString (str_int n) = Ok (Number n).
Proof.
  unfold RDFInteger_ParseFromString. rewrite str_int_nonempty.
  unfold int_str. rewrite int_of_str_int. reflexivity.
Qed.

(** X7. The constructor of [RDFInteger] and [RDFBool]: no initializer
    gives 0; a value of any integer class gives its payload (through the
    wire form when the classes are the same, through [int] otherwise); a
    value of another class raises [TypeError]; an integer is kept; a text is
    read by [int], so that a malformed text, the empty one included, raises
    [ValueError], although [ParseFromString] reads the empty text as 0. *)
Theorem RDFInteger_init_spec (k : kind) (age : option age_t) :
  k = RDFInteger \/ k = RDFBool ->
  let made n := Ok (RDFValue___init__ k (Number n) age) in
  RDFInteger___init__ k None age = made 0
  /\ (forall o,
        is_RDFInteger (kind_of o) = true ->
        RDFInteger___init__ k (Some (OValue o)) age = made (_value o))
  /\ (forall o,
        is_RDFInteger (kind_of o) = false ->
        RDFInteger___init__ k (Some (OValue o)) age = Raise TypeError)
  /\ (forall n, RDFInteger___init__ k (Some (ONum (Int n))) age = made n)
  /\ (forall n, RDFInteger___init__ k (Some (OStr (str_int n))) age = made n)
  /\ (forall s,
        int_of_str s = None ->
        RDFInteger___init__ k (Some (OStr s)) age = Raise ValueError)
  /\ RDFInteger___init__ k (Some (OStr EmptyString)) age = Raise ValueError
  /\ RDFInteger_ParseFromString EmptyString = Ok (Number 0).
Proof.
  intros Hk made. repeat apply conj; try reflexivity.
  - intros o Ho. unfold RDFInteger___init__.
    case_bool_decide as Hsame; [| rewrite Ho; reflexivity].
    assert (Hs : SerializeToString o = Ok (str_int (_value o)))
      by (unfold SerializeToString; rewrite Hsame;
          destruct Hk as [-> | ->]; reflexivity).
    rewrite Hs. cbn [bind]. rewrite RDFInteger_parse_str_int. reflexivity.
  - intros o Ho. unfold RDFInteger___init__.
    rewrite bool_decide_eq_false_2, Ho; [reflexivity |].
    intros E. rewrite E in Ho. destruct Hk as [-> | ->]; discriminate Ho.
  - intros n. unfold RDFInteger___init__, int_str.
    rewrite int_of_str_int. reflexivity.
  - intros s Hs. unfold RDFInteger___init__, int_str. rewrite Hs. reflexivity.
Qed.

(** [RDFBool(ByteSize(5))], [RDFBool(RDFBool(1))] and [RDFBool("abc")]. *)
Lemma RDFInteger_init_spec_witness :
  RDFInteger___init__ RDFBool (Some (OValue (built ByteSize 5))) None
  = Ok (built RDFBool 5)
  /\ RDFInteger___init__ RDFBool (Some (OValue (built RDFBool 1))) None
     = Ok (built RDFBool 1)
  /\ RDFInteger___init__ RDFBool (Some (OStr "abc")) None = Raise ValueError.
Proof.
  destruct (RDFInteger_init_spec RDFBool None (or_intror eq_refl))
    as (_ & H1 & _ & _ & _ & H2 & _).
  split; [apply (H1 (built ByteSize 5)); reflexivity |].
  split; [apply (H1 (built RDFBool 1)); reflexivity |].
  apply H2. reflexivity.
Defined.

Section BoolText.

Variable toupper : Z -> Z.

(** On the ASCII code points the upper-case mapping turns the 26 small
    letters into capitals and leaves the rest. *)
Hypothesis toupper_ascii :
  forall cp, 0 <= cp < 128 ->
  toupper cp = if (97 <=? cp) && (cp <=? 122) then cp - 32 else cp.

Lemma toupper_idem (cp : Z) :
  0 <= cp < 128 ->
  toupper (toupper cp) = toupper cp /\ 0 <= toupper cp < 128
  /\ (toupper cp = 48 -> cp = 48) /\ (toupper cp = 49 -> cp = 49).
Proof.
  intros H. rewrite (toupper_ascii cp H).
  destruct (Z.leb_spec 97 cp), (Z.leb_spec cp 122); simpl;
    rewrite toupper_ascii by lia;
    repeat split; try lia;
    destruct (Z.leb_spec 97 (cp - 32)), (Z.leb_spec (cp - 32) 122);
    destruct (Z.leb_spec 97 cp), (Z.leb_spec cp 122); simpl; lia.
Qed.

Lemma upper_idem (s : unicode) :
  Forall (fun cp => 0 <= cp < 128) s ->
  List.map toupper (List.map toupper s) = List.map toupper s
  /\ (forall d, d = 48 \/ d = 49 -> List.map toupper s = [d] -> s = [d]).
Proof.
  induction 1 as [| cp s Hcp Hs [IH _]]; [split; [reflexivity | discriminate] |].
  destruct (toupper_idem cp Hcp) as (H1 & _ & H0 & H9).
  split; [simpl; rewrite H1, IH; reflexivity |].
  intros d Hd E. simpl in E. destruct s; [| discriminate E].
  injection E as E. f_equal. destruct Hd as [-> | ->]; auto.
Qed.

Lemma unicode_literal_inj (s t : string) :
  unicode_literal s = unicode_literal t -> s = t.
Proof.
  unfold unicode_literal. revert t.
  induction s as [| a r IH]; intros [| b t] E; try discriminate E;
    [reflexivity |].
  simpl in E. injection E as Hab Hrt. f_equal; [| apply IH, Hrt].
  unfold code in Hab. apply N2Z.inj in Hab.
  rewrite <- (ascii_N_embedding a), <- (ascii_N_embedding b), Hab.
  reflexivity.
Qed.

(** X8. On an ASCII text the human-readable parser of [RDFBool] does not
    look at the case: the text and its upper-case form have the same
    outcome. The text [unicode(b)] of an [RDFBool] of payload 0 or 1 parses
    back to the payload; for any other payload, which the constructor
    allows, the text is refused with [ValueError]. *)
Theorem RDFBool_text (s : unicode) (n : Z) :
  Forall (fun cp => 0 <= cp < 128) s ->
  RDFBool_ParseFromHumanReadable toupper s
  = RDFBool_ParseFromHumanReadable toupper (List.map toupper s)
  /\ RDFBool_ParseFromHumanReadable toupper (RDFInteger___unicode__
                                               (built RDFBool n))
     = if bool_decide (n = 0 \/ n = 1) then Ok (Number n)
       else Raise ValueError.
Proof.
  intros Hs. split.
  - unfold RDFBool_ParseFromHumanReadable.
    destruct (upper_idem s Hs) as [-> Hd].
    assert (H1 : bool_decide (s = unicode_literal "1")
                 = bool_decide (List.map toupper s = unicode_literal "1")).
    { apply bool_decide_ext. split; [intros ->; vm_compute |].
      - rewrite !toupper_ascii by lia. reflexivity.
      - apply (Hd 49). right; reflexivity. }
    assert (H0 : bool_decide (s = unicode_literal "0")
                 = bool_decide (List.map toupper s = unicode_literal "0")).
    { apply bool_decide_ext. split; [intros ->; vm_compute |].
      - rewrite !toupper_ascii by lia. reflexivity.
      - apply (Hd 48). left; reflexivity. }
    rewrite H1, H0. reflexivity.
  - unfold RDFInteger___unicode__, built, unicode_int.
    change (_value (RDFValue___init__ RDFBool (Number n) None)) with n.
    unfold RDFBool_ParseFromHumanReadable.
    destruct (str_int_shape n) as (sign & digits & Hstr & Hsign & Hne & Hd).
    assert (Hup : forall w, w = "TRUE" \/ w = "FALSE" ->
                  List.map toupper (unicode_literal (str_int n))
                  <> unicode_literal w).
    { intros w Hw E. rewrite Hstr in E.
      destruct digits as [| a r]; [contradiction |].
      simpl in Hd. apply andb_prop in Hd. destruct Hd as [Ha _].
      assert (Hx : exists x rest,
                 (x = "-"%char \/ isdigit x = true)
                 /\ sign +:+ String a r = String x rest).
      { destruct Hsign as [-> | ->].
        - exists a, r. split; [right; exact Ha | reflexivity].
        - exists "-"%char, (String a r). split; [left |]; reflexivity. }
      destruct Hx as (x & rest & Hx & Heq). rewrite Heq in E.
      unfold unicode_literal in E. cbn [List.map list_ascii_of_string] in E.
      assert (Hcode : 45 <= code x <= 57).
      { destruct Hx as [-> | Hx]; [vm_compute; split; discriminate |].
        unfold isdigit, in_range in Hx. apply andb_prop in Hx.
        change (code "0") with 48 in Hx. change (code "9") with 57 in Hx.
        lia. }
      rewrite toupper_ascii in E by lia.
      rewrite (proj2 (Z.leb_gt 97 (code x))) in E by lia. cbn [andb] in E.
      destruct Hw as [-> | ->]; cbn [List.map list_ascii_of_string] in E;
        injection E as E _;
        [change (code "T") with 84 in E | change (code "F") with 70 in E];
        lia. }
    rewrite (bool_decide_eq_false_2 _ (Hup "TRUE" (or_introl eq_refl))).
    rewrite (bool_decide_eq_false_2 _ (Hup "FALSE" (or_intror eq_refl))).
    simpl orb.
    assert (Hinj : forall m, unicode_literal (str_int n)
                             = unicode_literal (str_int m) -> n = m).
    { intros m E. apply unicode_literal_inj in E.
      apply (f_equal int_of_str) in E. rewrite !int_of_str_int in E.
      congruence. }
    destruct (Z.eq_dec n 1) as [-> | N1];
      [rewrite !bool_decide_eq_true_2 by tauto; reflexivity |].
    rewrite (bool_decide_eq_false_2 (_ = unicode_literal "1"))
      by (intros E; apply N1, (Hinj 1), E).
    destruct (Z.eq_dec n 0) as [-> | N0];
      [rewrite !bool_decide_eq_true_2 by tauto; reflexivity |].
    rewrite (bool_decide_eq_false_2 (_ = unicode_literal "0"))
      by (intros E; apply N0, (Hinj 0), E).
    rewrite bool_decide_eq_false_2 by lia. reflexivity.
Qed.

End BoolText.

(** [tRuE] is read as 1; the text of [RDFBool(5)] is refused. *)
Lemma RDFBool_text_witness :
  let toupper cp := if (97 <=? cp) && (cp <=? 122) then cp - 32 else cp in
  RDFBool_ParseFromHumanReadable toupper (unicode_literal "tRuE")
  = Ok (Number 1)
  /\ RDFBool_ParseFromHumanReadable toupper
       (RDFInteger___unicode__ (built RDFBool 5))
     = Raise ValueError.
Proof.
  intros toupper.
  destruct (RDFBool_text toupper (fun cp _ => eq_refl)
              (unicode_literal "tRuE") 5) as [H1 H2].
  { repeat constructor; vm_compute; discriminate. }
  split; [rewrite H1; reflexivity | exact H2].
Defined.

(** ** The age of a parsed value *)

Lemma construct_default_age (e : env) (k : kind) (o : value) :
  construct e k = Ok o -> _age o = InstanceAge RDFDatetime 0.
Proof. destruct k; simpl; intros [= <-]; reflexivity. Qed.

Lemma ParseFromString_age (self res : value) (s : string) :
  ParseFromString self s = Ok res ->
  _age res = _age self /\ kind_of res = kind_of self.
Proof.
  unfold ParseFromString.
  destruct (match kind_of self with RDFBytes => _ | _ => _ end) as [p |];
    [| discriminate].
  intros [= <-]. split; reflexivity.
Qed.

(** X9. [FromSerializedString] with an integer [age]: when it returns, the
    property [age] of the result reads that integer, also for 0, which the
    test [if age] skips and which is the default; reading the property does
    not change the value, and the payload is the one parsed without
    [age]. *)
Theorem FromSerializedString_age (e : env) (k : kind) (s : string) (n : Z)
    (res : value) :
  RDFValue_FromSerializedString e k s (Some (ONum (Int n))) = Ok res ->
  (age res).2 = n
  /\ _age res = InstanceAge RDFDatetime n
  /\ (age res).1 = res
  /\ exists parsed,
       FromSerializedString e k s = Ok parsed
       /\ RDFValue_FromSerializedString e k s None = Ok parsed
       /\ payload_of res = payload_of parsed
       /\ kind_of res = k.
Proof.
  unfold RDFValue_FromSerializedString, FromSerializedString.
  destruct (construct e k) as [new |] eqn:Hnew; [| discriminate].
  cbn [bind].
  destruct (ParseFromString new s) as [parsed |] eqn:Hp; [| discriminate].
  cbn [bind]. destruct (ParseFromString_age _ _ _ Hp) as [Ha Hk].
  rewrite (construct_default_age _ _ _ Hnew) in Ha.
  rewrite (construct_kind _ _ _ Hnew) in Hk.
  assert (Hres : res = set_age parsed (InstanceAge RDFDatetime n)
                 -> (age res).2 = n /\ _age res = InstanceAge RDFDatetime n
                    /\ (age res).1 = res
                    /\ payload_of res = payload_of parsed /\ kind_of res = k).
  { intros ->. repeat split. exact Hk. }
  unfold truthy. destruct (Z.eqb_spec n 0) as [-> | Hn]; simpl negb; cbv iota.
  - intros [= E].
    destruct Hres as (H1 & H2 & H3 & H4 & H5).
    { subst res. destruct parsed; simpl in *; subst; reflexivity. }
    repeat split; try assumption. exists parsed. repeat split; assumption.
  - unfold age_setter. cbn. intros [= E].
    destruct Hres as (H1 & H2 & H3 & H4 & H5); [symmetry; exact E |].
    repeat split; try assumption. exists parsed. repeat split; assumption.
Qed.

(** The wire form [42] under the ages 7 and 0. *)
Lemma FromSerializedString_age_witness :
  (age (RDFValue___init__ RDFInteger (Number 42)
          (Some (InstanceAge RDFDatetime 7)))).2 = 7
  /\ exists res,
       RDFValue_FromSerializedString example_env RDFInteger "42"
         (Some (ONum (Int 0))) = Ok res
       /\ (age res).2 = 0.
Proof.
  split.
  - apply (FromSerializedString_age example_env RDFInteger "42" 7).
    reflexivity.
  - eexists. split; [reflexivity |].
    apply (FromSerializedString_age example_env RDFInteger "42" 0).
    reflexivity.
Defined.

(** ** Components of a path *)

Section SplitFacts.

Variable sep : ascii.

Lemma split_max_plain (s : string) (m : nat) :
  contains sep s = false -> split_max sep s m = [s].
Proof.
  induction s as [| c r IH]; simpl; [reflexivity |].
  intros H. apply orb_false_elim in H. destruct H as [Hc Hr].
  destruct m; [reflexivity |]. rewrite Hc, (IH Hr). reflexivity.
Qed.

Lemma split_max_0 (s : string) : split_max sep s 0 = [s].
Proof. destruct s; reflexivity. Qed.

Lemma split_max_append (u v : string) (m : nat) :
  contains sep u = false ->
  split_max sep (u +:+ String sep v) (S m) = u :: split_max sep v m.
Proof.
  induction u as [| c r IH]; intros H.
  - rewrite append_nil_l. simpl.
    rewrite bool_decide_eq_true_2 by reflexivity. reflexivity.
  - simpl in H. apply orb_false_elim in H. destruct H as [Hc Hr].
    rewrite append_cons. simpl. rewrite Hc, (IH Hr). reflexivity.
Qed.

End SplitFacts.

Lemma startswith_contains (s p : string) (c : ascii) :
  startswith s p = true -> contains c p = true -> contains c s = true.
Proof.
  revert s. induction p as [| b p IH]; intros s; [discriminate 2 |].
  destruct s as [| a s]; [discriminate 1 |]. simpl.
  intros H. apply andb_prop in H. destruct H as [Hab Hs].
  apply bool_decide_eq_true in Hab. subst b.
  intros Hc. apply orb_prop in Hc. destruct Hc as [-> | Hc]; [reflexivity |].
  rewrite (IH s Hs Hc). apply orb_true_r.
Qed.

Lemma dash_alnum_segment (a : ascii) :
  dash_alnum a = true ->
  bool_decide (a = "/"%char) = false /\ a <> "."%char.
Proof.
  each_ascii a; vm_compute; intros H; try discriminate H;
    (split; [reflexivity | intros E; discriminate E]).
Qed.

Lemma all_contains (p : ascii -> bool) (c : ascii) (s : string) :
  (forall a, p a = true -> bool_decide (a = c) = false) ->
  all p s = true -> contains c s = false.
Proof.
  intros Hp. induction s as [| a r IH]; simpl; [reflexivity |].
  intros H. apply andb_prop in H. destruct H as [Ha Hr].
  rewrite (Hp a Ha), (IH Hr). reflexivity.
Qed.

(** A text that is one normal segment is normalized into a slash and the
    segment. *)
Lemma NormalizePath_segment (seg : string) :
  normal_segment seg -> utils.NormalizePath seg = String "/" seg.
Proof.
  intros Hn. unfold utils.NormalizePath.
  destruct Hn as (H1 & H2 & H3 & H4).
  rewrite (split_plain "/" seg H4).
  rewrite (collapse_of_normal [seg] []); [reflexivity |].
  constructor; [repeat split; assumption | constructor].
Qed.

(** A path value built from a text that is one normal segment without
    colon. *)
Lemma RDFURN_init_segment (k : kind) (seg : string) (age : option age_t) :
  normal_segment seg -> contains ":" seg = false ->
  RDFURN___init__ k (Some (OStr seg)) age
  = Ok (RDFValue___init__ k (Path (String "/" seg)) age).
Proof.
  intros Hn Hcolon.
  change (RDFURN___init__ k (Some (OStr seg)) age)
    with (Ok (RDFValue___init__ k
                (Path (utils.NormalizePath
                         (if startswith seg "aff4:/" then drop 5 seg
                          else seg))) age)).
  assert (Hs : startswith seg "aff4:/" = false).
  { destruct (startswith seg "aff4:/") eqn:E; [| reflexivity].
    rewrite (startswith_contains _ _ ":"%char E eq_refl) in Hcolon.
    discriminate Hcolon. }
  rewrite Hs, (NormalizePath_segment seg Hn). reflexivity.
Qed.

Lemma queue_normal (queue : string) :
  queue <> EmptyString -> all dash_alnum queue = true ->
  normal_segment queue /\ contains ":" queue = false.
Proof.
  intros Hne Hq.
  assert (Hslash : contains "/" queue = false)
    by (apply (all_contains dash_alnum); [| exact Hq];
        intros a Ha; apply (dash_alnum_segment a Ha)).
  assert (Hcolon : contains ":" queue = false)
    by (apply (all_contains dash_alnum); [| exact Hq];
        intros a Ha; apply (dash_alnum_plain a Ha)).
  split; [| exact Hcolon]. repeat split; try assumption.
  - intros ->. simpl in Hq. discriminate Hq.
  - intros ->. simpl in Hq. discriminate Hq.
Qed.

(** X10. For a [SessionID] built from a path value, which the constructor
    validates, [Queue] and [FlowName] are defined and recombine into the last
    segment: it is the queue, a colon and the flow name; the queue is not
    empty, made of letters, digits and dashes, and [Queue] returns the path
    value of a slash and the queue. *)
Theorem SessionID_Queue_FlowName (e : env) (u self : value)
    (age : option age_t) :
  is_RDFURN (kind_of u) = true ->
  SessionID___init__ e (Some (OValue u)) age = Ok self ->
  exists queue name,
    SessionID_Queue self
    = Ok (RDFValue___init__ RDFURN (Path (String "/" queue)) None)
    /\ SessionID_FlowName self = Returned name
    /\ RDFURN_Basename self = queue +:+ ":" +:+ name
    /\ queue <> EmptyString /\ all dash_alnum queue = true
    /\ name <> EmptyString.
Proof.
  intros Hu Hinit. unfold SessionID___init__ in Hinit. rewrite Hu in Hinit.
  rewrite ValidateID_scan in Hinit.
  destruct (scan_id (RDFURN_Basename u)) eqn:Hscan; [| discriminate].
  cbn in Hinit. rewrite Hu in Hinit. injection Hinit as <-.
  change (SessionID_Queue ?v)
    with (RDFURN___init__ RDFURN
            (Some (OStr (hd EmptyString (split ":" (RDFURN_Basename v)))))
            None).
  unfold SessionID_FlowName.
  change (RDFURN_Basename (RDFValue___init__ SessionID
                             (Path (RDFURN_Path u)) age))
    with (RDFURN_Basename u).
  apply scan_id_iff in Hscan.
  destruct Hscan as (queue & flow & rest & nl & -> & Hq0 & Hq & Hf0 & _).
  destruct (queue_normal queue Hq0 Hq) as [Hnormal Hcolon].
  exists queue, (flow +:+ rest +:+ nl).
  change (queue +:+ ":" +:+ flow +:+ rest +:+ nl)
    with (queue +:+ String ":" (flow +:+ rest +:+ nl)).
  rewrite (split_append ":" _ _ Hcolon).
  rewrite (split_max_append ":" _ _ 0 Hcolon), split_max_0.
  cbn [hd]. rewrite (RDFURN_init_segment _ _ _ Hnormal Hcolon).
  repeat apply conj; try assumption; try reflexivity.
  destruct flow; [contradiction | discriminate].
Qed.

(** The hunt identifier [H:123456:hunt]. *)
Lemma SessionID_Queue_FlowName_witness :
  exists self queue name,
    SessionID___init__ example_env
      (Some (OValue (RDFValue___init__ RDFURN (Path "/flows/H:123456:hunt")
                       None))) None = Ok self
    /\ SessionID_FlowName self = Returned name
    /\ RDFURN_Basename self = queue +:+ ":" +:+ name.
Proof.
  eexists.
  destruct (SessionID_Queue_FlowName example_env
              (RDFValue___init__ RDFURN (Path "/flows/H:123456:hunt") None)
              _ None eq_refl eq_refl)
    as (queue & name & _ & H1 & H2 & _).
  exists queue, name. split; [reflexivity |]. split; assumption.
Defined.

(** An identifier under [/flows]: the path is normalized and its last
    segment is the identifier. *)
Lemma NormalizePath_flows (id : string) :
  normal_segment id ->
  utils.NormalizePath ("/flows/" +:+ id) = "/flows/" +:+ id
  /\ basename ("/flows/" +:+ id) = id.
Proof.
  intros Hn. pose proof Hn as (H1 & H2 & H3 & H4).
  assert (Hsplit : split "/" ("/flows/" +:+ id) = [EmptyString; "flows"; id])
    by (change (split "/" ("/flows/" +:+ id))
          with (EmptyString :: split "/" ("flows" +:+ String "/" id));
        rewrite (split_append "/" "flows" id eq_refl), (split_plain "/" id H4);
        reflexivity).
  split.
  - unfold utils.NormalizePath. rewrite Hsplit.
    change (utils.collapse [EmptyString; "flows"; id] [])
      with (utils.collapse [id] ["flows"]).
    rewrite (collapse_of_normal [id] ["flows"]); [reflexivity |].
    constructor; [exact Hn | constructor].
  - unfold basename. rewrite Hsplit. reflexivity.
Qed.

Section FlowSessionID.

Variable SmartStr : pyobj -> string.

(** [utils.SmartStr] gives a byte string back as it is. *)
Hypothesis SmartStr_bytes : forall s, SmartStr (OStr s) = s.

(** X11. [FlowSessionID.ParseFromString], with [utils.SmartStr] giving a
    byte string back: a bare identifier (one normal segment) that does not
    start with [aff4] is put under [/flows], and its last segment is the
    identifier; the wire form of the result, and of any normalized path,
    parses back to the same path; a text that starts with [aff4] is parsed
    as [RDFURN] parses it. *)
Theorem FlowSessionID_parse (id path : string) :
  normal_segment id ->
  startswith id "aff4" = false ->
  FlowSessionID_ParseFromString SmartStr id = Ok (Path ("/flows/" +:+ id))
  /\ basename ("/flows/" +:+ id) = id
  /\ FlowSessionID_ParseFromString SmartStr ("aff4:" +:+ "/flows/" +:+ id)
     = Ok (Path ("/flows/" +:+ id))
  /\ FlowSessionID_ParseFromString SmartStr
       ("aff4:" +:+ utils.NormalizePath path)
     = Ok (Path (utils.NormalizePath path))
  /\ (forall text,
        startswith text "aff4" = true ->
        FlowSessionID_ParseFromString SmartStr text
        = RDFURN_ParseFromString text).
Proof.
  intros Hn Hs. destruct (NormalizePath_flows id Hn) as [Hnorm Hbase].
  assert (Hwire : forall p,
             FlowSessionID_ParseFromString SmartStr
               ("aff4:" +:+ utils.NormalizePath p)
             = Ok (Path (utils.NormalizePath p))).
  { intros p. unfold FlowSessionID_ParseFromString.
    rewrite SmartStr_bytes.
    change (startswith ("aff4:" +:+ utils.NormalizePath p) "aff4") with true.
    cbn [negb]. apply RDFURN_round_trip. }
  repeat apply conj.
  - unfold FlowSessionID_ParseFromString. rewrite SmartStr_bytes, Hs.
    cbn [negb].
    change (RDFURN_ParseFromString ("aff4:/flows/" +:+ id))
      with (Ok (Path (utils.NormalizePath ("/flows/" +:+ id)))).
    rewrite Hnorm. reflexivity.
  - exact Hbase.
  - rewrite <- Hnorm. apply Hwire.
  - apply Hwire.
  - intros text Ht. unfold FlowSessionID_ParseFromString.
    rewrite SmartStr_bytes, Ht. reflexivity.
Qed.

End FlowSessionID.

(** A bare identifier and its qualified form. *)
Lemma FlowSessionID_parse_witness :
  let SmartStr o := match o with OStr s => s | _ => EmptyString end in
  FlowSessionID_ParseFromString SmartStr "W:ABCDEF"
  = Ok (Path "/flows/W:ABCDEF")
  /\ FlowSessionID_ParseFromString SmartStr "aff4:/flows/W:ABCDEF"
     = Ok (Path "/flows/W:ABCDEF").
Proof.
  intros SmartStr.
  destruct (FlowSessionID_parse SmartStr (fun s => eq_refl) "W:ABCDEF"
              EmptyString) as (H1 & _ & H2 & _).
  - repeat split; discriminate.
  - reflexivity.
  - split; [exact H1 | exact H2].
Defined.

(** A bare identifier that itself starts with [aff4] is not put under
    [/flows]. *)
Example FlowSessionID_bare_aff4 :
  let SmartStr o := match o with OStr s => s | _ => EmptyString end in
  FlowSessionID_ParseFromString SmartStr "aff4x:1" = Ok (Path "/aff4x:1")
  /\ SessionID_ValidateID "aff4x:1" = Ok tt.
Proof. split; reflexivity. Qed.

(** X12. A [SessionID] built from a text is not validated: for an
    identifier without colon under [aff4:/flows/] the construction succeeds,
    and [FlowName] then raises [IndexError], while [Queue] returns the whole
    identifier as a path value. *)
Theorem FlowName_IndexError (e : env) (id : string) (age : option age_t) :
  normal_segment id ->
  contains ":" id = false ->
  exists self,
    SessionID___init__ e (Some (OStr ("aff4:/flows/" +:+ id))) age = Ok self
    /\ RDFURN_Basename self = id
    /\ SessionID_FlowName self = RaisedBuiltin IndexError
    /\ SessionID_Queue self
       = Ok (RDFValue___init__ RDFURN (Path (String "/" id)) None).
Proof.
  intros Hn Hc. destruct (NormalizePath_flows id Hn) as [Hnorm Hbase].
  exists (RDFValue___init__ SessionID (Path ("/flows/" +:+ id)) age).
  assert (Hb : RDFURN_Basename
                 (RDFValue___init__ SessionID (Path ("/flows/" +:+ id)) age)
               = id) by exact Hbase.
  repeat apply conj.
  - change (SessionID___init__ e (Some (OStr ("aff4:/flows/" +:+ id))) age)
      with (Ok (RDFValue___init__ SessionID
                  (Path (utils.NormalizePath ("/flows/" +:+ id))) age)).
    rewrite Hnorm. reflexivity.
  - exact Hb.
  - unfold SessionID_FlowName. rewrite Hb.
    rewrite (split_max_plain ":" id 1 Hc). reflexivity.
  - change (SessionID_Queue ?v)
      with (RDFURN___init__ RDFURN
              (Some (OStr (hd EmptyString (split ":" (RDFURN_Basename v)))))
              None).
    rewrite Hb, (split_plain ":" id Hc). cbn [hd].
    apply RDFURN_init_segment; assumption.
Qed.

(** The identifier [TransferStore]. *)
Lemma FlowName_IndexError_witness :
  exists self,
    SessionID___init__ example_env (Some (OStr "aff4:/flows/TransferStore"))
      None = Ok self
    /\ SessionID_FlowName self = RaisedBuiltin IndexError.
Proof.
  destruct (FlowName_IndexError example_env "TransferStore" None)
    as (self & H1 & _ & H2 & _).
  - repeat split; discriminate.
  - reflexivity.
  - exists self. split; assumption.
Defined.

Section JoinFacts.

Variable sep : ascii.

Lemma split_max_join (segs : list string) (m : nat) :
  segs <> [] ->
  Forall (fun f => contains sep f = false) segs ->
  split_max sep (join (String sep EmptyString) segs) m
  = (firstn m segs
     ++ match skipn m segs with
        | [] => []
        | rest => [join (String sep EmptyString) rest]
        end)%list.
Proof.
  revert m. induction segs as [| f [| g rest] IH]; intros m Hne Hall.
  - contradiction.
  - inversion Hall; subst. simpl join. rewrite split_max_plain by assumption.
    destruct m as [| [| m]]; reflexivity.
  - inversion Hall as [| ? ? Hf Hrest]; subst.
    change (join (String sep EmptyString) (f :: g :: rest))
      with (f +:+ String sep (join (String sep EmptyString) (g :: rest))).
    destruct m as [| m]; [apply split_max_0 |].
    rewrite (split_max_append _ _ _ _ Hf), IH; [reflexivity | discriminate |].
    exact Hrest.
Qed.

End JoinFacts.

Lemma filter_None_normal (segs : list string) :
  Forall normal_segment segs -> filter_None segs = segs.
Proof.
  induction 1 as [| f fs (Hf & _) _ IH]; [reflexivity |].
  unfold filter_None in *. simpl. destruct f; [contradiction |].
  simpl. rewrite IH. reflexivity.
Qed.

Lemma join_nonempty (sep : string) (segs : list string) :
  segs <> [] -> Forall normal_segment segs -> join sep segs <> EmptyString.
Proof.
  destruct segs as [| f fs]; [contradiction |].
  intros _ H. inversion H as [| ? ? (Hf & _) _]; subst.
  destruct f; [contradiction |]. destruct fs; discriminate.
Qed.

Lemma normal_no_slash (segs : list string) :
  Forall normal_segment segs ->
  Forall (fun f => contains "/" f = false) segs.
Proof. apply List.Forall_impl. intros f Hf. apply Hf. Qed.

(** The fields of a normalized path: an empty one before the first slash,
    then the segments. *)
Lemma split_normalized (segs : list string) :
  Forall normal_segment segs ->
  filter_None (split "/" (String "/" (join "/" segs))) = segs.
Proof.
  intros Hn.
  change (split "/" (String "/" (join "/" segs)))
    with (EmptyString :: split "/" (join "/" segs)).
  destruct segs as [| f fs]; [reflexivity |].
  rewrite split_join; [| discriminate | apply normal_no_slash, Hn].
  change (filter_None (EmptyString :: f :: fs)) with (filter_None (f :: fs)).
  apply filter_None_normal, Hn.
Qed.

Lemma filter_None_one (s : string) :
  s <> EmptyString -> filter_None [s] = [s].
Proof. destruct s; [contradiction | reflexivity]. Qed.

Lemma filter_None_app (a b : list string) :
  filter_None (a ++ b)%list = (filter_None a ++ filter_None b)%list.
Proof. apply List.filter_app. Qed.

(** X13. [Split] on a path value whose path is normalized. Without a
    count, with the count 0 and with a negative count the result is the list
    of the segments. With a positive count the result has exactly that many
    components: the first [count - 1] segments, then the rest of the path as
    one component if segments remain, then empty texts. *)
Theorem RDFURN_Split_spec (self : value) (path : string) (count : Z) :
  _string_urn self = utils.NormalizePath path ->
  0 < count ->
  let segs := utils.collapse (split "/" path) [] in
  let m := (Z.to_nat count - 1)%nat in
  RDFURN_Split self None = segs
  /\ RDFURN_Split self (Some 0) = segs
  /\ RDFURN_Split self (Some (- count)) = segs
  /\ List.length (RDFURN_Split self (Some count)) = Z.to_nat count
  /\ RDFURN_Split self (Some count)
     = (firstn m segs
        ++ match skipn m segs with
           | [] => []
           | rest => [join "/" rest]
           end
        ++ List.repeat EmptyString (Z.to_nat count - List.length segs))%list.
Proof.
  intros Hpath Hcount segs m.
  pose proof (collapse_normal_segments (split "/" path) []
                (split_no_sep "/" path) (List.Forall_nil _)) as Hn.
  fold segs in Hn.
  assert (Hp : _string_urn self = String "/" (join "/" segs))
    by (rewrite Hpath; reflexivity).
  assert (Hall : filter_None (split "/" (_string_urn self)) = segs)
    by (rewrite Hp; apply split_normalized, Hn).
  assert (Hlast :
    RDFURN_Split self (Some count)
    = (firstn m segs
       ++ match skipn m segs with
          | [] => []
          | rest => [join "/" rest]
          end
       ++ List.repeat EmptyString (Z.to_nat count - List.length segs))%list).
  { unfold RDFURN_Split.
    destruct (Z.eqb_spec count 0) as [E | _]; [lia |].
    destruct (Z.ltb_spec count 0) as [E | _]; [lia |].
    rewrite Hp.
    assert (Hm : Z.to_nat count = S m) by (unfold m; lia).
    rewrite Hm.
    change (split_max "/" (String "/" (join "/" segs)) (S m))
      with (EmptyString :: split_max "/" (join "/" segs) m).
    change (filter_None (EmptyString :: ?l)) with (filter_None l).
    destruct segs as [| f fs] eqn:Hsegs.
    - rewrite firstn_nil, skipn_nil.
      change (join "/" []) with EmptyString.
      rewrite (split_max_plain "/" EmptyString m eq_refl).
      change (filter_None [EmptyString]) with (@nil string).
      cbn [app length]. rewrite Nat.sub_0_r. f_equal. lia.
    - rewrite <- Hsegs in *.
      assert (Hne : segs <> []) by (rewrite Hsegs; discriminate).
      rewrite (split_max_join "/" segs m Hne (normal_no_slash _ Hn)).
      rewrite filter_None_app.
      rewrite (filter_None_normal (firstn m segs))
        by (apply Forall_take; exact Hn).
      rewrite <- app_assoc. f_equal.
      pose proof (firstn_skipn m segs) as Hfs.
      pose proof (length_firstn m segs) as Hlf.
      pose proof (length_skipn m segs) as Hls.
      destruct (skipn m segs) as [| g rest] eqn:Hskip.
      + simpl filter_None. simpl app.
        rewrite length_app, Hlf. simpl length.
        simpl in Hls. f_equal. lia.
      + assert (Hj : join "/" (g :: rest) <> EmptyString).
        { apply join_nonempty; [discriminate |].
          rewrite <- Hskip. apply Forall_drop. exact Hn. }
        rewrite (filter_None_one _ Hj).
        simpl in Hls. rewrite !length_app, Hlf. simpl length.
        replace (Z.to_nat (count - Z.of_nat (m `min` length segs + 1)))
          with 0%nat by lia.
        replace (S m - length segs)%nat with 0%nat by lia.
        reflexivity. }
  repeat apply conj.
  - exact Hall.
  - exact Hall.
  - unfold RDFURN_Split.
    destruct (Z.eqb_spec (- count) 0) as [E | _]; [lia |].
    destruct (Z.ltb_spec (- count) 0) as [_ | E]; [| lia].
    rewrite Hall.
    replace (Z.to_nat (- count - Z.of_nat (length segs))) with 0%nat by lia.
    apply app_nil_r.
  - rewrite Hlast.
    pose proof (firstn_skipn m segs) as Hfs.
    pose proof (length_firstn m segs) as Hlf.
    pose proof (length_skipn m segs) as Hls.
    rewrite !length_app, repeat_length, Hlf.
    destruct (skipn m segs); simpl in *; unfold m in *; lia.
  - exact Hlast.
Qed.

Section LastSlash.

Variable c : ascii.

Lemma upto_last_none (v : string) :
  contains c v = false -> upto_last c v = EmptyString.
Proof. destruct v as [| a r]; [reflexivity |]. simpl. intros ->. reflexivity. Qed.

Lemma upto_last_append (u v : string) :
  contains c v = false ->
  upto_last c (u +:+ String c v) = u +:+ String c EmptyString.
Proof.
  intros Hv. induction u as [| a u IH].
  - rewrite !append_nil_l. simpl.
    rewrite bool_decide_eq_true_2 by reflexivity. simpl.
    rewrite (upto_last_none v Hv). reflexivity.
  - rewrite !append_cons.
    change (upto_last c (String a (u +:+ String c v)))
      with (if contains c (String a (u +:+ String c v))
            then String a (upto_last c (u +:+ String c v))
            else EmptyString).
    rewrite IH. simpl contains. rewrite contains_append. simpl contains.
    rewrite (bool_decide_eq_true_2 (c = c)) by reflexivity.
    rewrite orb_true_l, !orb_true_r. reflexivity.
Qed.

Lemma rstrip_char_snoc (u : string) :
  rstrip_char c (u +:+ String c EmptyString) = rstrip_char c u.
Proof.
  induction u as [| a u IH].
  - simpl. rewrite bool_decide_eq_true_2 by reflexivity. reflexivity.
  - rewrite append_cons. simpl. rewrite IH. reflexivity.
Qed.

Lemma rstrip_char_id (u : string) (a : ascii) :
  last_char u = Some a -> a <> c -> rstrip_char c u = u.
Proof.
  intros Hl Ha. induction u as [| b u IH]; [reflexivity |].
  destruct u as [| b' u'].
  - simpl in Hl. injection Hl as ->. simpl.
    rewrite bool_decide_eq_false_2 by exact Ha. reflexivity.
  - change (rstrip_char c (String b (String b' u')))
      with (let r' := rstrip_char c (String b' u') in
            if is_empty r' && bool_decide (b = c) then EmptyString
            else String b r').
    rewrite IH by exact Hl. reflexivity.
Qed.

End LastSlash.

Lemma join_snoc (sep : ascii) (init : list string) (l : string) :
  init <> [] ->
  join (String sep EmptyString) (init ++ [l])
  = join (String sep EmptyString) init +:+ String sep l.
Proof.
  induction init as [| f [| g rest] IH]; intros Hne.
  - contradiction.
  - reflexivity.
  - change (join (String sep EmptyString) ((f :: g :: rest) ++ [l]))
      with (f +:+ String sep
              (join (String sep EmptyString) ((g :: rest) ++ [l]))).
    rewrite IH by discriminate.
    change (join (String sep EmptyString) (f :: g :: rest))
      with (f +:+ String sep (join (String sep EmptyString) (g :: rest))).
    rewrite append_assoc. reflexivity.
Qed.

(** A slash and normal segments joined by slashes is a normalized path. *)
Lemma NormalizePath_of_normal (segs : list string) :
  Forall normal_segment segs ->
  utils.NormalizePath (String "/" (join "/" segs)) = String "/" (join "/" segs)
  /\ split "/" (String "/" (join "/" segs))
     = EmptyString :: (if segs is [] then [EmptyString] else segs).
Proof.
  intros Hn.
  assert (Hsplit : split "/" (String "/" (join "/" segs))
                   = EmptyString :: (if segs is [] then [EmptyString]
                                     else segs)).
  { change (split "/" (String "/" (join "/" segs)))
      with (EmptyString :: split "/" (join "/" segs)).
    f_equal. destruct segs as [| f fs]; [reflexivity |].
    apply split_join; [discriminate | apply normal_no_slash, Hn]. }
  split; [| exact Hsplit].
  unfold utils.NormalizePath. rewrite Hsplit. do 2 f_equal.
  destruct segs as [| f fs]; [reflexivity |].
  change (utils.collapse (EmptyString :: f :: fs) [])
    with (utils.collapse (f :: fs) []).
  apply (collapse_of_normal _ [] Hn).
Qed.

Lemma last_char_cons (a : ascii) (s : string) :
  s <> EmptyString -> last_char (String a s) = last_char s.
Proof. destruct s; [contradiction | reflexivity]. Qed.

Lemma normal_last_char (seg : string) :
  normal_segment seg ->
  exists a, last_char seg = Some a /\ a <> "/"%char.
Proof.
  intros (Hne & _ & _ & Hs).
  destruct (last_char_all (fun a => negb (bool_decide (a = "/"%char))) seg Hne)
    as (a & Ha & Hp).
  - clear Hne. induction seg as [| b r IH]; [reflexivity |].
    simpl in *. apply orb_false_elim in Hs. destruct Hs as [-> Hr].
    rewrite (IH Hr). reflexivity.
  - exists a. split; [exact Ha |].
    apply negb_true_iff, bool_decide_eq_false in Hp. exact Hp.
Qed.

(** X14. For a path value whose path is normalized, [Basename] is the last
    segment (empty for the root) and [Dirname] is the slash followed by the
    other segments: it is itself a normalized path, and the directory, a
    slash and the base name normalize to the path. *)
Theorem Dirname_Basename (self : value) (path : string) :
  _string_urn self = utils.NormalizePath path ->
  let segs := utils.collapse (split "/" path) [] in
  RDFURN_Dirname self = String "/" (join "/" (removelast segs))
  /\ RDFURN_Basename self = List.last segs EmptyString
  /\ utils.NormalizePath (RDFURN_Dirname self) = RDFURN_Dirname self
  /\ utils.NormalizePath
       (RDFURN_Dirname self +:+ "/" +:+ RDFURN_Basename self)
     = _string_urn self.
Proof.
  intros Hpath segs.
  pose proof (collapse_normal_segments (split "/" path) []
                (split_no_sep "/" path) (List.Forall_nil _)) as Hn.
  fold segs in Hn.
  assert (Hp : _string_urn self = String "/" (join "/" segs))
    by (rewrite Hpath; reflexivity).
  assert (Hbase : RDFURN_Basename self = List.last segs EmptyString).
  { unfold RDFURN_Basename, RDFURN_Path, basename. rewrite Hp.
    destruct (NormalizePath_of_normal segs Hn) as [_ ->].
    destruct segs as [| f fs]; [reflexivity |].
    change (List.last (EmptyString :: f :: fs) EmptyString)
      with (List.last (f :: fs) EmptyString). reflexivity. }
  assert (Hdir : RDFURN_Dirname self
                 = String "/" (join "/" (removelast segs))).
  { unfold RDFURN_Dirname. rewrite Hp. clear Hp Hbase Hpath.
    destruct segs as [| f fs] using rev_ind; [reflexivity |]. clear IHfs.
    rewrite removelast_last.
    apply Forall_app in Hn. destruct Hn as [Hfs Hf].
    inversion Hf as [| ? ? Hseg _]; subst.
    pose proof Hseg as (_ & _ & _ & Hslash).
    destruct fs as [| g rest].
    - change (String "/" (join "/" ([] ++ [f])))
        with (EmptyString +:+ String "/" f).
      unfold dirname. rewrite (upto_last_append "/" _ _ Hslash).
      reflexivity.
    - rewrite (join_snoc "/" (g :: rest) f) by discriminate.
      set (d := join "/" (g :: rest)).
      change (String "/" (d +:+ String "/" f))
        with (String "/" d +:+ String "/" f).
      unfold dirname. rewrite (upto_last_append "/" _ _ Hslash).
      assert (Hd : exists a, last_char (String "/" d) = Some a
                             /\ a <> "/"%char).
      { assert (Hdne : d <> EmptyString)
          by (apply join_nonempty; [discriminate | exact Hfs]).
        rewrite (last_char_cons _ _ Hdne). unfold d.
        destruct (g :: rest) as [| h hs] using rev_ind;
          [contradiction Hdne; reflexivity |].
        apply Forall_app in Hfs. destruct Hfs as [Hhs Hh].
        inversion Hh as [| ? ? Hlast _]; subst.
        destruct (normal_last_char h Hlast) as (a & Ha & Hne).
        exists a. split; [| exact Hne].
        destruct hs as [| h' hs']; [exact Ha |].
        rewrite (join_snoc "/" (h' :: hs') h) by discriminate.
        rewrite last_char_append; [| discriminate].
        rewrite last_char_cons; [exact Ha | apply Hlast]. }
      destruct Hd as (a & Ha & Hne).
      assert (Hnotall :
        bool_decide (String "/" d +:+ "/"
                     = repeat_char "/"
                         (String.length (String "/" d +:+ "/"))) = false).
      { apply bool_decide_eq_false. intros E.
        inversion Hfs as [| ? ? (Hg0 & _ & _ & Hgs) _]; subst.
        unfold d in E. destruct g as [| b g']; [contradiction |].
        simpl in Hgs. apply orb_false_elim in Hgs. destruct Hgs as [Hb _].
        apply bool_decide_eq_false in Hb.
        destruct rest; simpl in E; injection E as E _; contradiction. }
      rewrite Hnotall.
      change (is_empty (String "/" d +:+ "/")) with false. cbn [negb andb].
      rewrite rstrip_char_snoc. apply (rstrip_char_id "/" _ a Ha Hne). }
  assert (Hnd : Forall normal_segment (removelast segs)).
  { destruct segs as [| f fs] using rev_ind; [constructor |].
    rewrite removelast_last. apply Forall_app in Hn. apply Hn. }
  repeat apply conj.
  - exact Hdir.
  - exact Hbase.
  - rewrite Hdir. apply (NormalizePath_of_normal _ Hnd).
  - rewrite Hdir, Hbase, Hp. clear Hdir Hbase Hp Hpath Hnd.
    destruct segs as [| f fs] using rev_ind; [reflexivity |]. clear IHfs.
    rewrite removelast_last, last_last.
    destruct fs as [| g rest].
    + apply Forall_app in Hn. destruct Hn as [_ Hf].
      inversion Hf as [| ? ? Hseg _]; subst.
      pose proof Hseg as (_ & _ & _ & Hslash).
      unfold utils.NormalizePath.
      change (split "/" (String "/" (join "/" []) +:+ "/" +:+ f))
        with (EmptyString :: EmptyString :: split "/" f).
      rewrite (split_plain "/" f Hslash).
      change (utils.collapse [EmptyString; EmptyString; f] [])
        with (utils.collapse [f] []).
      rewrite (collapse_of_normal [f] []); [reflexivity |].
      constructor; [exact Hseg | constructor].
    + change (String "/" (join "/" (g :: rest)) +:+ "/" +:+ f)
        with (String "/" (join "/" (g :: rest) +:+ String "/" f)).
      rewrite <- (join_snoc "/" (g :: rest) f) by discriminate.
      apply (NormalizePath_of_normal _ Hn).
Qed.

(** The path [/C.1234/fs/os]. *)
Lemma Dirname_Basename_witness :
  let u := RDFValue___init__ RDFURN (Path "/C.1234/fs/os") None in
  RDFURN_Dirname u = "/C.1234/fs" /\ RDFURN_Basename u = "os".
Proof.
  intros u.
  destruct (Dirname_Basename u "/C.1234/fs/os" eq_refl) as (H1 & H2 & _).
  split; [exact H1 | exact H2].
Defined.

(** [Split(2)] on a path of one segment and on a path of three. *)
Lemma RDFURN_Split_spec_witness :
  RDFURN_Split (RDFValue___init__ RDFURN (Path "/C.1234") None) (Some 2)
  = ["C.1234"; EmptyString]
  /\ RDFURN_Split (RDFValue___init__ RDFURN (Path "/a/b/c") None) (Some 2)
     = ["a"; "b/c"].
Proof.
  split.
  - destruct (RDFURN_Split_spec
                (RDFValue___init__ RDFURN (Path "/C.1234") None)
                "/C.1234" 2 eq_refl eq_refl) as (_ & _ & _ & _ & H).
    exact H.
  - destruct (RDFURN_Split_spec
                (RDFValue___init__ RDFURN (Path "/a/b/c") None)
                "/a/b/c" 2 eq_refl eq_refl) as (_ & _ & _ & _ & H).
    exact H.
Defined.

(** ** Texts and their bytes *)

Lemma chr_code (c : ascii) : chr (code c) = c.
Proof. unfold chr, code. rewrite N2Z.id. apply ascii_N_embedding. Qed.

Lemma code_range (c : ascii) : 0 <= code c < 256.
Proof. unfold code. pose proof (N_ascii_bounded c). lia. Qed.







Lemma lt_str_chr (a b : Z) (s t : string) :
  0 <= a < 256 -> 0 <= b < 256 ->
  lt_str (String (chr a) s) (String (chr b) t)
  = (a <? b) || ((a =? b) && lt_str s t).
Proof.
  intros Ha Hb. simpl. rewrite !code_chr by assumption. f_equal.
  destruct (Z.eqb_spec a b) as [-> | Hne].
  - rewrite bool_decide_eq_true_2 by reflexivity. reflexivity.
  - rewrite bool_decide_eq_false_2; [reflexivity |].
    intros E. apply (f_equal code) in E. rewrite !code_chr in E by assumption.
    contradiction.
Qed.

Ltac cmp_step :=
  match goal with
  | |- context [?a <? ?b] => destruct (Z.ltb_spec a b)
  | |- context [?a =? ?b] => destruct (Z.eqb_spec a b)
  end;
  cbn [orb andb]; try reflexivity; try (exfalso; dlia).

(** The bytes of two code points compare as the code points do. *)
Lemma encode_cp_lt (x y : Z) (k1 k2 : string) :
  0 <= x < 1114112 -> 0 <= y < 1114112 ->
  lt_str (encode_cp x k1) (encode_cp y k2)
  = (x <? y) || ((x =? y) && lt_str k1 k2).
Proof.
  intros Hx Hy. unfold encode_cp, cont_byte.
  destruct (Z.lt_total x y) as [Hlt | [Heq | Hgt]].
  - rewrite (proj2 (Z.ltb_lt x y) Hlt). cbn [orb].
    destruct (Z.ltb_spec x 128), (Z.ltb_spec x 2048), (Z.ltb_spec x 65536),
      (Z.ltb_spec y 128), (Z.ltb_spec y 2048), (Z.ltb_spec y 65536);
      try lia; rewrite ?lt_str_chr by dlia; repeat cmp_step.
  - subst y. rewrite Z.ltb_irrefl, Z.eqb_refl. cbn [orb andb].
    destruct (Z.ltb_spec x 128), (Z.ltb_spec x 2048), (Z.ltb_spec x 65536);
      try lia; rewrite ?lt_str_chr by dlia;
      rewrite ?Z.ltb_irrefl, ?Z.eqb_refl; reflexivity.
  - rewrite (proj2 (Z.ltb_ge x y)) by lia.
    rewrite (proj2 (Z.eqb_neq x y)) by lia. cbn [orb andb].
    destruct (Z.ltb_spec x 128), (Z.ltb_spec x 2048), (Z.ltb_spec x 65536),
      (Z.ltb_spec y 128), (Z.ltb_spec y 2048), (Z.ltb_spec y 65536);
      try lia; rewrite ?lt_str_chr by dlia; repeat cmp_step.
Qed.

Lemma scalar_value_range (cp : Z) : scalar_value cp -> 0 <= cp < 1114112.
Proof. unfold scalar_value. lia. Qed.

Lemma encode_lt (u v : unicode) :
  Forall scalar_value u -> Forall scalar_value v ->
  lt_str (encode u) (encode v) = lt_unicode u v.
Proof.
  intros Hu. revert v. induction Hu as [| x u Hx _ IH]; intros v Hv.
  - destruct Hv as [| y v Hy _]; [reflexivity |].
    simpl. unfold encode_cp. repeat destruct (_ <? _); reflexivity.
  - destruct Hv as [| y v Hy Hv].
    + simpl. unfold encode_cp. repeat destruct (_ <? _); reflexivity.
    + change (encode (x :: u)) with (encode_cp x (encode u)).
      change (encode (y :: v)) with (encode_cp y (encode v)).
      rewrite encode_cp_lt by (apply scalar_value_range; assumption).
      rewrite (IH v Hv). reflexivity.
Qed.

Lemma encode_inj (u v : unicode) :
  Forall scalar_value u -> Forall scalar_value v ->
  encode u = encode v -> u = v.
Proof.
  intros Hu Hv E. apply (f_equal decode) in E.
  rewrite (decode_encode u Hu), (decode_encode v Hv) in E.
  injection E as E. exact E.
Qed.

(** X16. For two [RDFString] values of Unicode scalar values, comparing
    the first with the second, with the text of the second and with the wire
    form of the second gives the same answers for [<] and [==]: UTF-8 keeps
    the order of the code points. *)
Theorem RDFString_order (self other : value) :
  kind_of self = RDFString -> kind_of other = RDFString ->
  shaped self -> shaped other ->
  exists wire,
    SerializeToString other = Ok wire
    /\ RDFString___lt__ self (Some (Obj (OStr wire)))
       = RDFString___lt__ self (Some (Obj (OValue other)))
    /\ RDFString___eq__ self (Some (Obj (OStr wire)))
       = RDFString___eq__ self (Some (Obj (OValue other)))
    /\ RDFString___lt__ self (Some (OUnicode (_text other)))
       = RDFString___lt__ self (Some (Obj (OValue other))).
Proof.
  intros Hks Hko Hs Ho. unfold shaped in Hs, Ho.
  rewrite Hks in Hs. rewrite Hko in Ho.
  unfold SerializeToString, RDFString_SerializeToString,
    RDFString___lt__, RDFString___eq__, _text.
  rewrite Hko. rewrite bool_decide_eq_true_2 by reflexivity.
  destruct (payload_of self) as [| u | |]; try contradiction.
  destruct (payload_of other) as [| v | |]; try contradiction.
  exists (encode v). repeat apply conj; try reflexivity.
  - rewrite (encode_lt u v Hs Ho). reflexivity.
  - f_equal. apply bool_decide_ext. split; [| intros ->; reflexivity].
    apply encode_inj; assumption.
Qed.

(** [z] comes before [e-acute t e-acute] as a text and as bytes. *)
Lemma RDFString_order_witness :
  let a := RDFValue___init__ RDFString (Text [122]) None in
  let b := RDFValue___init__ RDFString (Text [233; 116; 233]) None in
  RDFString___lt__ a (Some (Obj (OValue b))) = Ok true
  /\ exists wire,
       SerializeToString b = Ok wire
       /\ RDFString___lt__ a (Some (Obj (OStr wire))) = Ok true.
Proof.
  intros a b. split; [reflexivity |].
  destruct (RDFString_order a b eq_refl eq_refl) as (wire & H1 & H2 & _).
  - repeat constructor; unfold scalar_value; lia.
  - repeat constructor; unfold scalar_value; lia.
  - exists wire. split; [exact H1 |]. rewrite H2. reflexivity.
Defined.

(** ** Digests *)

Lemma code_hex_digit (n : Z) :
  0 <= n < 16 -> code (hex_digit n) = if n <? 10 then 48 + n else 87 + n.
Proof.
  intros Hn. unfold hex_digit.
  destruct (Z.ltb_spec n 10); rewrite code_chr by lia; reflexivity.
Qed.

Lemma hex_digit_inj (m n : Z) :
  0 <= m < 16 -> 0 <= n < 16 -> hex_digit m = hex_digit n -> m = n.
Proof.
  intros Hm Hn E. apply (f_equal code) in E.
  rewrite !code_hex_digit in E by assumption.
  destruct (Z.ltb_spec m 10), (Z.ltb_spec n 10); lia.
Qed.

Lemma hex_digit_char (n : Z) :
  0 <= n < 16 ->
  (isdigit (hex_digit n) || in_range "a" "f" (hex_digit n)) = true.
Proof.
  intros Hn. unfold isdigit, in_range. rewrite code_hex_digit by exact Hn.
  change (code "0") with 48. change (code "9") with 57.
  change (code "a") with 97. change (code "f") with 102.
  destruct (Z.ltb_spec n 10); lia.
Qed.

Lemma hex_inj (s t : string) : hex s = hex t -> s = t.
Proof.
  revert t. induction s as [| a s IH]; intros [| b t] E; try discriminate E;
    [reflexivity |].
  simpl in E. injection E as E1 E2 E3.
  pose proof (code_range a). pose proof (code_range b).
  apply hex_digit_inj in E1; [| dlia | dlia].
  apply hex_digit_inj in E2; [| dlia | dlia].
  f_equal; [| apply IH, E3].
  rewrite <- (chr_code a), <- (chr_code b). f_equal. dlia.
Qed.

(** X17. [HexDigest] is twice as long as the digest, is made of the
    characters 0-9 and a-f, and two digests have the same hexadecimal text
    exactly when they have the same bytes. A digest is equal to its own
    hexadecimal text whatever [utils.SmartStr] returns, and a digest equal
    to the hexadecimal text of another has its bytes, unless its bytes are
    what [SmartStr] makes of that text. *)
Theorem HashDigest_hex (SmartStr : pyobj -> string) (self other : value) :
  String.length (HashDigest_HexDigest self)
  = (2 * String.length (_bytes self))%nat
  /\ all (fun c => isdigit c || in_range "a" "f" c)
       (HashDigest_HexDigest self) = true
  /\ (HashDigest_HexDigest self = HashDigest_HexDigest other
      <-> _bytes self = _bytes other)
  /\ HashDigest___eq__ SmartStr self (HashDigest_HexDigest self) = true
  /\ (HashDigest___eq__ SmartStr self (HashDigest_HexDigest other) = true
      -> _bytes self = SmartStr (OStr (HashDigest_HexDigest other))
         \/ _bytes self = _bytes other).
Proof.
  unfold HashDigest_HexDigest, HashDigest___eq__. repeat apply conj.
  - induction (_bytes self) as [| a s IH]; [reflexivity |].
    simpl. rewrite IH. lia.
  - induction (_bytes self) as [| a s IH]; [reflexivity |].
    pose proof (code_range a).
    change (hex (String a s))
      with (String (hex_digit (code a / 16))
              (String (hex_digit (code a mod 16)) (hex s))).
    cbn [all]. rewrite !hex_digit_char by dlia. exact IH.
  - apply hex_inj.
  - intros ->. reflexivity.
  - rewrite (bool_decide_eq_true_2 (hex _ = hex _)) by reflexivity.
    apply orb_true_r.
  - intros H. apply orb_prop in H. destruct H as [H | H];
      apply bool_decide_eq_true in H; [left; exact H |].
    right. apply hex_inj, H.
Qed.

(** ** The text of a size *)

Lemma lower_append (u v : string) : lower (u +:+ v) = lower u +:+ lower v.
Proof.
  induction u as [| a u IH]; [reflexivity |].
  rewrite append_cons. simpl. rewrite IH. reflexivity.
Qed.

Lemma lower_digits (s : string) : all isdigit s = true -> lower s = s.
Proof.
  induction s as [| a r IH]; [reflexivity |]. simpl.
  intros H. apply andb_prop in H. destruct H as [Ha Hr].
  rewrite (IH Hr). f_equal. revert Ha.
  each_ascii a; vm_compute; intros Ha; try discriminate Ha; reflexivity.
Qed.

Lemma digit_coefficient (a : ascii) :
  isdigit a = true ->
  coefficient_char a = true /\ bool_decide (a = "."%char) = false
  /\ bool_decide (lower_char a = a) = true.
Proof.
  each_ascii a; vm_compute; intros H; try discriminate H;
    repeat split.
Qed.

(** Decimal digits followed by [B] are read as that many bytes. *)
Lemma ByteSize_parse_digits (self : value) (digits : string) :
  digits <> EmptyString -> all isdigit digits = true ->
  exists n,
    int_of_str digits = Some n
    /\ ByteSize_ParseFromHumanReadable self (digits +:+ "B") = Ok (Number n).
Proof.
  intros Hne Hd.
  destruct (int_of_digits digits Hne Hd) as (n & Hn & _).
  exists n. split; [exact Hn |].
  assert (Htext : is_empty (digits +:+ "B") = false)
    by (destruct digits; [contradiction | reflexivity]).
  unfold ByteSize_ParseFromHumanReadable. rewrite Htext.
  assert (Hstrip : strip (digits +:+ "B") = digits +:+ "B").
  { apply strip_no_space. rewrite all_append.
    rewrite (all_impl isdigit _ digits); [reflexivity | | exact Hd].
    intros a Ha. apply (digit_not_space a Ha). }
  rewrite Hstrip, lower_append, (lower_digits digits Hd).
  change (lower "B") with "b".
  assert (Hfix : all (fun a => bool_decide (lower_char a = a))
                   (digits +:+ "b") = true).
  { rewrite all_append.
    rewrite (all_impl isdigit _ digits); [reflexivity | | exact Hd].
    intros a Ha. apply (digit_coefficient a Ha). }
  assert (Htext' : size_text (digits +:+ "b") digits EmptyString).
  { exists "b". repeat split; try assumption; [| right; reflexivity].
    eapply all_impl; [| exact Hd]. intros a Ha.
    apply (digit_coefficient a Ha). }
  rewrite ByteSize_REGEX_match.
  destruct (size_text_scan _ _ _ Hfix Htext') as (-> & -> & ->).
  assert (Hempty : is_empty digits = false)
    by (destruct digits; [contradiction | reflexivity]).
  rewrite Hempty.
  assert (Hg2 : Re.group (<[2%nat := EmptyString]> (<[1%nat := digits]> ∅)) 2
                = EmptyString)
    by (unfold Re.group; rewrite lookup_insert_eq; reflexivity).
  assert (Hg1 : Re.group (<[2%nat := EmptyString]> (<[1%nat := digits]> ∅)) 1
                = digits).
  { unfold Re.group. rewrite lookup_insert_ne by discriminate.
    rewrite lookup_insert_eq. reflexivity. }
  rewrite Hg1, Hg2.
  assert (Hone : ByteSize_DIVIDERS !! EmptyString = Some 1)
    by (apply ByteSize_DIVIDERS_table; left; reflexivity).
  rewrite Hone. change (1 =? 0) with false. cbv iota.
  assert (Hdot : contains "." digits = false).
  { apply (all_contains isdigit); [| exact Hd].
    intros a Ha. apply (digit_coefficient a Ha). }
  rewrite Hdot. unfold int_str. rewrite Hn. cbn. rewrite Z.mul_1_r.
  reflexivity.
Qed.

Section SizeText.

Variable SmartStr : pyobj -> string.

(** [utils.SmartStr] of an integer is [str] of it. *)
Hypothesis SmartStr_int : forall n, SmartStr (ONum (Int n)) = str_int n.

(** X18. With [utils.SmartStr] of an integer being [str] of it: a size of
    at most 1024 bytes, negative ones included, prints as the integer
    followed by [B]; that text parses back to the size when the size is not
    negative, and is refused with [DecodeError] when it is negative. *)
Theorem ByteSize_str_parse (self : value) (n : Z) (a : age_t) (d : bool) :
  n <= 1024 ->
  ByteSize___str__ SmartStr (number ByteSize n a d) = Ok (str_int n +:+ "B")
  /\ (0 <= n ->
      ByteSize_ParseFromHumanReadable self (str_int n +:+ "B")
      = Ok (Number n))
  /\ (n < 0 ->
      ByteSize_ParseFromHumanReadable self (str_int n +:+ "B")
      = Raise DecodeError).
Proof.
  intros Hn. repeat apply conj.
  - unfold ByteSize___str__.
    change (_value (number ByteSize n a d)) with n.
    change (1024 ^ 3) with 1073741824. change (1024 ^ 2) with 1048576.
    destruct (Z.ltb_spec 1073741824 n); [lia |].
    destruct (Z.ltb_spec 1048576 n); [lia |].
    destruct (Z.ltb_spec 1024 n); [lia |].
    rewrite SmartStr_int. reflexivity.
  - intros Hpos.
    assert (Hshape : exists digits,
               str_int n = digits /\ digits <> EmptyString
               /\ all isdigit digits = true).
    { unfold str_int. pose proof (to_int_nonnil n) as Hnil.
      destruct n as [| p | p]; [| | lia];
        (eexists; split; [reflexivity |]; split;
         [apply string_of_uint_nonempty, Hnil | apply digits_of_uint]). }
    destruct Hshape as (digits & Hstr & Hne & Hd).
    destruct (ByteSize_parse_digits self digits Hne Hd) as (m & Hm & Hp).
    rewrite Hstr, Hp. pose proof (int_of_str_int n) as Hi.
    rewrite Hstr, Hm in Hi. injection Hi as ->. reflexivity.
  - intros Hneg. destruct n as [| p | p]; try lia.
    assert (Hstr : str_int (Z.neg p)
                   = String "-" (NilEmpty.string_of_uint (Pos.to_uint p)))
      by reflexivity.
    rewrite Hstr. set (digits := NilEmpty.string_of_uint (Pos.to_uint p)).
    assert (Hd : all isdigit digits = true) by apply digits_of_uint.
    unfold ByteSize_ParseFromHumanReadable.
    change (is_empty (String "-" digits +:+ "B")) with false. cbv iota.
    assert (Hstrip : strip (String "-" digits +:+ "B")
                     = String "-" (digits +:+ "B")).
    { apply strip_no_space. simpl. rewrite all_append.
      rewrite (all_impl isdigit _ digits); [reflexivity | | exact Hd].
      intros c Hc. apply (digit_not_space c Hc). }
    rewrite Hstrip, ByteSize_REGEX_match. reflexivity.
Qed.

End SizeText.

(** 1024 bytes are still printed in bytes. *)
Lemma ByteSize_str_parse_witness :
  let SmartStr o :=
    match o with
    | OStr s => s
    | ONum (Int n) => str_int n
    | _ => EmptyString
    end in
  ByteSize___str__ SmartStr (built ByteSize 1024) = Ok "1024B"
  /\ ByteSize_ParseFromHumanReadable (built ByteSize 0) "1024B"
     = Ok (Number 1024).
Proof.
  intros SmartStr.
  destruct (ByteSize_str_parse SmartStr (fun n => eq_refl) (built ByteSize 0)
              1024 (InstanceAge RDFDatetime 0) false) as (H1 & H2 & _).
  - lia.
  - split; [exact H1 |]. apply H2. lia.
Defined.

(** Above 1024 bytes the text keeps one digit after the point, so that it
    parses to another size: 1025 bytes print as one kibibyte. *)
Example ByteSize_str_examples :
  let SmartStr o :=
    match o with
    | OStr s => s
    | ONum (Int n) => str_int n
    | _ => EmptyString
    end in
  ByteSize___str__ SmartStr (built ByteSize 1025) = Ok "1.0KiB"
  /\ ByteSize_ParseFromHumanReadable (built ByteSize 0) "1.0KiB"
     = Ok (Number 1024)
  /\ ByteSize___str__ SmartStr (built ByteSize 1280) = Ok "1.2KiB"
  /\ ByteSize___str__ SmartStr (built ByteSize 1610612736) = Ok "1.5GiB"
  /\ ByteSize___str__ SmartStr (built ByteSize (10 ^ 400))
     = Raise OverflowError.
Proof. repeat apply conj; vm_compute; reflexivity. Qed.

(** ** The late-binding store *)

Section LateBindingFacts.

Context {callback kwargs world : Type}.

Variable invoke :
  callback -> string -> kwargs ->
  gmap string (list (callback * kwargs)) * world ->
  gmap string (list (callback * kwargs)) * world.

Lemma register_all (store : gmap string (list (callback * kwargs)))
    (name : string) (cbs : list (callback * kwargs)) :
  let registered :=
    fold_left (fun st '(cb, kw) => RegisterLateBindingCallback st name cb kw)
      cbs store in
  default [] (registered !! name) = (default [] (store !! name) ++ cbs)%list
  /\ delete name registered = delete name store
  /\ (forall other, other <> name -> registered !! other = store !! other).
Proof.
  revert store. induction cbs as [| [cb kw] cbs IH]; intros store; cbn zeta.
  - rewrite app_nil_r. repeat split.
  - cbn [fold_left].
    destruct (IH (RegisterLateBindingCallback store name cb kw))
      as (H1 & H2 & H3).
    unfold RegisterLateBindingCallback in *.
    rewrite lookup_insert_eq in H1. rewrite delete_insert_eq in H2.
    repeat apply conj.
    + rewrite H1. simpl. rewrite <- app_assoc. reflexivity.
    + exact H2.
    + intros other Hne. rewrite (H3 other Hne).
      apply lookup_insert_ne. congruence.
Qed.

(** X19. Callbacks registered for a name that has none waiting are called
    by the declaration of the class of that name in the order of their
    registration, starting from a store without the entry of the name;
    declaring a name with nothing waiting changes nothing; registrations for
    a name leave the entries of the other names as they were; and if the
    callbacks do not register for the name themselves, a second declaration
    of the name calls nothing. *)
Theorem late_binding (store : gmap string (list (callback * kwargs)))
    (name : string) (cbs : list (callback * kwargs)) (w : world) :
  let registered :=
    fold_left (fun st '(cb, kw) => RegisterLateBindingCallback st name cb kw)
      cbs (delete name store) in
  RDFValueMetaclass___init__ invoke name (registered, w)
  = fold_left (fun st '(cb, kw) => invoke cb name kw st) cbs
      (delete name store, w)
  /\ RDFValueMetaclass___init__ invoke name (delete name store, w)
     = (delete name store, w)
  /\ (forall other,
        other <> name -> registered !! other = store !! other)
  /\ ((forall cb kw st, (invoke cb name kw st).1 !! name = st.1 !! name) ->
      RDFValueMetaclass___init__ invoke name
        (RDFValueMetaclass___init__ invoke name (registered, w))
      = RDFValueMetaclass___init__ invoke name (registered, w)).
Proof.
  cbn zeta.
  destruct (register_all (delete name store) name cbs) as (H1 & H2 & H3).
  cbn zeta in H1, H2, H3. rewrite lookup_delete_eq in H1. cbn in H1.
  rewrite delete_delete_eq in H2.
  assert (Hfirst :
    RDFValueMetaclass___init__ invoke name
      (fold_left
         (fun st '(cb, kw) => RegisterLateBindingCallback st name cb kw)
         cbs (delete name store), w)
    = fold_left (fun st '(cb, kw) => invoke cb name kw st) cbs
        (delete name store, w))
    by (unfold RDFValueMetaclass___init__; cbn [fst snd]; rewrite H1, H2;
        reflexivity).
  repeat apply conj.
  - exact Hfirst.
  - unfold RDFValueMetaclass___init__. cbn [fst snd].
    rewrite lookup_delete_eq, delete_delete_eq. reflexivity.
  - intros other Hne. rewrite (H3 other Hne).
    apply lookup_delete_ne. congruence.
  - intros Hkeep.
    assert (Hrun : forall l st,
               (fold_left (fun st '(cb, kw) => invoke cb name kw st) l st).1
               !! name = st.1 !! name).
    { induction l as [| [cb kw] l IH]; intros st; [reflexivity |].
      cbn [fold_left]. rewrite IH. apply Hkeep. }
    rewrite Hfirst.
    set (s1 := fold_left _ cbs _).
    assert (Hs1 : s1.1 !! name = None)
      by (unfold s1; rewrite Hrun; apply lookup_delete_eq).
    unfold RDFValueMetaclass___init__. rewrite Hs1. simpl.
    rewrite (delete_id _ _ Hs1). destruct s1; reflexivity.
Qed.

End LateBindingFacts.

(** Two callbacks wait for [Duration] and one for [ByteSize]; the
    declaration of [Duration] calls the first two, in the order of their
    registration, and leaves the third waiting. Here a call only records
    itself. *)
Lemma late_binding_witness :
  let invoke (cb : nat) (target : string) (kw : unit)
        (st : gmap string (list (nat * unit)) * list (nat * string)) :=
    (st.1, (st.2 ++ [(cb, target)])%list) in
  let store :=
    RegisterLateBindingCallback
      (RegisterLateBindingCallback
         (RegisterLateBindingCallback ∅ "Duration" 1%nat tt)
         "ByteSize" 2%nat tt)
      "Duration" 3%nat tt in
  let declared := RDFValueMetaclass___init__ invoke "Duration" (store, []) in
  declared.2 = [(1%nat, "Duration"); (3%nat, "Duration")]
  /\ declared.1 !! "Duration" = None
  /\ declared.1 !! "ByteSize" = Some [(2%nat, tt)]
  /\ RDFValueMetaclass___init__ invoke "Duration" declared = declared.
Proof.
  intros invoke store declared.
  destruct (late_binding invoke
              (RegisterLateBindingCallback ∅ "ByteSize" 2%nat tt) "Duration"
              [(1%nat, tt); (3%nat, tt)] [])
    as (H1 & _ & _ & H2).
  assert (Hstore :
    fold_left
      (fun st '(cb, kw) => RegisterLateBindingCallback st "Duration" cb kw)
      [(1%nat, tt); (3%nat, tt)]
      (delete "Duration" (RegisterLateBindingCallback ∅ "ByteSize" 2%nat tt))
    = store).
  { vm_compute. reflexivity. }
  rewrite Hstore in H1, H2. fold declared in H1, H2.
  assert (Hd : declared
               = (delete "Duration"
                    (RegisterLateBindingCallback ∅ "ByteSize" 2%nat tt),
                  [(1%nat, "Duration"); (3%nat, "Duration")]))
    by exact H1.
  repeat apply conj.
  - rewrite Hd. reflexivity.
  - rewrite Hd. apply lookup_delete_eq.
  - rewrite Hd. cbn [fst]. rewrite lookup_delete_ne by discriminate.
    unfold RegisterLateBindingCallback. rewrite lookup_insert_eq.
    reflexivity.
  - apply H2. intros cb kw st. reflexivity.
Defined.
